(** * appdb: identity and schema-version fingerprint of an application database

    A shallow embedding of [appdb.go].  The package opens, creates and
    validates a SQLite file for a host application; the file is tied to the
    application by a 32-bit fingerprint kept in the [user_version] pragma.
    The second copy of the file in the repository has the same functions
    with calls to [log.Println] added ([validateDB] is [validateDb] there);
    logging is left out here.

    Layout of the development:
    - [sha256]: the digest function of [crypto/sha256] (FIPS 180-4);
    - the pure part of the package: [getUserVersion] and the statement text;
    - [go]: programs as trees of calls into [os], [path/filepath] and
      [database/sql], run against an arbitrary environment ([handler]);
    - the package's functions, in the order of the source;
    - [Ref]: a small reference environment (a file system, and connections
      to files with one version register each, over an engine that says what
      a statement does), used to run the functions;
    - the properties. *)

From Stdlib Require Import ZArith String Ascii List Lia Bool.
From Stdlib Require Import DecimalString DecimalN.
From stdpp Require Import base option list strings gmap.

Import ListNotations.
Local Open Scope string_scope.
Local Open Scope list_scope.
Local Open Scope Z_scope.

(** ** Machine integers

    [uint8] and [uint32] values are integers in [Z]; conversions and
    wrap-around are written out. *)

Definition uint8 (x : Z) : Z := x mod 2 ^ 8.
Definition uint32 (x : Z) : Z := x mod 2 ^ 32.

Definition is_uint8 (x : Z) : Prop := 0 <= x < 2 ^ 8.
Definition is_uint32 (x : Z) : Prop := 0 <= x < 2 ^ 32.

(** [[]byte(s)]: the bytes of a Go string. *)
Definition bytes_of_string (s : string) : list Z :=
  List.map (fun a => Z.of_N (N_of_ascii a)) (list_ascii_of_string s).

(** ** crypto/sha256 *)

Module sha256.

Definition rotr (n x : Z) : Z :=
  uint32 (Z.lor (Z.shiftr x n) (Z.shiftl x (32 - n))).

Definition Ch (x y z : Z) : Z :=
  Z.lxor (Z.land x y) (Z.land (Z.lxor x 0xffffffff) z).
Definition Maj (x y z : Z) : Z :=
  Z.lxor (Z.lxor (Z.land x y) (Z.land x z)) (Z.land y z).
Definition Sigma0 (x : Z) : Z :=
  Z.lxor (Z.lxor (rotr 2 x) (rotr 13 x)) (rotr 22 x).
Definition Sigma1 (x : Z) : Z :=
  Z.lxor (Z.lxor (rotr 6 x) (rotr 11 x)) (rotr 25 x).
Definition sigma0 (x : Z) : Z :=
  Z.lxor (Z.lxor (rotr 7 x) (rotr 18 x)) (Z.shiftr x 3).
Definition sigma1 (x : Z) : Z :=
  Z.lxor (Z.lxor (rotr 17 x) (rotr 19 x)) (Z.shiftr x 10).

(** The round constants and the initial hash value are the first 32 bits
    of the fractional parts of the cube roots of the first 64 primes and of
    the square roots of the first 8 primes (FIPS 180-4, 4.2.2 and 5.3.3). *)
Definition is_prime (n : nat) : bool :=
  forallb (fun d => negb (Nat.eqb (Nat.modulo n d) 0)) (seq 2 (n - 2)).

Definition primes (count : nat) : list Z :=
  List.map Z.of_nat (firstn count (List.filter is_prime (seq 2 400))).

(** The integer cube root of a number below 2 ^ 105, bit by bit. *)
Definition cbrt (n : Z) : Z :=
  fold_left (fun r k =>
               let r' := r + 2 ^ Z.of_nat k in
               if r' * r' * r' <=? n then r' else r)
            (rev (seq 0 35)) 0.

Definition K : list Z :=
  Eval vm_compute in List.map (fun p => uint32 (cbrt (p * 2 ^ 96))) (primes 64).

(** The eight working variables, a to h. *)
Record regs : Type := Regs
{ ra : Z; rb : Z; rc : Z; rd : Z; re : Z; rf : Z; rg : Z; rh : Z }.

Definition init : regs :=
  Eval vm_compute in
    match List.map (fun p => uint32 (Z.sqrt (p * 2 ^ 64))) (primes 8) with
    | [a; b; c; d; e; f; g; h] => Regs a b c d e f g h
    | _ => Regs 0 0 0 0 0 0 0 0
    end.

(** Padding: one 0x80 byte, zeros up to 56 modulo 64, then the bit length
    as a 64-bit big-endian integer. *)
Definition be_bytes (n : nat) (x : Z) : list Z :=
  List.map (fun i => Z.land (Z.shiftr x (8 * Z.of_nat i)) 0xff) (rev (seq 0 n)).

Definition pad (msg : list Z) : list Z :=
  let len := Z.of_nat (length msg) in
  msg ++ [0x80] ++ repeat 0 (Z.to_nat ((55 - len) mod 64))
      ++ be_bytes 8 (8 * len).

Definition be_word (b : list Z) : Z :=
  fold_left (fun acc x => Z.lor (Z.shiftl acc 8) x) b 0.

Fixpoint chunks {A} (size count : nat) (l : list A) : list (list A) :=
  match count with
  | O => []
  | S count' => firstn size l :: chunks size count' (skipn size l)
  end.

(** Message schedule, most recent word first. *)
Fixpoint extend (n : nat) (w : list Z) : list Z :=
  match n with
  | O => w
  | S n' =>
      let x := uint32 (sigma1 (nth 1 w 0) + nth 6 w 0
                       + sigma0 (nth 14 w 0) + nth 15 w 0) in
      extend n' (x :: w)
  end.

Definition schedule (block : list Z) : list Z :=
  rev (extend 48 (rev (List.map be_word (chunks 4 16 block)))).

Definition round (r : regs) (kw : Z * Z) : regs :=
  let '(k, w) := kw in
  let t1 := rh r + Sigma1 (re r) + Ch (re r) (rf r) (rg r) + k + w in
  let t2 := Sigma0 (ra r) + Maj (ra r) (rb r) (rc r) in
  Regs (uint32 (t1 + t2)) (ra r) (rb r) (rc r)
       (uint32 (rd r + t1)) (re r) (rf r) (rg r).

Definition add_regs (x y : regs) : regs :=
  Regs (uint32 (ra x + ra y)) (uint32 (rb x + rb y))
       (uint32 (rc x + rc y)) (uint32 (rd x + rd y))
       (uint32 (re x + re y)) (uint32 (rf x + rf y))
       (uint32 (rg x + rg y)) (uint32 (rh x + rh y)).

Definition compress (h : regs) (block : list Z) : regs :=
  add_regs h (fold_left round (combine K (schedule block)) h).

Definition digest_bytes (h : regs) : list Z :=
  List.concat (List.map (be_bytes 4)
    [ra h; rb h; rc h; rd h; re h; rf h; rg h; rh h]).

(** [sha256.Sum256]: the 32 bytes of the digest. *)
Definition Sum256 (data : list Z) : list Z :=
  let p := pad data in
  digest_bytes (fold_left compress (chunks 64 (length p / 64) p) init).

End sha256.

(** ** Errors

    The values of Go's [error] interface that the package makes or passes on.
    [nil] is [None] in [option error]. *)

Inductive error : Type :=
| SchemaVersionError (Version ExpectedVersion : Z)
| AppIdError (Id ExpectedId : Z)
| SchemaError (Statement : string) (Err : error)
| ErrInvalid                                   (* os.ErrInvalid *)
| ErrNotExist                                  (* os.ErrNotExist *)
| PathError (Op Path : string) (Err : error)   (* *fs.PathError *)
| EngineError (msg : string)                   (* database/sql or the driver *)
| OtherError (msg : string).                   (* any other error of os *)

(** [os.IsNotExist]: looks through one [PathError]. *)
Definition os_IsNotExist (err : option error) : bool :=
  match err with
  | Some ErrNotExist | Some (PathError _ _ ErrNotExist) => true
  | _ => false
  end.

(** ** os.FileMode *)

Definition FileMode : Type := Z.

Definition ModeDir : FileMode := Z.shiftl 1 31.
Definition ModeSymlink : FileMode := Z.shiftl 1 27.
Definition ModeDevice : FileMode := Z.shiftl 1 26.
Definition ModeNamedPipe : FileMode := Z.shiftl 1 25.
Definition ModeSocket : FileMode := Z.shiftl 1 24.
Definition ModeCharDevice : FileMode := Z.shiftl 1 21.
Definition ModeIrregular : FileMode := Z.shiftl 1 19.

Definition ModeType : FileMode :=
  Z.lor ModeDir (Z.lor ModeSymlink (Z.lor ModeNamedPipe (Z.lor ModeSocket
    (Z.lor ModeDevice (Z.lor ModeCharDevice ModeIrregular))))).

Definition IsRegular (m : FileMode) : bool := Z.land m ModeType =? 0.
Definition IsDir (m : FileMode) : bool := negb (Z.land m ModeDir =? 0).

Record FileInfo : Type := { Mode : FileMode }.

(** ** The fingerprint *)

(** [binary.LittleEndian.Uint32] on a slice of (at least) four bytes; on
    bytes the shifts stay below 2 ^ 32, so nothing wraps. *)
Definition LittleEndian_Uint32 (b : list Z) : Z :=
  Z.lor (Z.lor (Z.lor (nth 0 b 0) (Z.shiftl (nth 1 b 0) 8))
               (Z.shiftl (nth 2 b 0) 16))
        (Z.shiftl (nth 3 b 0) 24).

Definition getUserVersion (appName : string) (schemaVersion : Z) : Z :=
  let sum := sha256.Sum256 (bytes_of_string appName) in
  let s := [nth 0 sum 0; nth 1 sum 0; nth 2 sum 0; schemaVersion] in
  let uv := LittleEndian_Uint32 s in
  uv.

(** [%d] of [fmt.Sprintf] on an unsigned value. *)
Definition fmt_d (n : Z) : string :=
  NilEmpty.string_of_uint (N.to_uint (Z.to_N n)).

(** [fmt.Sprintf("PRAGMA user_version = %d ;", uv)] *)
Definition user_version_stmt (uv : Z) : string :=
  ("PRAGMA user_version = " ++ fmt_d uv ++ " ;")%string.

Definition foreign_keys_stmt : string := "PRAGMA foreign_keys = ON;".

(** ** Programs over the collaborators

    The package calls into [os], [path/filepath] and [database/sql].  A
    program is the tree of these calls; what each call answers is up to the
    environment. *)

Definition File : Type := nat.
Definition DB : Type := nat.
Definition Stmt : Type := nat.
Definition Row : Type := nat.

Inductive result (T : Type) : Type :=
| Ok (v : T)
| Err (e : error).
Arguments Ok {T} v.
Arguments Err {T} e.

Definition error_of {T} (r : result T) : option error :=
  match r with Ok _ => None | Err e => Some e end.

Inductive call : Type :=
| os_Stat (name : string)
| os_MkdirAll (path : string) (perm : FileMode)
| os_Create (name : string)
| File_Close (f : File)
| filepath_Dir (path : string)
| sql_Open (driverName dataSourceName : string)
| DB_Close (db : DB)
| DB_Prepare (db : DB) (query : string)
| DB_QueryRow (db : DB) (query : string)
| Row_Scan (r : Row)                      (* into a [*uint32] *)
| Stmt_Exec (s : Stmt) (args : list string)
| Stmt_Close (s : Stmt).

Definition resp (c : call) : Type :=
  match c with
  | os_Stat _ => result FileInfo
  | os_MkdirAll _ _ => option error
  | os_Create _ => result File
  | File_Close _ => option error
  | filepath_Dir _ => string
  | sql_Open _ _ => result DB
  | DB_Close _ => option error
  | DB_Prepare _ _ => result Stmt
  | DB_QueryRow _ _ => Row
  | Row_Scan _ => result Z
  | Stmt_Exec _ _ => option error
  | Stmt_Close _ => option error
  end.

Inductive go (A : Type) : Type :=
| Ret (a : A)
| Do (c : call) (k : resp c -> go A).
Arguments Ret {A} a.
Arguments Do {A} c k.

Fixpoint go_bind {A B} (f : A -> go B) (p : go A) : go B :=
  match p with
  | Ret a => f a
  | Do c k => Do c (fun x => go_bind f (k x))
  end.

#[export] Instance go_mret : MRet go := @Ret.
#[export] Instance go_mbind : MBind go := @go_bind.

Definition do (c : call) : go (resp c) := Do c Ret.

(** [defer cleanup] around [body]: the cleanup runs after the body, on every
    return; what the cleanup answers is dropped. *)
Definition defer {A B} (cleanup : go B) (body : go A) : go A :=
  a ← body; _ ← cleanup; mret a.

(** An event is a call with its answer; a run leaves the list of events. *)
Inductive event : Type := Ev (c : call) (r : resp c).

Definition handler (S : Type) : Type := forall c : call, S -> resp c * S.

Fixpoint run {S A} (h : handler S) (p : go A) (s : S) : A * S * list event :=
  match p with
  | Ret a => (a, s, [])
  | Do c k =>
      let '(x, s1) := h c s in
      let '(a, s2, t) := run h (k x) s1 in
      (a, s2, Ev c x :: t)
  end.

Definition result_of {S A} (h : handler S) (p : go A) (s : S) : A :=
  (run h p s).1.1.
Definition state_of {S A} (h : handler S) (p : go A) (s : S) : S :=
  (run h p s).1.2.
Definition trace_of {S A} (h : handler S) (p : go A) (s : S) : list event :=
  (run h p s).2.

(** ** The package *)

(** [openAppDBNoValidate] opens the database file without validation. *)
Definition openAppDBNoValidate (dbPath : string) : go (option DB * option error) :=
  r ← do (os_Stat dbPath);
  match r with
  | Err err => mret (None, Some err)
  | Ok filestat =>
      if IsRegular (Mode filestat) then
        r ← do (sql_Open "sqlite3" dbPath);
        match r with
        | Err err => mret (None, Some err)
        | Ok db => mret (Some db, None)
        end
      else mret (None, Some ErrInvalid)
  end.

(** [ExecSqlStatement] prepares and executes one simple SQL statement and
    discards the result. *)
Definition ExecSqlStatement (db : DB) (sql : string) : go (option error) :=
  r ← do (DB_Prepare db sql);
  match r with
  | Err err => mret (Some err)
  | Ok stmt =>
      defer (do (Stmt_Close stmt))
        (err ← do (Stmt_Exec stmt []);
         match err with
         | Some err => mret (Some err)
         | None => mret None
         end)
  end.

(** The [for v := range values] loop of [ExecBulkSql]. *)
Fixpoint ExecBulkSql_loop (stmt : Stmt) (values : list string) : go (option error) :=
  match values with
  | [] => mret None
  | v :: values' =>
      err ← do (Stmt_Exec stmt [v]);
      match err with
      | Some err => mret (Some err)
      | None => ExecBulkSql_loop stmt values'
      end
  end.

(** [ExecBulkSql] prepares one SQL statement and executes it once for each
    value. *)
Definition ExecBulkSql (db : DB) (sql : string) (values : list string) : go (option error) :=
  r ← do (DB_Prepare db sql);
  match r with
  | Err err => mret (Some err)
  | Ok stmt => defer (do (Stmt_Close stmt)) (ExecBulkSql_loop stmt values)
  end.

(** The [for v := range s] loop of [initSchema]. *)
Fixpoint initSchema_loop (db : DB) (s : list string) : go (option error) :=
  match s with
  | [] => mret None
  | sv :: s' =>
      err ← ExecSqlStatement db sv;
      match err with
      | Some err => mret (Some (SchemaError sv err))
      | None => initSchema_loop db s'
      end
  end.

(** [initSchema] initializes the schema, setting the user_version pragma and
    the foreign_key pragma. *)
Definition initSchema (db : DB) (appName : string) (schemaVersion : Z)
    (schema : list string) : go (option error) :=
  let s := [] in
  let s := s ++ [user_version_stmt (getUserVersion appName schemaVersion);
                 foreign_keys_stmt] in
  let s := s ++ schema in
  initSchema_loop db s.

(** [validateDB] checks that the user_version pragma value matches that
    expected by the application. *)
Definition validateDB (db : DB) (appName : string) (schemaVersion : Z) : go (option error) :=
  r ← do (DB_QueryRow db "PRAGMA user_version");
  let uv := getUserVersion appName schemaVersion in
  x ← do (Row_Scan r);
  match x with
  | Err err => mret (Some err)
  | Ok user_version =>
      if negb (uv =? user_version) then
        let dbAppId := Z.land user_version 0x00ffffff in
        let expectedId := Z.land uv 0x00ffffff in
        let dbSchemaVers := uint8 (Z.shiftr user_version 24) in
        let expectedSchemaVers := uint8 (Z.shiftr uv 24) in
        if negb (dbAppId =? expectedId) then
          mret (Some (AppIdError dbAppId expectedId))
        else if negb (dbSchemaVers =? expectedSchemaVers) then
          mret (Some (SchemaVersionError dbSchemaVers expectedSchemaVers))
        else mret None
      else mret None
  end.

(** [OpenAppDB] opens and validates the database. *)
Definition OpenAppDB (dbPath appName : string) (schemaVersion : Z)
    : go (option DB * option error) :=
  r ← openAppDBNoValidate dbPath;
  match r with
  | (_, Some err) => mret (None, Some err)
  | (None, None) => mret (None, None)  (* no such answer: openAppDBNoValidate_shape *)
  | (Some db, None) =>
      err ← validateDB db appName schemaVersion;
      match err with
      | Some err => _ ← do (DB_Close db); mret (None, Some err)
      | None => mret (Some db, None)
      end
  end.

(** [InitAppDB] initialises a sqlite3 database at the given path, opening if
    it exists, creating file and path if not.  The value returned by
    [initSchema] is not bound to anything. *)
Definition InitAppDB (dbPath appName : string) (schemaVersion : Z)
    (schema : list string) : go (option DB * option error) :=
  r ← do (os_Stat dbPath);
  let err := error_of r in
  if os_IsNotExist err then
    dir ← do (filepath_Dir dbPath);
    err ← do (os_MkdirAll dir (Z.lor ModeDir 448 (* 0700 *)));
    match err with
    | Some err => mret (None, Some err)
    | None =>
        r ← do (os_Create dbPath);
        match r with
        | Err err => mret (None, Some err)
        | Ok fh =>
            _ ← do (File_Close fh);
            r ← openAppDBNoValidate dbPath;
            match r with
            | (_, Some err) => mret (None, Some err)
            | (None, None) => mret (None, None)  (* no such answer *)
            | (Some db, None) =>
                _ ← initSchema db appName schemaVersion schema;
                mret (Some db, None)
            end
        end
    end
  else
    r ← OpenAppDB dbPath appName schemaVersion;
    match r with
    | (_, Some err) => mret (None, Some err)
    | (db, None) => mret (db, None)
    end.

(** ** A reference environment

    A file system that maps paths to directories and regular files, with
    connections, prepared statements and rows over it.  Each regular file
    keeps one version register and the statements applied so far.  As
    [database/sql] does, [sql.Open] only checks the driver name; the file is
    looked at when a statement is prepared or a query is run.

    What the driver and the engine do is left to an [engine]: which file a
    data source name stands for, whether a statement text compiles against
    a database, whether its execution fails or else which value the version
    register holds afterwards, and whether the database can be read.  The
    properties of the register are stated for every engine, under what they
    need of it ([writes_register], [keeps_register], [readable]).

    [sqlite] is a sample engine for plain file names and a fragment of the
    statement texts.  Its register is a signed 32-bit slot, as the one of
    SQLite: a literal outside of it leaves 0.  [Scan] into a [uint32] fails
    on a register below 0. *)

Module Ref.

Record dbfile : Type := DbFile
  { user_version : Z;
    applied : list (string * list string) }.

Definition empty_db : dbfile := DbFile 0 [].

Inductive node : Type :=
| Directory
| Regular (f : dbfile).

Record conn : Type := Conn
  { conn_path : string; conn_open : bool; foreign_keys : bool }.

Record prepared : Type := Prepared
  { stmt_db : DB; stmt_sql : string; stmt_open : bool }.

Record world : Type := World
  { files : gmap string node;
    conns : list conn;
    stmts : list prepared;
    rows : list (result Z);
    fds : nat }.

Definition empty : world := World ∅ [] [] [] 0.

(** *** Engines *)

(** [opens name]: the file that the driver opens for the data source name
    [name].  [compile q f]: the error of preparing the text [q] against the
    database [f], if any.  [execute q args f]: the error of executing [q]
    with the arguments [args] on [f], or the value of the version register
    after it.  [enforces q]: the execution of [q] turns foreign keys on for
    the connection.  [blocked f]: the error that a query meets on the
    database [f], if any, such as a lock that a connection holds on it. *)
Record engine : Type := Engine
  { opens : string -> string;
    compile : string -> dbfile -> option error;
    execute : string -> list string -> dbfile -> result Z;
    enforces : string -> bool;
    blocked : dbfile -> option error }.

(** The engine executes [PRAGMA user_version = d ;], for a decimal numeral
    [d] of a value below 2 ^ 31, by storing this value in the register. *)
Definition writes_register (E : engine) : Prop :=
  forall (d : Decimal.uint) (f : dbfile) (m : Z),
    Z.of_N (N.of_uint d) < 2 ^ 31 ->
    execute E ("PRAGMA user_version = " ++ NilEmpty.string_of_uint d ++ " ;")%string [] f
      = Ok m ->
    m = Z.of_N (N.of_uint d).

(** Whatever else the statement [q] does, its execution leaves the register
    as it is. *)
Definition keeps_register (E : engine) (q : string) : Prop :=
  forall (args : list string) (f : dbfile) (m : Z),
    execute E q args f = Ok m -> m = user_version f.

(** *** Statement texts of the sample engine *)

(** What the sample engine reads in a statement text.  [SetUserVersion n]:
    the pragma of the register with the literal [n].  [Other]: a statement
    that the engine executes without touching the register.  [Invalid]: a
    text that is no statement.  [Unsupported]: a statement outside the
    fragment of the sample engine. *)
Inductive stmt_kind : Type :=
| SetUserVersion (n : Z)
| ForeignKeysOn
| Other
| Invalid
| Unsupported.

Fixpoint strip_prefix (p s : string) : option string :=
  match p, s with
  | EmptyString, _ => Some s
  | String a p', String b s' =>
      if Ascii.eqb a b then strip_prefix p' s' else None
  | String _ _, EmptyString => None
  end.

Definition parse_uint (ds : string) : option Z :=
  match NilEmpty.uint_of_string ds with
  | Some Decimal.Nil | None => None
  | Some d => Some (Z.of_N (N.of_uint d))
  end.

Definition parse_int (v : string) : option Z :=
  match v with
  | String "-" ds => option_map Z.opp (parse_uint ds)
  | _ => parse_uint v
  end.

(** Words and punctuation of a text; blanks separate, letters are read
    without regard to case. *)
Definition is_blank (a : ascii) : bool :=
  existsb (Ascii.eqb a) [" "; "009"; "010"; "013"]%char.

Definition is_punct (a : ascii) : bool :=
  existsb (Ascii.eqb a) ["="; ";"; "("; ")"; ","]%char.

Definition upper (a : ascii) : ascii :=
  let n := N_of_ascii a in
  if ((97 <=? n) && (n <=? 122))%N then ascii_of_N (n - 32) else a.

Definition flush (word : string) : list string :=
  match word with
  | EmptyString => []
  | _ => [word]
  end.

Fixpoint tokens_from (word s : string) : list string :=
  match s with
  | EmptyString => flush word
  | String a s' =>
      if is_blank a then flush word ++ tokens_from EmptyString s'
      else if is_punct a then
        flush word ++ String a EmptyString :: tokens_from EmptyString s'
      else tokens_from (word ++ String (upper a) EmptyString) s'
  end.

Definition tokens (q : string) : list string := tokens_from EmptyString q.

(** The tokens without the semicolon that ends the statement. *)
Definition without_semicolon (ts : list string) : list string :=
  match rev ts with
  | t :: r => if String.eqb t ";" then rev r else ts
  | [] => ts
  end.

(** The value given to a pragma, as [name = v] or as [name(v)]; no value
    makes the pragma a query. *)
Inductive pragma_arg : Type :=
| NoValue
| Value (v : string)
| NoPragma.

Definition pragma_value (rest : list string) : pragma_arg :=
  match rest with
  | [] => NoValue
  | [eq; v] => if String.eqb eq "=" then Value v else NoPragma
  | [l; v; r] =>
      if String.eqb l "(" && String.eqb r ")" then Value v else NoPragma
  | _ => NoPragma
  end.

Definition pragma_name (name : string) : string :=
  match strip_prefix "MAIN." name with
  | Some n => n
  | None => name
  end.

Definition parse_pragma (name : string) (rest : list string) : stmt_kind :=
  match pragma_value rest with
  | NoPragma => Unsupported
  | NoValue => Other
  | Value v =>
      if String.eqb (pragma_name name) "USER_VERSION" then
        match parse_int v with
        | Some n => SetUserVersion n
        | None => Unsupported
        end
      else if String.eqb (pragma_name name) "FOREIGN_KEYS" then
        if String.eqb v "ON" then ForeignKeysOn else Other
      else Other
  end.

(** The first words of the statements that the sample engine executes
    without looking further, and the other words that start a statement. *)
Definition accepted : list string := ["CREATE"; "INSERT"].

Definition keywords : list string :=
  ["ALTER"; "ANALYZE"; "ATTACH"; "BEGIN"; "COMMIT"; "DELETE"; "DETACH"; "DROP";
   "END"; "EXPLAIN"; "REINDEX"; "RELEASE"; "REPLACE"; "ROLLBACK"; "SAVEPOINT";
   "SELECT"; "UPDATE"; "VACUUM"; "VALUES"; "WITH"].

Definition parse (q : string) : stmt_kind :=
  match without_semicolon (tokens q) with
  | [] => Unsupported
  | k :: rest =>
      if existsb (String.eqb ";") rest then Unsupported
      else if String.eqb k "PRAGMA" then
        match rest with
        | name :: rest' => parse_pragma name rest'
        | [] => Unsupported
        end
      else if existsb (String.eqb k) accepted then Other
      else if existsb (String.eqb k) keywords then Unsupported
      else Invalid
  end.

Fixpoint placeholders (q : string) : nat :=
  match q with
  | EmptyString => O
  | String a q' =>
      if Ascii.eqb a "?" then S (placeholders q') else placeholders q'
  end.

Definition sets_user_version (q : string) : bool :=
  match parse q with SetUserVersion _ => true | _ => false end.

Definition closed_db : error := EngineError "sql: database is closed".
Definition closed_stmt : error := EngineError "sql: statement is closed".
Definition cannot_open : error := EngineError "unable to open database file".
Definition syntax_error : error := EngineError "syntax error".
Definition wrong_args : error := EngineError "sql: wrong number of arguments".
Definition unsupported : error := EngineError "statement outside the fragment".
Definition scan_error : error :=
  EngineError "sql: Scan error: converting to a uint32: invalid syntax".

(** The register is a signed 32-bit slot: a literal outside of it leaves
    0. *)
Definition stored (n : Z) : Z :=
  if (- 2 ^ 31 <=? n) && (n <? 2 ^ 31) then n else 0.

(** The sample engine.  It takes a data source name as the name of the
    file and lets every database be read.  It reads the pragma of the
    register in its spellings, the pragma of foreign keys and other pragmas
    of the same shapes, and executes statements that start with CREATE or
    INSERT without looking further, one argument per question mark.  A text
    whose first word starts no statement is a syntax error; what else there
    is, it does not support. *)
Definition sqlite : engine :=
  {| opens name := name;
     blocked _ := None;
     enforces q :=
       match parse q with
       | ForeignKeysOn => true
       | _ => false
       end;
     compile q _ :=
       match parse q with
       | Invalid => Some syntax_error
       | Unsupported => Some unsupported
       | _ => None
       end;
     execute q args f :=
       match parse q with
       | SetUserVersion n =>
           match args with
           | [] => Ok (stored n)
           | _ => Err wrong_args
           end
       | ForeignKeysOn =>
           match args with
           | [] => Ok (user_version f)
           | _ => Err wrong_args
           end
       | Other =>
           if Nat.eqb (length args) (placeholders q) then Ok (user_version f)
           else Err wrong_args
       | Invalid => Err syntax_error
       | Unsupported => Err unsupported
       end |}.

(** *** Paths *)

Fixpoint drop_last_component (r : list ascii) : list ascii :=
  match r with
  | [] => []
  | a :: r' => if Ascii.eqb a "/" then r' else drop_last_component r'
  end.

(** The directory part of a clean slash-separated path. *)
Definition dirname (path : string) : string :=
  let l := list_ascii_of_string path in
  if existsb (Ascii.eqb "/") l then
    match drop_last_component (rev l) with
    | [] => "/"
    | r => string_of_list_ascii (rev r)
    end
  else ".".

(** *** The file system, connections and statements *)

(** The database that the engine sees at a path: a missing file is an empty
    database, a directory cannot be opened. *)
Definition db_at (w : world) (path : string) : option dbfile :=
  match files w !! path with
  | None => Some empty_db
  | Some (Regular f) => Some f
  | Some Directory => None
  end.

(** The version register that the engine reads at a path. *)
Definition register (w : world) (path : string) : option Z :=
  option_map user_version (db_at w path).

Definition set_files (w : world) (fs : gmap string node) : world :=
  World fs (conns w) (stmts w) (rows w) (fds w).
Definition set_conns (w : world) (cs : list conn) : world :=
  World (files w) cs (stmts w) (rows w) (fds w).
Definition set_stmts (w : world) (ss : list prepared) : world :=
  World (files w) (conns w) ss (rows w) (fds w).
Definition set_rows (w : world) (rs : list (result Z)) : world :=
  World (files w) (conns w) (stmts w) rs (fds w).

(** The connection behind a handle, when it is open. *)
Definition open_conn (w : world) (db : DB) : result conn :=
  match conns w !! db with
  | Some c => if conn_open c then Ok c else Err closed_db
  | None => Err closed_db
  end.

Definition prepare (E : engine) (w : world) (db : DB) (q : string) : result Stmt * world :=
  match open_conn w db with
  | Err e => (Err e, w)
  | Ok c =>
      match db_at w (conn_path c) with
      | None => (Err cannot_open, w)
      | Some f =>
          match compile E q f with
          | Some e => (Err e, w)
          | None => (Ok (length (stmts w)),
                     set_stmts w (stmts w ++ [Prepared db q true]))
          end
      end
  end.

(** An execution that fails changes nothing.  One that succeeds leaves the
    register as the engine says and adds the statement to those applied; the
    connection remembers that foreign keys were turned on. *)
Definition exec (E : engine) (w : world) (st : Stmt) (args : list string) : option error * world :=
  match stmts w !! st with
  | None => (Some closed_stmt, w)
  | Some p =>
      if negb (stmt_open p) then (Some closed_stmt, w) else
      match open_conn w (stmt_db p) with
      | Err e => (Some e, w)
      | Ok c =>
          match db_at w (conn_path c) with
          | None => (Some cannot_open, w)
          | Some f =>
              match execute E (stmt_sql p) args f with
              | Err e => (Some e, w)
              | Ok n =>
                  (None,
                   World (<[conn_path c :=
                            Regular (DbFile n (applied f ++ [(stmt_sql p, args)]))]>
                            (files w))
                         (<[stmt_db p :=
                            Conn (conn_path c) true
                              (foreign_keys c || enforces E (stmt_sql p))]>
                            (conns w))
                         (stmts w) (rows w) (fds w))
              end
          end
      end
  end.

(** The row of the query for the register, as [Scan] delivers it into a
    [uint32]. *)
Definition query (E : engine) (w : world) (db : DB) (q : string) : result Z :=
  match open_conn w db with
  | Err e => Err e
  | Ok c =>
      match db_at w (conn_path c) with
      | None => Err cannot_open
      | Some f =>
          if String.eqb q "PRAGMA user_version" then
            match blocked E f with
            | Some e => Err e
            | None =>
                if (0 <=? user_version f) && (user_version f <? 2 ^ 32)
                then Ok (user_version f) else Err scan_error
            end
          else Err unsupported
      end
  end.

Definition stat (w : world) (name : string) : result FileInfo :=
  match files w !! name with
  | None => Err (PathError "stat" name ErrNotExist)
  | Some Directory => Ok {| Mode := Z.lor ModeDir 493 (* 0755 *) |}
  | Some (Regular _) => Ok {| Mode := 420 (* 0644 *) |}
  end.

Definition mkdir_all (w : world) (path : string) : option error * world :=
  match files w !! path with
  | Some (Regular _) =>
      (Some (PathError "mkdir" path (OtherError "not a directory")), w)
  | _ => (None, set_files w (<[path := Directory]> (files w)))
  end.

Definition create (w : world) (name : string) : result File * world :=
  match files w !! name with
  | Some Directory =>
      (Err (PathError "open" name (OtherError "is a directory")), w)
  | _ =>
      match files w !! dirname name with
      | Some Directory =>
          (Ok (fds w),
           World (<[name := Regular empty_db]> (files w))
                 (conns w) (stmts w) (rows w) (S (fds w)))
      | _ => (Err (PathError "open" name ErrNotExist), w)
      end
  end.

Definition open_db (E : engine) (w : world) (driverName dataSourceName : string) :
    result DB * world :=
  if String.eqb driverName "sqlite3" then
    (Ok (length (conns w)),
     set_conns w (conns w ++ [Conn (opens E dataSourceName) true false]))
  else (Err (EngineError "sql: unknown driver"), w).

Definition close_db (w : world) (db : DB) : option error * world :=
  match conns w !! db with
  | Some c =>
      (None, set_conns w
         (<[db := Conn (conn_path c) false (foreign_keys c)]> (conns w)))
  | None => (None, w)
  end.

Definition query_row (E : engine) (w : world) (db : DB) (q : string) : Row * world :=
  (length (rows w), set_rows w (rows w ++ [query E w db q])).

Definition scan (w : world) (r : Row) : result Z * world :=
  (match rows w !! r with
   | Some x => x
   | None => Err (EngineError "sql: no rows in result set")
   end, w).

Definition close_stmt (w : world) (st : Stmt) : option error * world :=
  match stmts w !! st with
  | Some p =>
      (None, set_stmts w
         (<[st := Prepared (stmt_db p) (stmt_sql p) false]> (stmts w)))
  | None => (None, w)
  end.

(** The environment over an engine. *)
Definition handle_in (E : engine) : handler world :=
  fun c =>
    match c return world -> resp c * world with
    | os_Stat name => fun w => (stat w name, w)
    | os_MkdirAll path _ => fun w => mkdir_all w path
    | os_Create name => fun w => create w name
    | File_Close _ => fun w => (None, w)
    | filepath_Dir path => fun w => (dirname path, w)
    | sql_Open driverName dataSourceName => fun w => open_db E w driverName dataSourceName
    | DB_Close db => fun w => close_db w db
    | DB_Prepare db q => fun w => prepare E w db q
    | DB_QueryRow db q => fun w => query_row E w db q
    | Row_Scan r => fun w => scan w r
    | Stmt_Exec st args => fun w => exec E w st args
    | Stmt_Close st => fun w => close_stmt w st
    end.

(** The environment over the sample engine. *)
Definition handle : handler world := handle_in sqlite.

(** The engine lets a query read the database at [path]. *)
Definition readable (E : engine) (w : world) (path : string) : Prop :=
  forall f, files w !! path = Some (Regular f) -> blocked E f = None.

(** [db] is an open connection to the regular file at [path]. *)
Definition connected (w : world) (db : DB) (path : string) : Prop :=
  (exists fk, conns w !! db = Some (Conn path true fk)) /\
  (exists f, files w !! path = Some (Regular f)).

End Ref.

(** ** Observations on runs *)

(** The 24-bit identifier of an application: digest bytes 0, 1 and 2, least
    significant first. *)
Definition appId (appName : string) : Z :=
  let sum := sha256.Sum256 (bytes_of_string appName) in
  nth 0 sum 0 + 2 ^ 8 * nth 1 sum 0 + 2 ^ 16 * nth 2 sum 0.

(** The calls of one [ExecSqlStatement db q] and what it returns: either
    [Prepare] fails, or the statement is prepared, executed once with no
    argument, and closed. *)
Inductive stmt_events (db : DB) (q : string) : option error -> list event -> Prop :=
| stmt_not_prepared (err : error) :
    stmt_events db q (Some err) [Ev (DB_Prepare db q) (Err err)]
| stmt_executed (stmt : Stmt) (x y : option error) :
    stmt_events db q x
      [Ev (DB_Prepare db q) (Ok stmt); Ev (Stmt_Exec stmt []) x; Ev (Stmt_Close stmt) y].

(** The calls of a run over a statement list: statement by statement, up to
    the end of the list or to the first statement that fails. *)
Inductive schema_events (db : DB) : list string -> option error -> list event -> Prop :=
| schema_done : schema_events db [] None []
| schema_next (q : string) (qs : list string) (r : option error) (t1 t2 : list event) :
    stmt_events db q None t1 ->
    schema_events db qs r t2 ->
    schema_events db (q :: qs) r (t1 ++ t2)
| schema_stop (q : string) (qs : list string) (err : error) (t : list event) :
    stmt_events db q (Some err) t ->
    schema_events db (q :: qs) (Some (SchemaError q err)) t.

(** The calls of the loop of [ExecBulkSql]: one [Exec] per value, in order,
    up to the end of the values or to the first [Exec] that fails. *)
Inductive bulk_events (stmt : Stmt) : list string -> option error -> list event -> Prop :=
| bulk_done : bulk_events stmt [] None []
| bulk_next (v : string) (vs : list string) (r : option error) (t : list event) :
    bulk_events stmt vs r t ->
    bulk_events stmt (v :: vs) r (Ev (Stmt_Exec stmt [v]) None :: t)
| bulk_stop (v : string) (vs : list string) (err : error) :
    bulk_events stmt (v :: vs) (Some err) [Ev (Stmt_Exec stmt [v]) (Some err)].

(** The statement texts handed to [Prepare], and the number of [Exec] calls,
    in a list of events. *)
Definition prepared_texts (t : list event) : list string :=
  flat_map (fun e => match e with
                     | Ev (DB_Prepare _ q) _ => [q]
                     | _ => []
                     end) t.

Definition exec_count (t : list event) : nat :=
  length (List.filter (fun e => match e with
                           | Ev (Stmt_Exec _ _) _ => true
                           | _ => false
                           end) t).

(** What the engine hands to [validateDB] for the version register: the
    answer of [Scan] on the row of the query. *)
Definition scanned {S} (h : handler S) (db : DB) (s : S) : result Z :=
  let '(r, s1) := h (DB_QueryRow db "PRAGMA user_version") s in
  (h (Row_Scan r) s1).1.

(** The errors answered by [Prepare] and [Exec] in a list of events. *)
Definition stmt_errors (t : list event) : list error :=
  flat_map (fun e => match e with
                     | Ev (DB_Prepare _ _) (Err err) => [err]
                     | Ev (Stmt_Exec _ _) (Some err) => [err]
                     | _ => []
                     end) t.

(** ** Sample environments *)

Definition app_path : string := "/data/app.db".

(** The reference world in which [InitAppDB] calls [initSchema] for a new
    file at [path]: the directory and the empty file are made and the file
    is open. *)
Definition world_created (path : string) : Ref.world :=
  let w1 := (Ref.mkdir_all Ref.empty (Ref.dirname path)).2 in
  let w2 := (Ref.create w1 path).2 in
  state_of Ref.handle (openAppDBNoValidate path) w2.

(** The reference world after the application "app" has made its database
    with schema version 3; handle 0 is left open on it. *)
Definition world_app3 : Ref.world :=
  state_of Ref.handle (InitAppDB app_path "app" 3 ["CREATE TABLE t(x);"]) Ref.empty.

(** A reference world with a directory at /data and nothing else. *)
Definition world_dir : Ref.world := (Ref.mkdir_all Ref.empty "/data").2.

(** An environment that counts the calls of [Exec] and lets the one numbered
    [n] (from 0) fail; everything else succeeds. *)
Definition fails_at (n : nat) : handler nat :=
  fun c =>
    match c return nat -> resp c * nat with
    | os_Stat _ => fun k => (Err ErrNotExist, k)
    | os_MkdirAll _ _ => fun k => (None, k)
    | os_Create _ => fun k => (Ok 0%nat, k)
    | File_Close _ => fun k => (None, k)
    | filepath_Dir path => fun k => (path, k)
    | sql_Open _ _ => fun k => (Ok 0%nat, k)
    | DB_Close _ => fun k => (None, k)
    | DB_Prepare _ _ => fun k => (Ok 0%nat, k)
    | DB_QueryRow _ _ => fun k => (0%nat, k)
    | Row_Scan _ => fun k => (Ok 0, k)
    | Stmt_Exec _ _ => fun k =>
        (if Nat.eqb k n then Some (EngineError "constraint failed") else None, S k)
    | Stmt_Close _ => fun k => (None, k)
    end.

(** ** Further observations on runs *)

(** The calls in a list of events, without their answers. *)
Definition calls_of (t : list event) : list call :=
  List.map (fun e => match e with Ev c _ => c end) t.

(** The calls through which the package can change the file system or a
    database: making directories and files, preparing and executing
    statements. *)
Definition mutating (c : call) : bool :=
  match c with
  | os_MkdirAll _ _ | os_Create _ | DB_Prepare _ _ | Stmt_Exec _ _ => true
  | _ => false
  end.

(** The handles closed in a list of events. *)
Definition closed_handles (t : list event) : list DB :=
  flat_map (fun e => match e with
                     | Ev (DB_Close db) _ => [db]
                     | _ => []
                     end) t.

(** ** Error texts

    The [Error] methods of the three error types of the package, and the
    texts of the errors of [os] that the package passes on.  [%d] prints an
    unsigned value in decimal; [%s] on an error prints its [Error()]. *)
Fixpoint Error (e : error) : string :=
  match e with
  | SchemaVersionError Version ExpectedVersion =>
      "Incorrect Schema Version: Got " ++ fmt_d Version
        ++ " - Expected " ++ fmt_d ExpectedVersion
  | AppIdError Id ExpectedId =>
      "Incorrect Database App Id: Got " ++ fmt_d Id
        ++ " - Expected " ++ fmt_d ExpectedId
  | SchemaError statement err =>
      "Error " ++ Error err ++ " creating schema on statement " ++ statement
  | ErrInvalid => "invalid argument"
  | ErrNotExist => "file does not exist"
  | PathError op path err => op ++ " " ++ path ++ ": " ++ Error err
  | EngineError msg => msg
  | OtherError msg => msg
  end%string.

(** A text that does not go on with a decimal digit. *)
Definition no_digit_ahead (s : string) : Prop :=
  match s with
  | EmptyString => True
  | String a _ => (N_of_ascii a <? 48)%N || (57 <? N_of_ascii a)%N = true
  end.

(** ** The variant with logging

    The second copy of the source logs the entry of most functions with
    [log.Println].  A program of the variant is a program over the
    collaborators that also leaves lines for the logger; the date and time
    that the logger puts before a line are not part of the line. *)

Definition lgo (A : Type) : Type := go (A * list string).

Definition lret {A} (a : A) : lgo A := mret (a, []).

Definition lbind {A B} (p : lgo A) (f : A -> lgo B) : lgo B :=
  x ← p; y ← f x.1; mret (y.1, x.2 ++ y.2).

Definition lift {A} (p : go A) : lgo A := a ← p; mret (a, []).

(** [fmt.Sprintln]: the operands with spaces between them, and a newline. *)
Definition Sprintln (args : list string) : string :=
  (String.concat " " args ++ String "010"%char EmptyString)%string.

Definition log_Println {A} (args : list string) (next : lgo A) : lgo A :=
  lbind (Ret (tt, [Sprintln args])) (fun _ => next).

Notation "x <~ p ;; q" := (lbind p (fun x => q))
  (at level 100, p at next level, right associativity).

Definition ldefer {A B} (cleanup : lgo B) (body : lgo A) : lgo A :=
  a <~ body ;; _ <~ cleanup ;; lret a.

(** What is left of a program of the variant when the lines are dropped. *)
Definition erase {A} (p : lgo A) : go A := x ← p; mret x.1.

Definition log_of {S A} (h : handler S) (p : lgo A) (s : S) : list string :=
  (result_of h p s).2.

Module Logged.

Definition getUserVersion (appName : string) (schemaVersion : Z) : lgo Z :=
  log_Println ["getUserVersion("; appName; fmt_d schemaVersion; ")"] (
  let sum := sha256.Sum256 (bytes_of_string appName) in
  let s := [nth 0 sum 0; nth 1 sum 0; nth 2 sum 0; schemaVersion] in
  let uv := LittleEndian_Uint32 s in
  lret uv).

Definition openAppDBNoValidate (dbPath appName : string) (schemaVersion : Z)
    : lgo (option DB * option error) :=
  log_Println ["openAppDBNoValidate("; dbPath; appName; fmt_d schemaVersion; ")"] (
  r <~ lift (do (os_Stat dbPath)) ;;
  match r with
  | Err err => lret (None, Some err)
  | Ok filestat =>
      if IsRegular (Mode filestat) then
        r <~ lift (do (sql_Open "sqlite3" dbPath)) ;;
        match r with
        | Err err => lret (None, Some err)
        | Ok db => lret (Some db, None)
        end
      else lret (None, Some ErrInvalid)
  end).

Definition ExecSqlStatement (db : DB) (sql : string) : lgo (option error) :=
  log_Println ["ExecSqlStatement(db,"; sql; ")"] (
  r <~ lift (do (DB_Prepare db sql)) ;;
  match r with
  | Err err => lret (Some err)
  | Ok stmt =>
      ldefer (lift (do (Stmt_Close stmt)))
        (err <~ lift (do (Stmt_Exec stmt [])) ;;
         match err with
         | Some err => lret (Some err)
         | None => lret None
         end)
  end).

Fixpoint ExecBulkSql_loop (stmt : Stmt) (values : list string) : lgo (option error) :=
  match values with
  | [] => lret None
  | v :: values' =>
      err <~ lift (do (Stmt_Exec stmt [v])) ;;
      match err with
      | Some err => lret (Some err)
      | None => ExecBulkSql_loop stmt values'
      end
  end.

Definition ExecBulkSql (db : DB) (sql : string) (values : list string) : lgo (option error) :=
  r <~ lift (do (DB_Prepare db sql)) ;;
  match r with
  | Err err => lret (Some err)
  | Ok stmt => ldefer (lift (do (Stmt_Close stmt))) (ExecBulkSql_loop stmt values)
  end.

Fixpoint initSchema_loop (db : DB) (s : list string) : lgo (option error) :=
  match s with
  | [] => lret None
  | sv :: s' =>
      err <~ ExecSqlStatement db sv ;;
      match err with
      | Some err => lret (Some (SchemaError sv err))
      | None => initSchema_loop db s'
      end
  end.

Definition initSchema (db : DB) (appName : string) (schemaVersion : Z)
    (schema : list string) : lgo (option error) :=
  log_Println ["initSchema(db,"; appName; fmt_d schemaVersion; ")"] (
  let s := [] in
  uv <~ getUserVersion appName schemaVersion ;;
  let s := s ++ [user_version_stmt uv; foreign_keys_stmt] in
  let s := s ++ schema in
  initSchema_loop db s).

Definition validateDb (db : DB) (appName : string) (schemaVersion : Z) : lgo (option error) :=
  log_Println ["validateDb(db,"; appName; fmt_d schemaVersion; ")"] (
  r <~ lift (do (DB_QueryRow db "PRAGMA user_version")) ;;
  uv <~ getUserVersion appName schemaVersion ;;
  x <~ lift (do (Row_Scan r)) ;;
  match x with
  | Err err => lret (Some err)
  | Ok user_version =>
      if negb (uv =? user_version) then
        let dbAppId := Z.land user_version 0x00ffffff in
        let expectedId := Z.land uv 0x00ffffff in
        let dbSchemaVers := uint8 (Z.shiftr user_version 24) in
        let expectedSchemaVers := uint8 (Z.shiftr uv 24) in
        if negb (dbAppId =? expectedId) then
          lret (Some (AppIdError dbAppId expectedId))
        else if negb (dbSchemaVers =? expectedSchemaVers) then
          lret (Some (SchemaVersionError dbSchemaVers expectedSchemaVers))
        else lret None
      else lret None
  end).

Definition OpenAppDB (dbPath appName : string) (schemaVersion : Z)
    : lgo (option DB * option error) :=
  log_Println ["OpenAppDB("; dbPath; appName; fmt_d schemaVersion; ")"] (
  r <~ openAppDBNoValidate dbPath appName schemaVersion ;;
  match r with
  | (_, Some err) => lret (None, Some err)
  | (None, None) => lret (None, None)
  | (Some db, None) =>
      err <~ validateDb db appName schemaVersion ;;
      match err with
      | Some err => _ <~ lift (do (DB_Close db)) ;; lret (None, Some err)
      | None => lret (Some db, None)
      end
  end).

Definition InitAppDB (dbPath appName : string) (schemaVersion : Z)
    (schema : list string) : lgo (option DB * option error) :=
  log_Println ["InitAppDb("; dbPath; appName; fmt_d schemaVersion; ")"] (
  r <~ lift (do (os_Stat dbPath)) ;;
  let err := error_of r in
  if os_IsNotExist err then
    dir <~ lift (do (filepath_Dir dbPath)) ;;
    err <~ lift (do (os_MkdirAll dir (Z.lor ModeDir 448 (* 0700 *)))) ;;
    match err with
    | Some err => lret (None, Some err)
    | None =>
        r <~ lift (do (os_Create dbPath)) ;;
        match r with
        | Err err => lret (None, Some err)
        | Ok fh =>
            _ <~ lift (do (File_Close fh)) ;;
            r <~ openAppDBNoValidate dbPath appName schemaVersion ;;
            match r with
            | (_, Some err) => lret (None, Some err)
            | (None, None) => lret (None, None)
            | (Some db, None) =>
                _ <~ initSchema db appName schemaVersion schema ;;
                lret (Some db, None)
            end
        end
    end
  else
    r <~ OpenAppDB dbPath appName schemaVersion ;;
    match r with
    | (_, Some err) => lret (None, Some err)
    | (db, None) => lret (db, None)
    end).

End Logged.

(** A program of the variant and a program of the package do the same when
    the lines are dropped: same calls, same final state, same result, in
    every environment. *)
Definition erases {A} (p' : lgo A) (p : go A) : Prop :=
  forall (S : Type) (h : handler S) (s : S), run h (erase p') s = run h p s.

(** The line that the variant of [ExecSqlStatement] logs for a statement. *)
Definition statement_line (sql : string) : string :=
  Sprintln ["ExecSqlStatement(db,"; sql; ")"].

(** ** More sample environments *)

(** The world of [world_app3] after another application has tried to open
    the database: handle 1 was opened and closed again. *)
Definition world_closed : Ref.world :=
  state_of Ref.handle (OpenAppDB app_path "beta" 3) world_app3.

(** A reference world with a regular file where the directory should be. *)
Definition world_blocked : Ref.world :=
  Ref.set_files Ref.empty (<["/data" := Ref.Regular Ref.empty_db]> ∅).

(** * Properties *)

(** ** Bytes and words *)

Lemma land_255_byte (x : Z) : is_uint8 (Z.land x 0xff).
Proof.
  unfold is_uint8. change 0xff with (Z.ones 8).
  rewrite Z.land_ones by lia. apply Z.mod_pos_bound. lia.
Qed.

Lemma lor_shiftl_add (a b n : Z) :
  0 <= n -> 0 <= a < 2 ^ n -> Z.lor a (Z.shiftl b n) = a + b * 2 ^ n.
Proof.
  intros Hn Ha.
  assert (Hdisj : Z.land a (Z.shiftl b n) = 0).
  { apply Z.bits_inj'. intros i Hi.
    rewrite Z.land_spec, Z.bits_0.
    destruct (Z.lt_ge_cases i n) as [Hlt | Hge].
    - rewrite (Z.shiftl_spec_low b n i Hlt). apply andb_false_r.
    - replace a with (a mod 2 ^ n) by (apply Z.mod_small; lia).
      rewrite Z.mod_pow2_bits_high by lia. reflexivity. }
  rewrite <- Z.lxor_lor by exact Hdisj.
  rewrite <- Z.add_nocarry_lxor by exact Hdisj.
  rewrite Z.shiftl_mul_pow2 by lia. reflexivity.
Qed.

Lemma be_bytes_range (n : nat) (x : Z) : Forall is_uint8 (sha256.be_bytes n x).
Proof.
  unfold sha256.be_bytes. apply List.Forall_map.
  apply List.Forall_forall. intros i _. apply land_255_byte.
Qed.

Lemma Sum256_length (data : list Z) : length (sha256.Sum256 data) = 32%nat.
Proof.
  unfold sha256.Sum256.
  generalize (fold_left sha256.compress
    (sha256.chunks 64 (length (sha256.pad data) / 64) (sha256.pad data))
    sha256.init).
  intros h. reflexivity.
Qed.

Lemma Sum256_bytes (data : list Z) : Forall is_uint8 (sha256.Sum256 data).
Proof.
  unfold sha256.Sum256, sha256.digest_bytes.
  apply List.Forall_concat. apply List.Forall_map.
  apply List.Forall_forall. intros x _. apply be_bytes_range.
Qed.

Lemma Sum256_nth (data : list Z) (i : nat) : is_uint8 (nth i (sha256.Sum256 data) 0).
Proof.
  destruct (Nat.lt_ge_cases i (length (sha256.Sum256 data))) as [Hlt | Hge].
  - pose proof (Sum256_bytes data) as H.
    rewrite List.Forall_forall in H. apply H. apply nth_In. exact Hlt.
  - rewrite nth_overflow by exact Hge. unfold is_uint8. lia.
Qed.

Arguments sha256.Sum256 : simpl never.

(** ** The fingerprint *)

Lemma appId_range (appName : string) : 0 <= appId appName < 2 ^ 24.
Proof.
  unfold appId.
  pose proof (Sum256_nth (bytes_of_string appName) 0) as H0.
  pose proof (Sum256_nth (bytes_of_string appName) 1) as H1.
  pose proof (Sum256_nth (bytes_of_string appName) 2) as H2.
  unfold is_uint8 in *. cbv zeta. lia.
Qed.

Lemma getUserVersion_eq (appName : string) (schemaVersion : Z) :
  getUserVersion appName schemaVersion = appId appName + 2 ^ 24 * schemaVersion.
Proof.
  unfold getUserVersion, LittleEndian_Uint32, appId. cbv zeta.
  cbn [nth].
  pose proof (Sum256_nth (bytes_of_string appName) 0) as H0.
  pose proof (Sum256_nth (bytes_of_string appName) 1) as H1.
  pose proof (Sum256_nth (bytes_of_string appName) 2) as H2.
  unfold is_uint8 in *.
  set (d0 := nth 0 (sha256.Sum256 (bytes_of_string appName)) 0) in *.
  set (d1 := nth 1 (sha256.Sum256 (bytes_of_string appName)) 0) in *.
  set (d2 := nth 2 (sha256.Sum256 (bytes_of_string appName)) 0) in *.
  rewrite (lor_shiftl_add d0 d1 8) by lia.
  rewrite (lor_shiftl_add (d0 + d1 * 2 ^ 8) d2 16) by lia.
  rewrite (lor_shiftl_add (d0 + d1 * 2 ^ 8 + d2 * 2 ^ 16) schemaVersion 24) by lia.
  lia.
Qed.

Arguments getUserVersion : simpl never.

Lemma getUserVersion_range (appName : string) (schemaVersion : Z) :
  is_uint8 schemaVersion -> is_uint32 (getUserVersion appName schemaVersion).
Proof.
  intros Hv. rewrite getUserVersion_eq.
  pose proof (appId_range appName). unfold is_uint8, is_uint32 in *. lia.
Qed.

Lemma getUserVersion_low (appName : string) (schemaVersion : Z) :
  Z.land (getUserVersion appName schemaVersion) 0x00ffffff = appId appName.
Proof.
  rewrite getUserVersion_eq. change 0x00ffffff with (Z.ones 24).
  rewrite Z.land_ones by lia.
  rewrite (Z.mul_comm (2 ^ 24)), Z.mod_add by lia.
  apply Z.mod_small. apply appId_range.
Qed.

Lemma getUserVersion_high (appName : string) (schemaVersion : Z) :
  Z.shiftr (getUserVersion appName schemaVersion) 24 = schemaVersion.
Proof.
  rewrite getUserVersion_eq, Z.shiftr_div_pow2 by lia.
  rewrite (Z.mul_comm (2 ^ 24)), Z.div_add by lia.
  rewrite Z.div_small by apply appId_range. lia.
Qed.

Lemma byte_of_sum (a b n : Z) :
  0 <= n -> 0 <= a < 2 ^ n -> Z.shiftr (a + 2 ^ n * b) n = b.
Proof.
  intros Hn Ha. rewrite Z.shiftr_div_pow2 by lia.
  rewrite (Z.mul_comm (2 ^ n)), Z.div_add by lia.
  rewrite Z.div_small by lia. lia.
Qed.

(** C2.  For every application name and every schema version in 0..255,
    [getUserVersion] is the little-endian 32-bit integer of the four bytes
    digest[0], digest[1], digest[2], schemaVersion, where digest is the
    32-byte SHA-256 of the name: byte k of the result is the k-th of these
    four, so bits 0-23 are the three digest bytes and bits 24-31 are the
    schema version.  The function is total and has no error result. *)
Theorem getUserVersion_little_endian (appName : string) (schemaVersion : Z) :
  is_uint8 schemaVersion ->
  let sum := sha256.Sum256 (bytes_of_string appName) in
  let s := [nth 0 sum 0; nth 1 sum 0; nth 2 sum 0; schemaVersion] in
  let uv := getUserVersion appName schemaVersion in
  length sum = 32%nat /\
  is_uint32 uv /\
  uv = nth 0 s 0 + 2 ^ 8 * nth 1 s 0 + 2 ^ 16 * nth 2 s 0 + 2 ^ 24 * nth 3 s 0 /\
  (forall k : nat, (k < 4)%nat ->
     Z.land (Z.shiftr uv (8 * Z.of_nat k)) 0xff = nth k s 0) /\
  Z.land uv 0x00ffffff = nth 0 sum 0 + 2 ^ 8 * nth 1 sum 0 + 2 ^ 16 * nth 2 sum 0 /\
  Z.shiftr uv 24 = schemaVersion.
Proof.
  intros Hv sum s uv.
  pose proof (Sum256_nth (bytes_of_string appName) 0) as H0.
  pose proof (Sum256_nth (bytes_of_string appName) 1) as H1.
  pose proof (Sum256_nth (bytes_of_string appName) 2) as H2.
  fold sum in H0, H1, H2.
  assert (Huv : uv = nth 0 sum 0 + 2 ^ 8 * nth 1 sum 0 + 2 ^ 16 * nth 2 sum 0
                     + 2 ^ 24 * schemaVersion).
  { subst uv. rewrite getUserVersion_eq. reflexivity. }
  split; [apply Sum256_length |].
  split; [apply getUserVersion_range; exact Hv |].
  split; [exact Huv |].
  split; [| split; [apply getUserVersion_low | apply getUserVersion_high]].
  unfold is_uint8 in *.
  assert (Hbyte : forall x, 0 <= x < 2 ^ 8 -> Z.land x 0xff = x).
  { intros x Hx. change 0xff with (Z.ones 8).
    rewrite Z.land_ones by lia. apply Z.mod_small. exact Hx. }
  assert (Hlow : forall a b, 0 <= a < 2 ^ 8 -> Z.land (a + 2 ^ 8 * b) 0xff = a).
  { intros a b Ha. change 0xff with (Z.ones 8).
    rewrite Z.land_ones by lia.
    rewrite (Z.mul_comm (2 ^ 8)), Z.mod_add by lia.
    apply Z.mod_small. exact Ha. }
  intros k Hk.
  destruct k as [| [| [| [| k]]]]; [| | | | lia]; rewrite Huv; subst s; cbn [nth].
  - change (8 * Z.of_nat 0) with 0. rewrite Z.shiftr_0_r.
    replace (nth 0 sum 0 + 2 ^ 8 * nth 1 sum 0 + 2 ^ 16 * nth 2 sum 0
             + 2 ^ 24 * schemaVersion)
      with (nth 0 sum 0 + 2 ^ 8 * (nth 1 sum 0 + 2 ^ 8 * nth 2 sum 0
             + 2 ^ 16 * schemaVersion)) by lia.
    apply Hlow. exact H0.
  - change (8 * Z.of_nat 1) with 8.
    replace (nth 0 sum 0 + 2 ^ 8 * nth 1 sum 0 + 2 ^ 16 * nth 2 sum 0
             + 2 ^ 24 * schemaVersion)
      with (nth 0 sum 0 + 2 ^ 8 * (nth 1 sum 0 + 2 ^ 8 * (nth 2 sum 0
             + 2 ^ 8 * schemaVersion))) by lia.
    rewrite byte_of_sum by lia. apply Hlow. exact H1.
  - change (8 * Z.of_nat 2) with 16.
    replace (nth 0 sum 0 + 2 ^ 8 * nth 1 sum 0 + 2 ^ 16 * nth 2 sum 0
             + 2 ^ 24 * schemaVersion)
      with ((nth 0 sum 0 + 2 ^ 8 * nth 1 sum 0) + 2 ^ 16 * (nth 2 sum 0
             + 2 ^ 8 * schemaVersion)) by lia.
    rewrite byte_of_sum by lia. apply Hlow. exact H2.
  - change (8 * Z.of_nat 3) with 24.
    replace (nth 0 sum 0 + 2 ^ 8 * nth 1 sum 0 + 2 ^ 16 * nth 2 sum 0
             + 2 ^ 24 * schemaVersion)
      with ((nth 0 sum 0 + 2 ^ 8 * nth 1 sum 0 + 2 ^ 16 * nth 2 sum 0)
             + 2 ^ 24 * schemaVersion) by lia.
    rewrite byte_of_sum by lia. apply Hbyte. exact Hv.
Qed.

(** The digest of "app" starts with a1 72 ce. *)
Lemma getUserVersion_little_endian_witness :
  is_uint8 3 /\
  Z.land (getUserVersion "app" 3) 0x00ffffff = 0xa1 + 2 ^ 8 * 0x72 + 2 ^ 16 * 0xce /\
  Z.shiftr (getUserVersion "app" 3) 24 = 3.
Proof.
  assert (H : is_uint8 3) by (unfold is_uint8; lia).
  split; [exact H |].
  destruct (getUserVersion_little_endian "app" 3 H) as (_ & _ & _ & _ & Hlow & Hhigh).
  split; [rewrite Hlow; vm_compute; reflexivity | exact Hhigh].
Defined.

(** ** Runs *)

Section Runs.
Context {S : Type} (h : handler S).

Lemma run_bind {A B} (p : go A) (f : A -> go B) (s : S) :
  run h (p ≫= f) s =
  let '(a, s1, t1) := run h p s in
  let '(b, s2, t2) := run h (f a) s1 in
  (b, s2, t1 ++ t2).
Proof.
  revert s. induction p as [a | c k IH]; intros s.
  - cbn. destruct (run h (f a) s) as [[b s2] t2]. reflexivity.
  - cbn. destruct (h c s) as [x s1].
    rewrite (IH x s1).
    destruct (run h (k x) s1) as [[a s2] t1].
    destruct (run h (f a) s2) as [[b s3] t2]. reflexivity.
Qed.

Lemma run_eta {A} (p : go A) (s : S) :
  run h p s = (result_of h p s, state_of h p s, trace_of h p s).
Proof.
  unfold result_of, state_of, trace_of.
  destruct (run h p s) as [[a s'] t]. reflexivity.
Qed.

Lemma result_of_bind {A B} (p : go A) (f : A -> go B) (s : S) :
  result_of h (p ≫= f) s = result_of h (f (result_of h p s)) (state_of h p s).
Proof.
  unfold result_of, state_of. rewrite run_bind.
  destruct (run h p s) as [[a s1] t1]. cbn.
  destruct (run h (f a) s1) as [[b s2] t2]. reflexivity.
Qed.

Lemma state_of_bind {A B} (p : go A) (f : A -> go B) (s : S) :
  state_of h (p ≫= f) s = state_of h (f (result_of h p s)) (state_of h p s).
Proof.
  unfold result_of, state_of. rewrite run_bind.
  destruct (run h p s) as [[a s1] t1]. cbn.
  destruct (run h (f a) s1) as [[b s2] t2]. reflexivity.
Qed.

Lemma trace_of_bind {A B} (p : go A) (f : A -> go B) (s : S) :
  trace_of h (p ≫= f) s =
  trace_of h p s ++ trace_of h (f (result_of h p s)) (state_of h p s).
Proof.
  unfold result_of, state_of, trace_of. rewrite run_bind.
  destruct (run h p s) as [[a s1] t1]. cbn.
  destruct (run h (f a) s1) as [[b s2] t2]. reflexivity.
Qed.

Lemma result_of_do (c : call) (s : S) : result_of h (do c) s = (h c s).1.
Proof. unfold result_of. cbn. destruct (h c s). reflexivity. Qed.

Lemma state_of_do (c : call) (s : S) : state_of h (do c) s = (h c s).2.
Proof. unfold state_of. cbn. destruct (h c s). reflexivity. Qed.

Lemma trace_of_do (c : call) (s : S) : trace_of h (do c) s = [Ev c (h c s).1].
Proof. unfold trace_of. cbn. destruct (h c s). reflexivity. Qed.

Lemma result_of_ret {A} (a : A) (s : S) : result_of h (mret a) s = a.
Proof. reflexivity. Qed.

Lemma state_of_ret {A} (a : A) (s : S) : state_of h (mret a : go A) s = s.
Proof. reflexivity. Qed.

Lemma trace_of_ret {A} (a : A) (s : S) : trace_of h (mret a : go A) s = [].
Proof. reflexivity. Qed.

End Runs.

(** ** Opening *)

Lemma IsDir_not_regular (m : FileMode) : IsDir m = true -> IsRegular m = false.
Proof.
  unfold IsDir, IsRegular. intros H.
  apply negb_true_iff, Z.eqb_neq in H. apply Z.eqb_neq. intros H0.
  apply H.
  replace ModeDir with (Z.land ModeType ModeDir) by reflexivity.
  rewrite Z.land_assoc, H0. apply Z.land_0_l.
Qed.

Section Opening.
Context {S : Type} (h : handler S).

Lemma openAppDBNoValidate_run (dbPath : string) (s : S) :
  run h (openAppDBNoValidate dbPath) s =
  match h (os_Stat dbPath) s with
  | (Err err, s1) => (None, Some err, s1, [Ev (os_Stat dbPath) (Err err)])
  | (Ok filestat, s1) =>
      if IsRegular (Mode filestat) then
        match h (sql_Open "sqlite3" dbPath) s1 with
        | (Err err, s2) =>
            (None, Some err, s2,
             [Ev (os_Stat dbPath) (Ok filestat);
              Ev (sql_Open "sqlite3" dbPath) (Err err)])
        | (Ok db, s2) =>
            (Some db, None, s2,
             [Ev (os_Stat dbPath) (Ok filestat);
              Ev (sql_Open "sqlite3" dbPath) (Ok db)])
        end
      else (None, Some ErrInvalid, s1, [Ev (os_Stat dbPath) (Ok filestat)])
  end.
Proof.
  unfold openAppDBNoValidate. cbn.
  destruct (h (os_Stat dbPath) s) as [[filestat | err] s1]; cbn; [| reflexivity].
  destruct (IsRegular (Mode filestat)); cbn; [| reflexivity].
  destruct (h (sql_Open "sqlite3" dbPath) s1) as [[db | err] s2]; reflexivity.
Qed.

(** [openAppDBNoValidate] returns a handle or an error, never both and
    never neither. *)
Lemma openAppDBNoValidate_shape (dbPath : string) (s : S) :
  (exists db, result_of h (openAppDBNoValidate dbPath) s = (Some db, None)) \/
  (exists err, result_of h (openAppDBNoValidate dbPath) s = (None, Some err)).
Proof.
  unfold result_of. rewrite openAppDBNoValidate_run.
  destruct (h (os_Stat dbPath) s) as [[filestat | err] s1]; [| right; eauto].
  destruct (IsRegular (Mode filestat)); [| right; eauto].
  destruct (h (sql_Open "sqlite3" dbPath) s1) as [[db | err] s2];
    [left | right]; eauto.
Qed.

Lemma OpenAppDB_run (dbPath appName : string) (schemaVersion : Z) (s : S) :
  run h (OpenAppDB dbPath appName schemaVersion) s =
  let '(r, s1, t1) := run h (openAppDBNoValidate dbPath) s in
  match r with
  | (_, Some err) => (None, Some err, s1, t1)
  | (None, None) => (None, None, s1, t1)
  | (Some db, None) =>
      let '(err, s2, t2) := run h (validateDB db appName schemaVersion) s1 in
      match err with
      | Some err =>
          let '(x, s3) := h (DB_Close db) s2 in
          (None, Some err, s3, t1 ++ t2 ++ [Ev (DB_Close db) x])
      | None => (Some db, None, s2, t1 ++ t2)
      end
  end.
Proof.
  unfold OpenAppDB. rewrite run_bind.
  destruct (run h (openAppDBNoValidate dbPath) s) as [[[db err] s1] t1].
  destruct db as [db |], err as [err |];
    try (cbn; rewrite app_nil_r; reflexivity).
  rewrite run_bind.
  destruct (run h (validateDB db appName schemaVersion) s1) as [[[err |] s2] t2].
  - cbn. destruct (h (DB_Close db) s2) as [x s3]. reflexivity.
  - cbn. rewrite app_nil_r. reflexivity.
Qed.

(** C8.  When the path exists but is not a regular file (a directory, for
    one), [openAppDBNoValidate], and so [OpenAppDB], returns
    [os.ErrInvalid] and no handle, and the engine is not called; when
    [os.Stat] fails (a missing path), they return the error of [os.Stat]
    and no handle. *)
Theorem open_not_regular_file (dbPath appName : string) (schemaVersion : Z) (s : S) :
  (forall filestat : FileInfo,
      (h (os_Stat dbPath) s).1 = Ok filestat ->
      IsRegular (Mode filestat) = false ->
      result_of h (openAppDBNoValidate dbPath) s = (None, Some ErrInvalid) /\
      trace_of h (openAppDBNoValidate dbPath) s = [Ev (os_Stat dbPath) (Ok filestat)] /\
      result_of h (OpenAppDB dbPath appName schemaVersion) s = (None, Some ErrInvalid) /\
      trace_of h (OpenAppDB dbPath appName schemaVersion) s
        = [Ev (os_Stat dbPath) (Ok filestat)]) /\
  (forall err : error,
      (h (os_Stat dbPath) s).1 = Err err ->
      result_of h (openAppDBNoValidate dbPath) s = (None, Some err) /\
      trace_of h (openAppDBNoValidate dbPath) s = [Ev (os_Stat dbPath) (Err err)] /\
      result_of h (OpenAppDB dbPath appName schemaVersion) s = (None, Some err) /\
      trace_of h (OpenAppDB dbPath appName schemaVersion) s
        = [Ev (os_Stat dbPath) (Err err)]) /\
  (forall filestat : FileInfo,
      IsDir (Mode filestat) = true -> IsRegular (Mode filestat) = false).
Proof.
  split; [| split].
  - intros filestat Hstat Hreg.
    unfold result_of, trace_of.
    rewrite OpenAppDB_run, openAppDBNoValidate_run.
    destruct (h (os_Stat dbPath) s) as [r s1]. cbn in Hstat. subst r.
    rewrite Hreg. cbn. auto.
  - intros err Hstat.
    unfold result_of, trace_of.
    rewrite OpenAppDB_run, openAppDBNoValidate_run.
    destruct (h (os_Stat dbPath) s) as [r s1]. cbn in Hstat. subst r.
    cbn. auto.
  - intros filestat. apply IsDir_not_regular.
Qed.

(** C4.  When [openAppDBNoValidate] has delivered a handle and [validateDB]
    on it returns an error, [OpenAppDB] returns that error and no handle,
    and the last thing it does is to close the handle: its calls are those
    of the opening, those of the validation, then [db.Close()].  Whatever
    the outcome, [OpenAppDB] never returns a handle together with an
    error. *)
Theorem OpenAppDB_closes_on_validation_error
    (dbPath appName : string) (schemaVersion : Z) (s : S) (db : DB) (err : error) :
  let s1 := state_of h (openAppDBNoValidate dbPath) s in
  let s2 := state_of h (validateDB db appName schemaVersion) s1 in
  result_of h (openAppDBNoValidate dbPath) s = (Some db, None) ->
  result_of h (validateDB db appName schemaVersion) s1 = Some err ->
  result_of h (OpenAppDB dbPath appName schemaVersion) s = (None, Some err) /\
  trace_of h (OpenAppDB dbPath appName schemaVersion) s
    = trace_of h (openAppDBNoValidate dbPath) s
      ++ trace_of h (validateDB db appName schemaVersion) s1
      ++ [Ev (DB_Close db) (h (DB_Close db) s2).1] /\
  state_of h (OpenAppDB dbPath appName schemaVersion) s = (h (DB_Close db) s2).2 /\
  (forall s' db' err',
      result_of h (OpenAppDB dbPath appName schemaVersion) s' <> (Some db', Some err')).
Proof.
  intros s1 s2 Hopen Hval.
  assert (Hnever : forall s' db' err',
    result_of h (OpenAppDB dbPath appName schemaVersion) s' <> (Some db', Some err')).
  { intros s' db' err'. unfold result_of. rewrite OpenAppDB_run.
    destruct (run h (openAppDBNoValidate dbPath) s') as [[[[d |] [e |]] s1'] t1];
      cbn [fst snd]; try congruence.
    destruct (run h (validateDB d appName schemaVersion) s1') as [[[e |] s2'] t2];
      cbn [fst snd]; [| congruence].
    destruct (h (DB_Close d) s2') as [x s3]. cbn. congruence. }
  subst s1 s2. unfold result_of, state_of, trace_of in *.
  rewrite OpenAppDB_run.
  destruct (run h (openAppDBNoValidate dbPath) s) as [[r s1] t1].
  cbn [fst snd] in Hopen, Hval |- *. subst r.
  destruct (run h (validateDB db appName schemaVersion) s1) as [[e s2] t2].
  cbn [fst snd] in Hval |- *. subst e.
  destruct (h (DB_Close db) s2) as [x s3]. cbn. auto.
Qed.

End Opening.

(** ** Statements *)

(** The text that [%d] gives for a value that is not negative is a decimal
    numeral with this value. *)
Lemma fmt_d_decimal (n : Z) :
  0 <= n -> exists d, fmt_d n = NilEmpty.string_of_uint d /\ Z.of_N (N.of_uint d) = n.
Proof.
  intros Hn. exists (N.to_uint (Z.to_N n)). split; [reflexivity |].
  rewrite DecimalN.Unsigned.of_to, Z2N.id by exact Hn. reflexivity.
Qed.

Section Statements.
Context {S : Type} (h : handler S).

Lemma ExecSqlStatement_run (db : DB) (sql : string) (s : S) :
  run h (ExecSqlStatement db sql) s =
  match h (DB_Prepare db sql) s with
  | (Err err, s1) => (Some err, s1, [Ev (DB_Prepare db sql) (Err err)])
  | (Ok stmt, s1) =>
      let '(x, s2) := h (Stmt_Exec stmt []) s1 in
      let '(y, s3) := h (Stmt_Close stmt) s2 in
      (x, s3, [Ev (DB_Prepare db sql) (Ok stmt);
               Ev (Stmt_Exec stmt []) x; Ev (Stmt_Close stmt) y])
  end.
Proof.
  unfold ExecSqlStatement, defer. cbn.
  destruct (h (DB_Prepare db sql) s) as [[stmt | err] s1]; cbn; [| reflexivity].
  destruct (h (Stmt_Exec stmt []) s1) as [[err |] s2]; cbn;
    destruct (h (Stmt_Close stmt) s2) as [y s3]; reflexivity.
Qed.

Lemma ExecSqlStatement_events (db : DB) (sql : string) (s : S) :
  stmt_events db sql (result_of h (ExecSqlStatement db sql) s)
                     (trace_of h (ExecSqlStatement db sql) s).
Proof.
  unfold result_of, trace_of. rewrite ExecSqlStatement_run.
  destruct (h (DB_Prepare db sql) s) as [[stmt | err] s1]; [| constructor].
  destruct (h (Stmt_Exec stmt []) s1) as [x s2].
  destruct (h (Stmt_Close stmt) s2) as [y s3]. constructor.
Qed.

Lemma initSchema_loop_events (db : DB) (qs : list string) (s : S) :
  schema_events db qs (result_of h (initSchema_loop db qs) s)
                      (trace_of h (initSchema_loop db qs) s).
Proof.
  revert s. induction qs as [| q qs IH]; intros s.
  - constructor.
  - cbn [initSchema_loop]. rewrite result_of_bind, trace_of_bind.
    pose proof (ExecSqlStatement_events db q s) as Hq.
    destruct (result_of h (ExecSqlStatement db q) s) as [err |].
    + rewrite trace_of_ret, app_nil_r, result_of_ret.
      apply schema_stop. exact Hq.
    + apply schema_next; [exact Hq | apply IH].
Qed.

Lemma stmt_events_prepared (db : DB) (q : string) (r : option error) (t : list event) :
  stmt_events db q r t -> prepared_texts t = [q].
Proof. intros H. destruct H; reflexivity. Qed.

Lemma prepared_texts_app (t1 t2 : list event) :
  prepared_texts (t1 ++ t2) = prepared_texts t1 ++ prepared_texts t2.
Proof. unfold prepared_texts. apply flat_map_app. Qed.

Lemma schema_events_prepared (db : DB) (qs : list string) (r : option error)
    (t : list event) :
  schema_events db qs r t ->
  prepared_texts t `prefix_of` qs /\ (r = None -> prepared_texts t = qs).
Proof.
  induction 1 as [| q qs r t1 t2 Hq _ [IHp IHe] | q qs err t Hq].
  - split; [apply prefix_nil | reflexivity].
  - rewrite prepared_texts_app, (stmt_events_prepared _ _ _ _ Hq). cbn. split.
    + apply prefix_cons. exact IHp.
    + intros Hr. rewrite (IHe Hr). reflexivity.
  - rewrite (stmt_events_prepared _ _ _ _ Hq). split; [| discriminate].
    apply prefix_cons, prefix_nil.
Qed.

(** C5.  [initSchema] runs [ExecSqlStatement] over the list made of the
    text [PRAGMA user_version = n ;], where n is the fingerprint in decimal
    digits, the text [PRAGMA foreign_keys = ON;], and the caller's
    statements, in this order ([schema_events]): each statement is
    prepared, executed and closed before the next; at the first one that
    fails the run ends with a [SchemaError] holding that statement's text
    and the engine's error; nothing is called for the statements after it
    and nothing else is called at all, so nothing already applied is
    undone.  The texts prepared are a prefix of the list, and the whole
    list when no error is returned.  For a schema version in 0..255 the
    digits in the first text are a decimal numeral whose value is the
    fingerprint. *)
Theorem initSchema_in_order (db : DB) (appName : string) (schemaVersion : Z)
    (schema : list string) (s : S) :
  let uv := getUserVersion appName schemaVersion in
  let stmts := ("PRAGMA user_version = " ++ fmt_d uv ++ " ;")%string
               :: "PRAGMA foreign_keys = ON;" :: schema in
  let r := result_of h (initSchema db appName schemaVersion schema) s in
  let t := trace_of h (initSchema db appName schemaVersion schema) s in
  schema_events db stmts r t /\
  prepared_texts t `prefix_of` stmts /\
  (r = None -> prepared_texts t = stmts) /\
  (is_uint8 schemaVersion ->
     exists d, fmt_d uv = NilEmpty.string_of_uint d /\ Z.of_N (N.of_uint d) = uv).
Proof.
  intros uv stmts r t.
  assert (H : schema_events db stmts r t) by apply initSchema_loop_events.
  split; [exact H |].
  destruct (schema_events_prepared db stmts r t H) as [Hp He].
  split; [exact Hp |]. split; [exact He |].
  intros Hsv. apply fmt_d_decimal.
  pose proof (getUserVersion_range appName schemaVersion Hsv) as Hr.
  unfold is_uint32 in Hr. subst uv. lia.
Qed.

Lemma ExecBulkSql_loop_events (stmt : Stmt) (values : list string) (s : S) :
  bulk_events stmt values (result_of h (ExecBulkSql_loop stmt values) s)
                          (trace_of h (ExecBulkSql_loop stmt values) s).
Proof.
  revert s. induction values as [| v vs IH]; intros s.
  - constructor.
  - cbn [ExecBulkSql_loop].
    rewrite result_of_bind, trace_of_bind.
    rewrite (result_of_do h (Stmt_Exec stmt [v])), (trace_of_do h (Stmt_Exec stmt [v])),
      (state_of_do h (Stmt_Exec stmt [v])).
    destruct (h (Stmt_Exec stmt [v]) s) as [[err |] s1] eqn:E; cbn [fst snd].
    + rewrite trace_of_ret, result_of_ret. apply bulk_stop.
    + apply bulk_next. apply IH.
Qed.

Lemma bulk_events_count (stmt : Stmt) (values : list string) (r : option error)
    (t : list event) :
  bulk_events stmt values r t ->
  (exec_count t <= length values)%nat /\
  (r = None -> exec_count t = length values).
Proof.
  induction 1 as [| v vs r t _ [IHle IHeq] | v vs err]; cbn.
  - split; [lia | reflexivity].
  - unfold exec_count in *. cbn. split; [lia |].
    intros Hr. rewrite (IHeq Hr). reflexivity.
  - split; [lia | discriminate].
Qed.

(** C9.  [ExecBulkSql] calls [Prepare] once.  When it fails, its error is
    returned and nothing else is called.  When it delivers a statement,
    the calls that follow are one [Exec] per value, in the order of the
    values, up to the first [Exec] that fails ([bulk_events]), and then,
    on every path, one [Close] of the statement; the value returned is the
    error of that [Exec], or none.  With no values the statement is
    prepared and closed, never executed, and no error is returned. *)
Theorem ExecBulkSql_events (db : DB) (sql : string) (values : list string) (s : S) :
  let r := result_of h (ExecBulkSql db sql values) s in
  let t := trace_of h (ExecBulkSql db sql values) s in
  ((exists err, (h (DB_Prepare db sql) s).1 = Err err /\
                r = Some err /\ t = [Ev (DB_Prepare db sql) (Err err)]) \/
   (exists stmt body y,
       (h (DB_Prepare db sql) s).1 = Ok stmt /\
       t = Ev (DB_Prepare db sql) (Ok stmt) :: body ++ [Ev (Stmt_Close stmt) y] /\
       bulk_events stmt values r body /\
       (exec_count body <= length values)%nat /\
       (r = None -> exec_count body = length values) /\
       (values = [] -> r = None /\ body = []))) /\
  prepared_texts t = [sql].
Proof.
  intros r t. subst r t. unfold ExecBulkSql, defer.
  rewrite result_of_bind, trace_of_bind.
  rewrite (result_of_do h (DB_Prepare db sql)), (trace_of_do h (DB_Prepare db sql)),
    (state_of_do h (DB_Prepare db sql)).
  destruct (h (DB_Prepare db sql) s) as [[stmt | err] s1]; cbn [fst snd].
  - rewrite !result_of_bind, !trace_of_bind, !result_of_ret, !trace_of_ret,
      (trace_of_do h (Stmt_Close stmt)), app_nil_r.
    pose proof (ExecBulkSql_loop_events stmt values s1) as Hb.
    set (r := result_of h (ExecBulkSql_loop stmt values) s1) in *.
    set (body := trace_of h (ExecBulkSql_loop stmt values) s1) in *.
    pose proof (bulk_events_count _ _ _ _ Hb) as [Hle Heq].
    split.
    + right. eexists stmt, body, _.
      split; [reflexivity |]. split; [reflexivity |].
      split; [exact Hb |]. split; [exact Hle |]. split; [exact Heq |].
      intros ->. subst r body. split; reflexivity.
    + assert (Hnone : prepared_texts body = []).
      { clear Hle Heq. induction Hb; [reflexivity | exact IHHb | reflexivity]. }
      rewrite !prepared_texts_app, Hnone. reflexivity.
  - rewrite result_of_ret, trace_of_ret. split; [| reflexivity].
    left. exists err. auto.
Qed.

End Statements.

(** ** Validation *)

Lemma uint8_small (x : Z) : is_uint8 x -> uint8 x = x.
Proof. intros H. apply Z.mod_small. exact H. Qed.

Lemma shiftr_24_uint8 (v : Z) : is_uint32 v -> is_uint8 (Z.shiftr v 24).
Proof.
  unfold is_uint32, is_uint8. intros H.
  rewrite Z.shiftr_div_pow2 by lia. split.
  - apply Z.div_pos; lia.
  - apply Z.div_lt_upper_bound; lia.
Qed.

(** A 32-bit value is its low 24 bits and its high byte. *)
Lemma uint32_split (v : Z) :
  v = Z.land v 0x00ffffff + 2 ^ 24 * Z.shiftr v 24.
Proof.
  change 0x00ffffff with (Z.ones 24).
  rewrite Z.land_ones, Z.shiftr_div_pow2 by lia.
  pose proof (Z.div_mod v (2 ^ 24)). lia.
Qed.

Lemma uint32_fields_inj (v u : Z) :
  is_uint32 v -> is_uint32 u ->
  Z.land v 0x00ffffff = Z.land u 0x00ffffff ->
  uint8 (Z.shiftr v 24) = uint8 (Z.shiftr u 24) ->
  v = u.
Proof.
  intros Hv Hu Hlow Hhigh.
  rewrite !uint8_small in Hhigh by (apply shiftr_24_uint8; assumption).
  rewrite (uint32_split v), (uint32_split u), Hlow, Hhigh. reflexivity.
Qed.

Section Validation.
Context {S : Type} (h : handler S).

Lemma validateDB_run (db : DB) (appName : string) (schemaVersion : Z) (s : S) :
  run h (validateDB db appName schemaVersion) s =
  let '(r, s1) := h (DB_QueryRow db "PRAGMA user_version") s in
  let '(x, s2) := h (Row_Scan r) s1 in
  let uv := getUserVersion appName schemaVersion in
  (match x with
   | Err err => Some err
   | Ok user_version =>
       if negb (uv =? user_version) then
         if negb (Z.land user_version 0x00ffffff =? Z.land uv 0x00ffffff) then
           Some (AppIdError (Z.land user_version 0x00ffffff) (Z.land uv 0x00ffffff))
         else if negb (uint8 (Z.shiftr user_version 24) =? uint8 (Z.shiftr uv 24)) then
           Some (SchemaVersionError (uint8 (Z.shiftr user_version 24))
                                    (uint8 (Z.shiftr uv 24)))
         else None
       else None
   end, s2,
   [Ev (DB_QueryRow db "PRAGMA user_version") r; Ev (Row_Scan r) x]).
Proof.
  unfold validateDB. cbn.
  destruct (h (DB_QueryRow db "PRAGMA user_version") s) as [r s1].
  destruct (h (Row_Scan r) s1) as [[user_version | err] s2]; cbn; [| reflexivity].
  repeat match goal with |- context [if ?b then _ else _] => destruct b; cbn end;
    reflexivity.
Qed.

Lemma validateDB_result (db : DB) (appName : string) (schemaVersion : Z) (s : S) :
  result_of h (validateDB db appName schemaVersion) s =
  let uv := getUserVersion appName schemaVersion in
  match scanned h db s with
  | Err err => Some err
  | Ok user_version =>
      if negb (uv =? user_version) then
        if negb (Z.land user_version 0x00ffffff =? Z.land uv 0x00ffffff) then
          Some (AppIdError (Z.land user_version 0x00ffffff) (Z.land uv 0x00ffffff))
        else if negb (uint8 (Z.shiftr user_version 24) =? uint8 (Z.shiftr uv 24)) then
          Some (SchemaVersionError (uint8 (Z.shiftr user_version 24))
                                   (uint8 (Z.shiftr uv 24)))
        else None
      else None
  end.
Proof.
  unfold result_of, scanned. rewrite validateDB_run.
  destruct (h (DB_QueryRow db "PRAGMA user_version") s) as [r s1].
  destruct (h (Row_Scan r) s1) as [x s2]. reflexivity.
Qed.

(** C3.  When the register value handed to [validateDB] differs from the
    expected fingerprint: if the low 24 bits of the two differ, the result
    is an [AppIdError] with the low 24 bits of the stored and of the
    expected value; only otherwise it is a [SchemaVersionError] with the
    high byte of the stored value and the expected schema version, and
    these two differ.  One error is returned, identity first.  In
    particular a register written for the same application with another
    schema version [stored] gives [SchemaVersionError stored
    schemaVersion]. *)
Theorem validateDB_mismatch (db : DB) (appName : string) (schemaVersion : Z)
    (s : S) (user_version : Z) :
  is_uint8 schemaVersion ->
  is_uint32 user_version ->
  scanned h db s = Ok user_version ->
  user_version <> getUserVersion appName schemaVersion ->
  let uv := getUserVersion appName schemaVersion in
  let r := result_of h (validateDB db appName schemaVersion) s in
  (Z.land user_version 0x00ffffff <> Z.land uv 0x00ffffff ->
     r = Some (AppIdError (Z.land user_version 0x00ffffff) (Z.land uv 0x00ffffff))) /\
  (Z.land user_version 0x00ffffff = Z.land uv 0x00ffffff ->
     r = Some (SchemaVersionError (Z.shiftr user_version 24) schemaVersion) /\
     is_uint8 (Z.shiftr user_version 24) /\
     Z.shiftr user_version 24 <> schemaVersion) /\
  (forall stored : Z,
     is_uint8 stored -> user_version = getUserVersion appName stored ->
     r = Some (SchemaVersionError stored schemaVersion)).
Proof.
  intros Hsv Hv Hscan Hne uv r. change (user_version <> uv) in Hne.
  assert (Huv : is_uint32 uv) by (apply getUserVersion_range; exact Hsv).
  assert (Hr : r =
    if negb (Z.land user_version 0x00ffffff =? Z.land uv 0x00ffffff) then
      Some (AppIdError (Z.land user_version 0x00ffffff) (Z.land uv 0x00ffffff))
    else if negb (uint8 (Z.shiftr user_version 24) =? uint8 (Z.shiftr uv 24)) then
      Some (SchemaVersionError (uint8 (Z.shiftr user_version 24))
                               (uint8 (Z.shiftr uv 24)))
    else None).
  { subst r. rewrite validateDB_result, Hscan. cbv zeta. fold uv.
    assert (Hneq : (uv =? user_version) = false) by (apply Z.eqb_neq; congruence).
    rewrite Hneq. reflexivity. }
  assert (Hhigh : uint8 (Z.shiftr uv 24) = schemaVersion).
  { subst uv. rewrite getUserVersion_high. apply uint8_small. exact Hsv. }
  assert (Hsplit : Z.land user_version 0x00ffffff = Z.land uv 0x00ffffff ->
    r = Some (SchemaVersionError (Z.shiftr user_version 24) schemaVersion) /\
    is_uint8 (Z.shiftr user_version 24) /\
    Z.shiftr user_version 24 <> schemaVersion).
  { intros Hlow.
    pose proof (shiftr_24_uint8 user_version Hv) as Hb.
    assert (Hd : Z.shiftr user_version 24 <> schemaVersion).
    { intros Heq. apply Hne. apply uint32_fields_inj; try assumption.
      rewrite Hhigh, uint8_small by exact Hb. exact Heq. }
    rewrite Hr, Hhigh, uint8_small by exact Hb.
    apply Z.eqb_eq in Hlow. rewrite Hlow. cbn [negb].
    apply Z.eqb_neq in Hd. rewrite Hd. cbn [negb]. apply Z.eqb_neq in Hd. auto. }
  split; [| split].
  - intros Hlow. rewrite Hr. apply Z.eqb_neq in Hlow. rewrite Hlow. reflexivity.
  - exact Hsplit.
  - intros stored Hst Hstored.
    assert (Hlow : Z.land user_version 0x00ffffff = Z.land uv 0x00ffffff).
    { subst uv. rewrite Hstored, !getUserVersion_low. reflexivity. }
    destruct (Hsplit Hlow) as (Hres & _ & _).
    rewrite Hres, Hstored, getUserVersion_high. reflexivity.
Qed.

(** C10.  Once the register value has been read, [validateDB] returns no
    error exactly when that value equals the fingerprint.  When the two
    differ, their low 24 bits differ or else their high bytes differ, so
    the result is an [AppIdError] or a [SchemaVersionError]: the mismatch
    branch never ends without an error. *)
Theorem validateDB_ok_iff_equal (db : DB) (appName : string) (schemaVersion : Z)
    (s : S) (user_version : Z) :
  is_uint8 schemaVersion ->
  is_uint32 user_version ->
  scanned h db s = Ok user_version ->
  let uv := getUserVersion appName schemaVersion in
  let r := result_of h (validateDB db appName schemaVersion) s in
  (r = None <-> user_version = uv) /\
  (user_version <> uv ->
     Z.land user_version 0x00ffffff <> Z.land uv 0x00ffffff \/
     uint8 (Z.shiftr user_version 24) <> uint8 (Z.shiftr uv 24)) /\
  (user_version <> uv ->
     (exists id expected, r = Some (AppIdError id expected)) \/
     (exists version expected, r = Some (SchemaVersionError version expected))).
Proof.
  intros Hsv Hv Hscan uv r.
  assert (Huv : is_uint32 uv) by (apply getUserVersion_range; exact Hsv).
  assert (Hfields : user_version <> uv ->
     Z.land user_version 0x00ffffff <> Z.land uv 0x00ffffff \/
     uint8 (Z.shiftr user_version 24) <> uint8 (Z.shiftr uv 24)).
  { intros Hne.
    destruct (Z.eq_dec (Z.land user_version 0x00ffffff) (Z.land uv 0x00ffffff))
      as [Hlow | Hlow]; [| left; exact Hlow].
    right. intros Hhigh. apply Hne. apply uint32_fields_inj; assumption. }
  assert (Hr : r =
    if negb (uv =? user_version) then
      if negb (Z.land user_version 0x00ffffff =? Z.land uv 0x00ffffff) then
        Some (AppIdError (Z.land user_version 0x00ffffff) (Z.land uv 0x00ffffff))
      else if negb (uint8 (Z.shiftr user_version 24) =? uint8 (Z.shiftr uv 24)) then
        Some (SchemaVersionError (uint8 (Z.shiftr user_version 24))
                                 (uint8 (Z.shiftr uv 24)))
      else None
    else None).
  { subst r. rewrite validateDB_result, Hscan. reflexivity. }
  assert (Herr : user_version <> uv ->
     (exists id expected, r = Some (AppIdError id expected)) \/
     (exists version expected, r = Some (SchemaVersionError version expected))).
  { intros Hne. rewrite Hr.
    assert (Hneq : (uv =? user_version) = false) by (apply Z.eqb_neq; congruence).
    rewrite Hneq. cbn [negb].
    destruct (Hfields Hne) as [Hlow | Hhigh].
    - apply Z.eqb_neq in Hlow. rewrite Hlow. left. eauto.
    - destruct (Z.land user_version 0x00ffffff =? Z.land uv 0x00ffffff);
        cbn [negb]; [| left; eauto].
      apply Z.eqb_neq in Hhigh. rewrite Hhigh. right. eauto. }
  split; [| split; assumption].
  split.
  - intros Hnone. destruct (Z.eq_dec user_version uv) as [Heq | Hne]; [exact Heq |].
    destruct (Herr Hne) as [(i & j & He) | (i & j & He)]; congruence.
  - intros Heq. rewrite Hr.
    assert (Hb : (uv =? user_version) = true) by (apply Z.eqb_eq; congruence).
    rewrite Hb. reflexivity.
Qed.

End Validation.

(** ** The sample engine: statement texts *)

(** The sample engine reads the statement that sets the register, for every
    decimal numeral. *)
Lemma string_app_assoc (a b c : string) : ((a ++ b) ++ c = a ++ (b ++ c))%string.
Proof.
  induction a as [| x a IH]; [reflexivity |].
  change (String x a +:+ b) with (String x (a +:+ b)).
  change (String x (a +:+ b) +:+ c) with (String x ((a +:+ b) +:+ c)).
  change (String x a +:+ (b +:+ c)) with (String x (a +:+ (b +:+ c))).
  rewrite IH. reflexivity.
Qed.

Lemma tokens_from_digit (word : string) (a : ascii) (s : string) :
  Ref.is_blank a = false -> Ref.is_punct a = false -> Ref.upper a = a ->
  Ref.tokens_from word (String a s) = Ref.tokens_from (word ++ String a EmptyString) s.
Proof. intros Hb Hp Hu. cbn [Ref.tokens_from]. rewrite Hb, Hp, Hu. reflexivity. Qed.

Lemma tokens_from_numeral (d : Decimal.uint) (word rest : string) :
  Ref.tokens_from word (NilEmpty.string_of_uint d ++ rest)
  = Ref.tokens_from (word ++ NilEmpty.string_of_uint d) rest.
Proof.
  revert word. induction d as [| d' IH | d' IH | d' IH | d' IH | d' IH | d' IH | d' IH | d' IH | d' IH | d' IH];
    intros word; cbn [NilEmpty.string_of_uint].
  1: { change (EmptyString +:+ rest) with rest.
       replace (word +:+ EmptyString) with word; [reflexivity |].
       clear. induction word as [| x w IH]; [reflexivity |].
       change (String x w +:+ EmptyString) with (String x (w +:+ EmptyString)).
       rewrite <- IH. reflexivity. }
  all: match goal with
       | |- context [String ?a (NilEmpty.string_of_uint ?x) +:+ ?r] =>
           change (String a (NilEmpty.string_of_uint x) +:+ r)
             with (String a (NilEmpty.string_of_uint x +:+ r));
           rewrite (tokens_from_digit word a) by reflexivity;
           rewrite IH, string_app_assoc; reflexivity
       end.
Qed.

Lemma numeral_not_semicolon (d : Decimal.uint) :
  d <> Decimal.Nil -> String.eqb ";" (NilEmpty.string_of_uint d) = false.
Proof. destruct d; [congruence | ..]; intros _; reflexivity. Qed.

Lemma parse_int_numeral (d : Decimal.uint) :
  d <> Decimal.Nil ->
  Ref.parse_int (NilEmpty.string_of_uint d) = Some (Z.of_N (N.of_uint d)).
Proof.
  intros Hd.
  assert (Hu : Ref.parse_uint (NilEmpty.string_of_uint d) = Some (Z.of_N (N.of_uint d))).
  { unfold Ref.parse_uint. rewrite NilEmpty.usu. destruct d; congruence. }
  destruct d; try congruence; exact Hu.
Qed.

Lemma parse_user_version_numeral (d : Decimal.uint) :
  d <> Decimal.Nil ->
  Ref.parse ("PRAGMA user_version = " ++ NilEmpty.string_of_uint d ++ " ;")
  = Ref.SetUserVersion (Z.of_N (N.of_uint d)).
Proof.
  intros Hd. set (ds := NilEmpty.string_of_uint d).
  assert (Hne : ds <> EmptyString).
  { subst ds. destruct d; try congruence; discriminate. }
  assert (Htok : Ref.tokens ("PRAGMA user_version = " ++ ds ++ " ;")
                 = ["PRAGMA"; "USER_VERSION"; "="; ds; ";"]).
  { unfold Ref.tokens.
    change (Ref.tokens_from EmptyString ("PRAGMA user_version = " +:+ ds +:+ " ;"))
      with ("PRAGMA" :: "USER_VERSION" :: "=" :: Ref.tokens_from EmptyString (ds +:+ " ;")).
    subst ds. rewrite tokens_from_numeral.
    change (EmptyString +:+ NilEmpty.string_of_uint d) with (NilEmpty.string_of_uint d).
    cbn [Ref.tokens_from Ref.is_blank existsb Ascii.eqb Bool.eqb orb].
    unfold Ref.flush at 1. destruct (NilEmpty.string_of_uint d); [congruence |].
    reflexivity. }
  unfold Ref.parse. rewrite Htok.
  change (Ref.without_semicolon ["PRAGMA"; "USER_VERSION"; "="; ds; ";"])
    with ["PRAGMA"; "USER_VERSION"; "="; ds].
  cbn [existsb]. subst ds. rewrite (numeral_not_semicolon d Hd).
  change (Ref.parse_pragma "USER_VERSION" ["="; NilEmpty.string_of_uint d])
    with (match Ref.parse_int (NilEmpty.string_of_uint d) with
          | Some n => Ref.SetUserVersion n
          | None => Ref.Unsupported
          end).
  rewrite (parse_int_numeral d Hd). reflexivity.
Qed.

Lemma sqlite_writes_register : Ref.writes_register Ref.sqlite.
Proof.
  intros d f m Hd. cbn [Ref.execute Ref.sqlite].
  assert (Hd' : d = Decimal.Nil \/ d <> Decimal.Nil)
    by (destruct d; [left; reflexivity | right; discriminate ..]).
  destruct Hd' as [-> | Hne]; [intros He; vm_compute in He; discriminate |].
  rewrite (parse_user_version_numeral d Hne).
  unfold Ref.stored.
  pose proof (N2Z.is_nonneg (N.of_uint d)) as Hpos.
  destruct (Z.leb_spec (- 2 ^ 31) (Z.of_N (N.of_uint d))); [| lia].
  destruct (Z.ltb_spec (Z.of_N (N.of_uint d)) (2 ^ 31)); [| lia].
  cbn [andb]. congruence.
Qed.

Lemma sqlite_keeps_register (q : string) :
  Ref.sets_user_version q = false -> Ref.keeps_register Ref.sqlite q.
Proof.
  unfold Ref.sets_user_version. intros Hq args f m. cbn [Ref.execute Ref.sqlite].
  destruct (Ref.parse q); try discriminate.
  - destruct args; congruence.
  - destruct (Nat.eqb _ _); congruence.
Qed.

Lemma sqlite_keeps_foreign_keys : Ref.keeps_register Ref.sqlite "PRAGMA foreign_keys = ON;".
Proof. apply sqlite_keeps_register. reflexivity. Qed.

(** Other spellings of the statement that sets the register, and what the
    signed register keeps of a literal. *)
Example sqlite_spellings :
  List.map Ref.parse
    ["PRAGMA user_version = 7;"; "pragma user_version=7";
     "PRAGMA main.user_version = 7 ;"; "PRAGMA user_version(7);"]
  = [Ref.SetUserVersion 7; Ref.SetUserVersion 7; Ref.SetUserVersion 7;
     Ref.SetUserVersion 7] /\
  Ref.parse "PRAGMA user_version = -5;" = Ref.SetUserVersion (-5) /\
  Ref.parse "INVALID SQL;" = Ref.Invalid /\
  Ref.stored 2147483647 = 2147483647 /\
  Ref.stored 2161013409 = 0 /\
  Ref.stored (-5) = -5.
Proof. repeat apply conj; vm_compute; reflexivity. Qed.

(** The statement that [initSchema] writes is the one that the engine is
    asked to execute by storing the value. *)
Lemma writes_register_stmt (E : Ref.engine) (n : Z) (f : Ref.dbfile) (m : Z) :
  Ref.writes_register E -> 0 <= n < 2 ^ 31 ->
  Ref.execute E (user_version_stmt n) [] f = Ok m -> m = n.
Proof.
  intros Hw Hn He.
  assert (Hv : Z.of_N (N.of_uint (N.to_uint (Z.to_N n))) = n).
  { rewrite DecimalN.Unsigned.of_to, Z2N.id by lia. reflexivity. }
  rewrite <- Hv. apply (Hw _ f m); [rewrite Hv; lia | exact He].
Qed.

(** ** The reference environment *)

(** What each step does to the version registers. *)
Lemma register_insert (w : Ref.world) (path : string) (f : Ref.dbfile) (p : string) :
  Ref.register (Ref.set_files w (<[path := Ref.Regular f]> (Ref.files w))) p =
  if decide (path = p) then Some (Ref.user_version f) else Ref.register w p.
Proof.
  unfold Ref.register, Ref.db_at. cbn [Ref.files Ref.set_files].
  destruct (decide (path = p)) as [-> | Hne].
  - rewrite lookup_insert_eq. reflexivity.
  - rewrite lookup_insert_ne by exact Hne. reflexivity.
Qed.

Lemma db_at_register (w : Ref.world) (path : string) (f : Ref.dbfile) :
  Ref.db_at w path = Some f -> Ref.register w path = Some (Ref.user_version f).
Proof. unfold Ref.register. intros ->. reflexivity. Qed.

Lemma prepare_register (E : Ref.engine) (w : Ref.world) (db : DB) (q p : string) :
  Ref.register (Ref.prepare E w db q).2 p = Ref.register w p.
Proof.
  unfold Ref.prepare.
  destruct (Ref.open_conn w db) as [c | e]; [| reflexivity].
  destruct (Ref.db_at w (Ref.conn_path c)) as [f |]; [| reflexivity].
  destruct (Ref.compile E q f); reflexivity.
Qed.

Lemma exec_register (E : Ref.engine) (w : Ref.world) (st : Stmt) (args : list string)
    (p : string) :
  (forall x, Ref.stmts w !! st = Some x -> Ref.keeps_register E (Ref.stmt_sql x)) ->
  Ref.register (Ref.exec E w st args).2 p = Ref.register w p.
Proof.
  intros Hq. unfold Ref.exec.
  destruct (Ref.stmts w !! st) as [x |]; [| reflexivity].
  specialize (Hq x eq_refl).
  destruct (negb (Ref.stmt_open x)); [reflexivity |].
  destruct (Ref.open_conn w (Ref.stmt_db x)) as [c | e]; [| reflexivity].
  destruct (Ref.db_at w (Ref.conn_path c)) as [f |] eqn:Hf; [| reflexivity].
  destruct (Ref.execute E (Ref.stmt_sql x) args f) as [n | e] eqn:He; [| reflexivity].
  apply Hq in He. subst n. cbn [snd].
  change (Ref.register (Ref.World ?fs ?cs (Ref.stmts w) (Ref.rows w) (Ref.fds w)) p)
    with (Ref.register (Ref.set_files w fs) p).
  rewrite register_insert. destruct (decide _) as [<- |]; [| reflexivity].
  cbn [Ref.user_version]. symmetry. apply db_at_register. exact Hf.
Qed.

Lemma close_stmt_register (w : Ref.world) (st : Stmt) (p : string) :
  Ref.register (Ref.close_stmt w st).2 p = Ref.register w p.
Proof. unfold Ref.close_stmt. destruct (Ref.stmts w !! st); reflexivity. Qed.

Lemma close_db_register (w : Ref.world) (db : DB) (p : string) :
  Ref.register (Ref.close_db w db).2 p = Ref.register w p.
Proof. unfold Ref.close_db. destruct (Ref.conns w !! db); reflexivity. Qed.

Lemma prepare_ok (E : Ref.engine) (w w1 : Ref.world) (db : DB) (q : string) (st : Stmt) :
  Ref.prepare E w db q = (Ok st, w1) ->
  st = length (Ref.stmts w) /\
  w1 = Ref.set_stmts w (Ref.stmts w ++ [Ref.Prepared db q true]).
Proof.
  unfold Ref.prepare.
  destruct (Ref.open_conn w db) as [c | e]; [| discriminate].
  destruct (Ref.db_at w (Ref.conn_path c)) as [f |]; [| discriminate].
  destruct (Ref.compile E q f); intros H; inversion H; auto.
Qed.

Lemma prepared_lookup (w : Ref.world) (x : Ref.prepared) :
  Ref.stmts (Ref.set_stmts w (Ref.stmts w ++ [x])) !! length (Ref.stmts w) = Some x.
Proof. cbn [Ref.stmts Ref.set_stmts]. apply list_lookup_middle. reflexivity. Qed.

Lemma ExecSqlStatement_register (E : Ref.engine) (w : Ref.world) (db : DB) (q p : string) :
  Ref.keeps_register E q ->
  Ref.register (state_of (Ref.handle_in E) (ExecSqlStatement db q) w) p = Ref.register w p.
Proof.
  intros Hq. unfold state_of. rewrite ExecSqlStatement_run.
  cbn [Ref.handle_in].
  pose proof (prepare_register E w db q p) as Hp.
  destruct (Ref.prepare E w db q) as [[st | e] w1] eqn:Eq; cbn [fst snd] in *; [| exact Hp].
  apply prepare_ok in Eq as [-> ->].
  pose proof (exec_register E (Ref.set_stmts w (Ref.stmts w ++ [Ref.Prepared db q true]))
                (length (Ref.stmts w)) [] p) as He.
  rewrite prepared_lookup in He.
  destruct (Ref.exec _ _ _ _) as [x w2]. cbn [snd] in He.
  pose proof (close_stmt_register w2 (length (Ref.stmts w)) p) as Hc.
  destruct (Ref.close_stmt _ _) as [y w3]. cbn [fst snd] in *.
  rewrite Hc, He, Hp; [reflexivity |].
  intros x0 Hx. inversion Hx. exact Hq.
Qed.

(** Statements on an open connection to a regular file. *)
Lemma connected_open_conn (w : Ref.world) (db : DB) (p : string) :
  Ref.connected w db p ->
  exists fk f, Ref.open_conn w db = Ok (Ref.Conn p true fk) /\
               Ref.conns w !! db = Some (Ref.Conn p true fk) /\
               Ref.files w !! p = Some (Ref.Regular f) /\
               Ref.db_at w p = Some f.
Proof.
  intros [[fk Hc] [f Hf]]. exists fk, f. unfold Ref.open_conn, Ref.db_at.
  rewrite Hc, Hf. auto.
Qed.

Lemma exec_connected (E : Ref.engine) (w : Ref.world) (db : DB) (p q : string) (st : Stmt) :
  Ref.connected w db p ->
  Ref.stmts w !! st = Some (Ref.Prepared db q true) ->
  Ref.connected (Ref.exec E w st []).2 db p /\
  ((Ref.exec E w st []).1 = None ->
     exists f n, Ref.files w !! p = Some (Ref.Regular f) /\
                 Ref.execute E q [] f = Ok n /\
                 Ref.register (Ref.exec E w st []).2 p = Some n).
Proof.
  intros Hcon Hst.
  destruct (connected_open_conn w db p Hcon) as (fk & f & Hopen & Hc & Hf & Hdb).
  unfold Ref.exec. rewrite Hst. cbn [Ref.stmt_open Ref.stmt_db Ref.stmt_sql negb].
  rewrite Hopen. cbn [Ref.conn_path]. rewrite Hdb.
  destruct (Ref.execute E q [] f) as [n | e] eqn:He; cbn [fst snd].
  - split.
    + split; cbn [Ref.conns Ref.files].
      * eexists. apply list_lookup_insert_eq. eapply lookup_lt_Some. exact Hc.
      * rewrite lookup_insert_eq. eauto.
    + intros _. exists f, n. split; [exact Hf |]. split; [exact He |].
      unfold Ref.register, Ref.db_at. cbn [Ref.files].
      rewrite lookup_insert_eq. reflexivity.
  - split; [exact Hcon | discriminate].
Qed.

Lemma ExecSqlStatement_connected (E : Ref.engine) (w : Ref.world) (db : DB) (p q : string) :
  Ref.connected w db p ->
  Ref.connected (state_of (Ref.handle_in E) (ExecSqlStatement db q) w) db p /\
  (result_of (Ref.handle_in E) (ExecSqlStatement db q) w = None ->
     exists f n, Ref.files w !! p = Some (Ref.Regular f) /\
                 Ref.execute E q [] f = Ok n /\
                 Ref.register (state_of (Ref.handle_in E) (ExecSqlStatement db q) w) p
                   = Some n).
Proof.
  intros Hcon. unfold state_of, result_of. rewrite ExecSqlStatement_run.
  cbn [Ref.handle_in].
  destruct (Ref.prepare E w db q) as [[st | e] w1] eqn:Eq; cbn [fst snd].
  - apply prepare_ok in Eq as [-> ->].
    set (w1 := Ref.set_stmts w (Ref.stmts w ++ [Ref.Prepared db q true])).
    assert (Hcon1 : Ref.connected w1 db p) by exact Hcon.
    pose proof (exec_connected E w1 db p q (length (Ref.stmts w)) Hcon1
                  (prepared_lookup w _)) as [Hcon2 Hset].
    destruct (Ref.exec E w1 (length (Ref.stmts w)) []) as [x w2]. cbn [fst snd] in *.
    pose proof (close_stmt_register w2 (length (Ref.stmts w)) p) as Hreg.
    assert (Hcon3 : Ref.connected (Ref.close_stmt w2 (length (Ref.stmts w))).2 db p).
    { unfold Ref.close_stmt. destruct (Ref.stmts w2 !! _); exact Hcon2. }
    destruct (Ref.close_stmt w2 (length (Ref.stmts w))) as [y w3]. cbn [fst snd] in *.
    split; [exact Hcon3 |]. intros Hx.
    destruct (Hset Hx) as (f & n & Hf & He & Hr). exists f, n.
    rewrite Hreg. auto.
  - split; [| discriminate].
    unfold Ref.prepare in Eq.
    destruct (Ref.open_conn w db) as [c | e0]; [| inversion Eq; subst; exact Hcon].
    destruct (Ref.db_at w (Ref.conn_path c)) as [f |]; [| inversion Eq; subst; exact Hcon].
    destruct (Ref.compile E q f); inversion Eq; subst; exact Hcon.
Qed.

Lemma initSchema_loop_register (E : Ref.engine) (w : Ref.world) (db : DB) (p : string)
    (qs : list string) :
  Ref.connected w db p ->
  Forall (Ref.keeps_register E) qs ->
  Ref.connected (state_of (Ref.handle_in E) (initSchema_loop db qs) w) db p /\
  Ref.register (state_of (Ref.handle_in E) (initSchema_loop db qs) w) p = Ref.register w p.
Proof.
  revert w. induction qs as [| q qs IH]; intros w Hcon Hqs.
  - split; [exact Hcon | reflexivity].
  - inversion Hqs as [| ? ? Hq Hqs']; subst.
    cbn [initSchema_loop]. rewrite state_of_bind.
    pose proof (ExecSqlStatement_connected E w db p q Hcon) as [Hcon1 _].
    pose proof (ExecSqlStatement_register E w db q p Hq) as Hreg.
    destruct (result_of (Ref.handle_in E) (ExecSqlStatement db q) w) as [e |].
    + rewrite state_of_ret. auto.
    + destruct (IH _ Hcon1 Hqs') as [Hcon2 Hreg2]. split; [exact Hcon2 |].
      rewrite Hreg2. exact Hreg.
Qed.

Lemma stmt_errors_app (t1 t2 : list event) :
  stmt_errors (t1 ++ t2) = stmt_errors t1 ++ stmt_errors t2.
Proof. unfold stmt_errors. apply flat_map_app. Qed.

(** A statement in whose calls no error shows has returned none. *)
Lemma stmt_events_no_error (db : DB) (q : string) (r : option error) (t : list event) :
  stmt_events db q r t -> stmt_errors t = [] -> r = None.
Proof.
  intros H. destruct H as [err | stmt x y]; cbn.
  - discriminate.
  - destruct x; [discriminate | reflexivity].
Qed.

(** Below version 128 the fingerprint is below 2 ^ 31. *)
Lemma getUserVersion_below (appName : string) (schemaVersion : Z) :
  0 <= schemaVersion < 128 -> 0 <= getUserVersion appName schemaVersion < 2 ^ 31.
Proof.
  intros Hsv. rewrite getUserVersion_eq.
  pose proof (appId_range appName). lia.
Qed.

Lemma initSchema_register (E : Ref.engine) (w : Ref.world) (db : DB) (p appName : string)
    (schemaVersion : Z) (schema : list string) :
  Ref.writes_register E ->
  Ref.keeps_register E foreign_keys_stmt ->
  Forall (Ref.keeps_register E) schema ->
  0 <= schemaVersion < 128 ->
  Ref.connected w db p ->
  stmt_errors (trace_of (Ref.handle_in E) (initSchema db appName schemaVersion schema) w) = [] ->
  Ref.connected (state_of (Ref.handle_in E) (initSchema db appName schemaVersion schema) w) db p /\
  Ref.register (state_of (Ref.handle_in E) (initSchema db appName schemaVersion schema) w) p
    = Some (getUserVersion appName schemaVersion).
Proof.
  intros Hw Hfk Hqs Hsv Hcon. unfold initSchema. cbn [app initSchema_loop].
  pose proof (getUserVersion_below appName schemaVersion Hsv) as Hr.
  set (uv := getUserVersion appName schemaVersion) in *.
  rewrite trace_of_bind, state_of_bind, stmt_errors_app. intros Herr.
  apply app_eq_nil in Herr as [Herr _].
  pose proof (stmt_events_no_error _ _ _ _
                (ExecSqlStatement_events (Ref.handle_in E) db (user_version_stmt uv) w) Herr)
    as Hnone.
  destruct (ExecSqlStatement_connected E w db p (user_version_stmt uv) Hcon) as [Hcon1 Hset].
  destruct (Hset Hnone) as (f & n & _ & He & Hreg).
  apply (writes_register_stmt E uv f n Hw Hr) in He. subst n. rewrite Hnone.
  assert (Hall : Forall (Ref.keeps_register E) (foreign_keys_stmt :: schema)).
  { constructor; [exact Hfk | exact Hqs]. }
  destruct (initSchema_loop_register E _ db p _ Hcon1 Hall) as [Hcon2 Hreg2].
  split; [exact Hcon2 |]. cbn [initSchema_loop] in Hreg2. rewrite Hreg2. exact Hreg.
Qed.

(** ** Creation *)

Section Creation.
Context {S : Type} (h : handler S).

Lemma InitAppDB_run (dbPath appName : string) (schemaVersion : Z)
    (schema : list string) (s : S) :
  run h (InitAppDB dbPath appName schemaVersion schema) s =
  let '(r, s1) := h (os_Stat dbPath) s in
  if os_IsNotExist (error_of r) then
    let '(dir, s2) := h (filepath_Dir dbPath) s1 in
    let '(err, s3) := h (os_MkdirAll dir (Z.lor ModeDir 448)) s2 in
    let t3 := [Ev (os_Stat dbPath) r; Ev (filepath_Dir dbPath) dir;
               Ev (os_MkdirAll dir (Z.lor ModeDir 448)) err] in
    match err with
    | Some err => (None, Some err, s3, t3)
    | None =>
        let '(rc, s4) := h (os_Create dbPath) s3 in
        match rc with
        | Err err => (None, Some err, s4, t3 ++ [Ev (os_Create dbPath) rc])
        | Ok fh =>
            let '(x, s5) := h (File_Close fh) s4 in
            let t5 := t3 ++ [Ev (os_Create dbPath) rc; Ev (File_Close fh) x] in
            let '(ro, s6, t6) := run h (openAppDBNoValidate dbPath) s5 in
            match ro with
            | (_, Some err) => (None, Some err, s6, t5 ++ t6)
            | (None, None) => (None, None, s6, t5 ++ t6)
            | (Some db, None) =>
                let '(_, s7, t7) :=
                  run h (initSchema db appName schemaVersion schema) s6 in
                (Some db, None, s7, t5 ++ t6 ++ t7)
            end
        end
    end
  else
    let '(ro, s2, t2) := run h (OpenAppDB dbPath appName schemaVersion) s1 in
    (match ro with
     | (_, Some err) => (None, Some err)
     | (db, None) => (db, None)
     end, s2, Ev (os_Stat dbPath) r :: t2).
Proof.
  unfold InitAppDB. cbn [mbind go_mbind go_bind do run].
  destruct (h (os_Stat dbPath) s) as [r s1].
  destruct (os_IsNotExist (error_of r)).
  - cbn [mbind go_mbind go_bind do run].
    destruct (h (filepath_Dir dbPath) s1) as [dir s2].
    destruct (h (os_MkdirAll dir (Z.lor ModeDir 448)) s2) as [[err |] s3];
      [reflexivity |].
    cbn [mbind go_mbind go_bind do run].
    destruct (h (os_Create dbPath) s3) as [[fh | err] s4]; [| reflexivity].
    cbn [mbind go_mbind go_bind do run].
    destruct (h (File_Close fh) s4) as [x s5].
    change (go_bind ?f ?p) with (p ≫= f). rewrite run_bind.
    destruct (run h (openAppDBNoValidate dbPath) s5) as [[[db err] s6] t6].
    destruct db as [db |], err as [err |];
      try (cbn [run mret go_mret app]; rewrite ?app_nil_r; reflexivity).
    rewrite run_bind.
    destruct (run h (initSchema db appName schemaVersion schema) s6) as [[ri s7] t7].
    cbn [run mret go_mret app]. rewrite ?app_nil_r. reflexivity.
  - change (go_bind ?f ?p) with (p ≫= f). rewrite run_bind.
    destruct (run h (OpenAppDB dbPath appName schemaVersion) s1) as [[[db err] s2] t2].
    destruct db as [db |], err as [err |];
      cbn [run mret go_mret app]; rewrite ?app_nil_r; reflexivity.
Qed.
(** What [InitAppDB] returns does not depend on the schema statements. *)
Lemma InitAppDB_result_any_schema (dbPath appName : string) (schemaVersion : Z)
    (schema schema' : list string) (s : S) :
  result_of h (InitAppDB dbPath appName schemaVersion schema) s
  = result_of h (InitAppDB dbPath appName schemaVersion schema') s.
Proof.
  unfold result_of. rewrite !InitAppDB_run.
  destruct (h (os_Stat dbPath) s) as [r s1].
  destruct (os_IsNotExist (error_of r)); [| reflexivity].
  destruct (h (filepath_Dir dbPath) s1) as [dir s2].
  destruct (h (os_MkdirAll dir (Z.lor ModeDir 448)) s2) as [[err |] s3];
    [reflexivity |].
  destruct (h (os_Create dbPath) s3) as [[fh | err] s4]; [| reflexivity].
  destruct (h (File_Close fh) s4) as [x s5].
  destruct (run h (openAppDBNoValidate dbPath) s5) as [[[[db |] [err |]] s6] t6];
    try reflexivity.
  destruct (run h (initSchema db appName schemaVersion schema) s6) as [[ri s7] t7].
  destruct (run h (initSchema db appName schemaVersion schema') s6) as [[ri' s7'] t7'].
  reflexivity.
Qed.

End Creation.

(** [InitAppDB] on a path with no file, in the reference environment. *)
Lemma stat_missing (w : Ref.world) (p : string) :
  Ref.files w !! p = None -> Ref.stat w p = Err (PathError "stat" p ErrNotExist).
Proof. unfold Ref.stat. intros ->. reflexivity. Qed.

Lemma stat_regular (w : Ref.world) (p : string) (f : Ref.dbfile) :
  Ref.files w !! p = Some (Ref.Regular f) -> Ref.stat w p = Ok {| Mode := 420 |}.
Proof. unfold Ref.stat. intros ->. reflexivity. Qed.

Lemma create_ok (w w' : Ref.world) (p : string) (fh : File) :
  Ref.create w p = (Ok fh, w') ->
  Ref.files w' = <[p := Ref.Regular Ref.empty_db]> (Ref.files w) /\
  Ref.conns w' = Ref.conns w.
Proof.
  unfold Ref.create.
  destruct (Ref.files w !! p) as [[| f] |];
    try discriminate;
    destruct (Ref.files w !! Ref.dirname p) as [[| g] |];
    try discriminate; intros H; inversion H; auto.
Qed.

Lemma openAppDBNoValidate_regular (E : Ref.engine) (w : Ref.world) (p : string)
    (f : Ref.dbfile) :
  Ref.files w !! p = Some (Ref.Regular f) ->
  run (Ref.handle_in E) (openAppDBNoValidate p) w =
  (Some (length (Ref.conns w)), None,
   Ref.set_conns w (Ref.conns w ++ [Ref.Conn (Ref.opens E p) true false]),
   [Ev (os_Stat p) (Ok {| Mode := 420 |});
    Ev (sql_Open "sqlite3" p) (Ok (length (Ref.conns w)))]).
Proof.
  intros Hf. rewrite openAppDBNoValidate_run. cbn [Ref.handle_in].
  rewrite (stat_regular w p f Hf). reflexivity.
Qed.

Lemma InitAppDB_created (E : Ref.engine) (w : Ref.world) (dbPath appName : string)
    (schemaVersion : Z) (schema : list string) (db : DB) :
  Ref.opens E dbPath = dbPath ->
  Ref.files w !! dbPath = None ->
  result_of (Ref.handle_in E) (InitAppDB dbPath appName schemaVersion schema) w
    = (Some db, None) ->
  exists w0 t0,
    trace_of (Ref.handle_in E) (InitAppDB dbPath appName schemaVersion schema) w
      = t0 ++ trace_of (Ref.handle_in E) (initSchema db appName schemaVersion schema) w0 /\
    state_of (Ref.handle_in E) (InitAppDB dbPath appName schemaVersion schema) w
      = state_of (Ref.handle_in E) (initSchema db appName schemaVersion schema) w0 /\
    Ref.connected w0 db dbPath /\
    stmt_errors t0 = [] /\
    prepared_texts t0 = [].
Proof.
  intros Hopens Hnone. unfold result_of, state_of, trace_of.
  rewrite InitAppDB_run. cbn [Ref.handle_in].
  rewrite (stat_missing w dbPath Hnone). cbn [error_of os_IsNotExist].
  destruct (Ref.mkdir_all w (Ref.dirname dbPath)) as [[e |] w3];
    [cbn [fst snd]; discriminate |].
  destruct (Ref.create w3 dbPath) as [[fh | e] w4] eqn:Hcr;
    [| cbn [fst snd]; discriminate].
  apply create_ok in Hcr as [Hfiles Hconns].
  assert (Hf : Ref.files w4 !! dbPath = Some (Ref.Regular Ref.empty_db)).
  { rewrite Hfiles. apply lookup_insert_eq. }
  rewrite (openAppDBNoValidate_regular E w4 dbPath _ Hf), Hopens.
  set (w0 := Ref.set_conns w4 (Ref.conns w4 ++ [Ref.Conn dbPath true false])).
  destruct (run (Ref.handle_in E)
              (initSchema (length (Ref.conns w4)) appName schemaVersion schema) w0)
    as [[ri w7] t7] eqn:Hrun.
  cbn [fst snd]. intros Hres. inversion Hres; subst db.
  exists w0. eexists. split; [| split; [| split; [| split]]].
  - rewrite Hrun. cbn [fst snd]. rewrite app_assoc. reflexivity.
  - rewrite Hrun. reflexivity.
  - split.
    + exists false. subst w0. cbn [Ref.conns Ref.set_conns].
      apply list_lookup_middle. reflexivity.
    + exists Ref.empty_db. exact Hf.
  - reflexivity.
  - reflexivity.
Qed.

Lemma schema_events_first (db : DB) (q : string) (qs : list string)
    (r : option error) (t : list event) :
  schema_events db (q :: qs) r t -> hd_error (prepared_texts t) = Some q.
Proof.
  intros H. inversion H as [| ? ? ? t1 t2 Hq _ | ? ? ? ? Hq]; subst.
  - rewrite prepared_texts_app, (stmt_events_prepared _ _ _ _ Hq). reflexivity.
  - rewrite (stmt_events_prepared _ _ _ _ Hq). reflexivity.
Qed.

(** [OpenAppDB] on a regular file, in the reference environment. *)
Lemma scanned_new_conn (E : Ref.engine) (w : Ref.world) (p : string) (f : Ref.dbfile) :
  Ref.files w !! p = Some (Ref.Regular f) ->
  Ref.blocked E f = None ->
  is_uint32 (Ref.user_version f) ->
  scanned (Ref.handle_in E) (length (Ref.conns w))
    (Ref.set_conns w (Ref.conns w ++ [Ref.Conn p true false]))
  = Ok (Ref.user_version f).
Proof.
  intros Hf Hb [Hlo Hhi]. unfold scanned. cbn [Ref.handle_in Ref.query_row Ref.scan fst snd].
  cbn [Ref.rows Ref.set_rows Ref.set_conns].
  rewrite (list_lookup_middle (Ref.rows w) [] _ (length (Ref.rows w)) eq_refl).
  unfold Ref.query, Ref.open_conn, Ref.db_at. cbn [Ref.conns Ref.files Ref.set_conns].
  rewrite (list_lookup_middle (Ref.conns w) [] _ (length (Ref.conns w)) eq_refl).
  cbn [Ref.conn_open Ref.conn_path].
  rewrite Hf. cbn [String.eqb Ascii.eqb Bool.eqb]. rewrite Hb.
  apply Z.leb_le in Hlo. apply Z.ltb_lt in Hhi. rewrite Hlo, Hhi. reflexivity.
Qed.

Lemma OpenAppDB_regular (E : Ref.engine) (w : Ref.world) (p appName : string)
    (schemaVersion : Z) (f : Ref.dbfile) :
  is_uint8 schemaVersion ->
  Ref.opens E p = p ->
  Ref.files w !! p = Some (Ref.Regular f) ->
  Ref.blocked E f = None ->
  Ref.user_version f = getUserVersion appName schemaVersion ->
  result_of (Ref.handle_in E) (OpenAppDB p appName schemaVersion) w
    = (Some (length (Ref.conns w)), None).
Proof.
  intros Hsv Hopens Hf Hb Huv. unfold result_of. rewrite OpenAppDB_run.
  rewrite (openAppDBNoValidate_regular E w p f Hf), Hopens.
  rewrite (run_eta (Ref.handle_in E) (validateDB _ _ _)).
  rewrite validateDB_result, (scanned_new_conn E w p f Hf Hb), Huv.
  - cbv zeta. rewrite Z.eqb_refl. reflexivity.
  - rewrite Huv. apply getUserVersion_range. exact Hsv.
Qed.

Lemma validateDB_register (E : Ref.engine) (w : Ref.world) (db : DB) (appName : string)
    (schemaVersion : Z) (p : string) :
  Ref.register (state_of (Ref.handle_in E) (validateDB db appName schemaVersion) w) p
    = Ref.register w p.
Proof. unfold state_of. rewrite validateDB_run. reflexivity. Qed.

Lemma openAppDBNoValidate_register (E : Ref.engine) (w : Ref.world) (dbPath p : string) :
  Ref.register (state_of (Ref.handle_in E) (openAppDBNoValidate dbPath) w) p
    = Ref.register w p.
Proof.
  unfold state_of. rewrite openAppDBNoValidate_run. cbn [Ref.handle_in].
  destruct (Ref.stat w dbPath) as [fi | e]; [| reflexivity].
  destruct (IsRegular (Mode fi)); [| reflexivity].
  reflexivity.
Qed.

Lemma OpenAppDB_register (E : Ref.engine) (w : Ref.world) (dbPath appName : string)
    (schemaVersion : Z) (p : string) :
  Ref.register (state_of (Ref.handle_in E) (OpenAppDB dbPath appName schemaVersion) w) p
    = Ref.register w p.
Proof.
  unfold state_of. rewrite OpenAppDB_run.
  pose proof (openAppDBNoValidate_register E w dbPath p) as Ho. unfold state_of in Ho.
  destruct (run (Ref.handle_in E) (openAppDBNoValidate dbPath) w)
    as [[[[db |] [e |]] w1] t1];
    cbn [fst snd] in *; try exact Ho.
  pose proof (validateDB_register E w1 db appName schemaVersion p) as Hv.
  unfold state_of in Hv.
  destruct (run (Ref.handle_in E) (validateDB db appName schemaVersion) w1)
    as [[[e |] w2] t2];
    cbn [fst snd] in *; [| congruence].
  cbn [Ref.handle_in]. pose proof (close_db_register w2 db p) as Hc.
  destruct (Ref.close_db w2 db) as [x w3]. cbn [fst snd] in *. congruence.
Qed.

Lemma exec_stmts (E : Ref.engine) (w : Ref.world) (st : Stmt) (args : list string) :
  Ref.stmts (Ref.exec E w st args).2 = Ref.stmts w.
Proof.
  unfold Ref.exec.
  destruct (Ref.stmts w !! st) as [x |]; [| reflexivity].
  destruct (negb (Ref.stmt_open x)); [reflexivity |].
  destruct (Ref.open_conn w (Ref.stmt_db x)) as [c | e]; [| reflexivity].
  destruct (Ref.db_at w (Ref.conn_path c)) as [f |]; [| reflexivity].
  destruct (Ref.execute E (Ref.stmt_sql x) args f); reflexivity.
Qed.

Lemma ExecBulkSql_loop_register (E : Ref.engine) (w : Ref.world) (st : Stmt)
    (values : list string) (p : string) :
  (forall x, Ref.stmts w !! st = Some x -> Ref.keeps_register E (Ref.stmt_sql x)) ->
  Ref.register (state_of (Ref.handle_in E) (ExecBulkSql_loop st values) w) p
    = Ref.register w p.
Proof.
  revert w. induction values as [| v vs IH]; intros w Hst; [reflexivity |].
  cbn [ExecBulkSql_loop]. rewrite state_of_bind.
  rewrite (result_of_do (Ref.handle_in E) (Stmt_Exec st [v])),
    (state_of_do (Ref.handle_in E) (Stmt_Exec st [v])).
  cbn [Ref.handle_in].
  pose proof (exec_register E w st [v] p Hst) as He.
  pose proof (exec_stmts E w st [v]) as Hs.
  destruct (Ref.exec E w st [v]) as [[e |] w1]; cbn [fst snd] in *; [exact He |].
  rewrite IH; [exact He |]. rewrite Hs. exact Hst.
Qed.

Lemma ExecBulkSql_register (E : Ref.engine) (w : Ref.world) (db : DB) (q : string)
    (values : list string) (p : string) :
  Ref.keeps_register E q ->
  Ref.register (state_of (Ref.handle_in E) (ExecBulkSql db q values) w) p = Ref.register w p.
Proof.
  intros Hq. unfold ExecBulkSql, defer. rewrite state_of_bind.
  rewrite (result_of_do (Ref.handle_in E) (DB_Prepare db q)),
    (state_of_do (Ref.handle_in E) (DB_Prepare db q)).
  cbn [Ref.handle_in].
  pose proof (prepare_register E w db q p) as Hp.
  destruct (Ref.prepare E w db q) as [[st | e] w1] eqn:Eq; cbn [fst snd] in *; [| exact Hp].
  apply prepare_ok in Eq as [-> ->].
  rewrite !state_of_bind, state_of_ret.
  rewrite (state_of_do (Ref.handle_in E) (Stmt_Close _)). cbn [Ref.handle_in].
  rewrite close_stmt_register, ExecBulkSql_loop_register; [exact Hp |].
  rewrite prepared_lookup. intros x Hx. inversion Hx. exact Hq.
Qed.

(** ** The register after creation *)

Lemma connected_register (w : Ref.world) (db : DB) (p : string) (v : Z) :
  Ref.connected w db p -> Ref.register w p = Some v ->
  exists f, Ref.files w !! p = Some (Ref.Regular f) /\ Ref.user_version f = v.
Proof.
  intros [_ [f Hf]] Hreg. exists f. split; [exact Hf |].
  unfold Ref.register, Ref.db_at in Hreg. rewrite Hf in Hreg.
  cbn in Hreg. congruence.
Qed.

Lemma InitAppDB_register (E : Ref.engine) (w : Ref.world) (dbPath appName : string)
    (schemaVersion : Z) (schema : list string) (db : DB) :
  Ref.writes_register E ->
  Ref.keeps_register E foreign_keys_stmt ->
  Forall (Ref.keeps_register E) schema ->
  Ref.opens E dbPath = dbPath ->
  0 <= schemaVersion < 128 ->
  Ref.files w !! dbPath = None ->
  result_of (Ref.handle_in E) (InitAppDB dbPath appName schemaVersion schema) w
    = (Some db, None) ->
  stmt_errors (trace_of (Ref.handle_in E) (InitAppDB dbPath appName schemaVersion schema) w)
    = [] ->
  let w' := state_of (Ref.handle_in E) (InitAppDB dbPath appName schemaVersion schema) w in
  Ref.connected w' db dbPath /\
  Ref.register w' dbPath = Some (getUserVersion appName schemaVersion).
Proof.
  intros Hw Hfk Hqs Hopens Hsv Hnone Hres Herr w'.
  destruct (InitAppDB_created E w dbPath appName schemaVersion schema db Hopens Hnone Hres)
    as (w0 & t0 & Htrace & Hstate & Hcon & _).
  rewrite Htrace, stmt_errors_app in Herr. apply app_eq_nil in Herr as [_ Herr].
  subst w'. rewrite Hstate. apply initSchema_register; assumption.
Qed.

(** C7, as amended.  Round trip, for every engine that takes the path as the
    name of the file, executes the statement [PRAGMA user_version = n ;]
    with n below 2 ^ 31 by storing n in the register, and executes the
    statement that turns foreign keys on without touching the register.  On
    a path with no file, for a schema version in 0..127: when [InitAppDB]
    returns a handle and no error, no statement of the schema initialization
    has failed, the execution of each of the caller's statements leaves the
    register as it is, and the database is left so that a query can read it,
    then [OpenAppDB] on the same path with the same application name and
    schema version, run next, returns a handle and no error. *)
Theorem InitAppDB_then_OpenAppDB (E : Ref.engine) (w : Ref.world)
    (dbPath appName : string) (schemaVersion : Z) (schema : list string) (db : DB) :
  Ref.opens E dbPath = dbPath ->
  Ref.writes_register E ->
  Ref.keeps_register E "PRAGMA foreign_keys = ON;" ->
  Forall (Ref.keeps_register E) schema ->
  0 <= schemaVersion < 128 ->
  Ref.files w !! dbPath = None ->
  result_of (Ref.handle_in E) (InitAppDB dbPath appName schemaVersion schema) w
    = (Some db, None) ->
  stmt_errors (trace_of (Ref.handle_in E) (InitAppDB dbPath appName schemaVersion schema) w)
    = [] ->
  Ref.readable E
    (state_of (Ref.handle_in E) (InitAppDB dbPath appName schemaVersion schema) w) dbPath ->
  exists db',
    result_of (Ref.handle_in E) (OpenAppDB dbPath appName schemaVersion)
      (state_of (Ref.handle_in E) (InitAppDB dbPath appName schemaVersion schema) w)
    = (Some db', None).
Proof.
  intros Hopens Hw Hfk Hqs Hsv Hnone Hres Herr Hread.
  destruct (InitAppDB_register E w dbPath appName schemaVersion schema db
              Hw Hfk Hqs Hopens Hsv Hnone Hres Herr) as [Hcon Hreg].
  destruct (connected_register _ _ _ _ Hcon Hreg) as (f & Hf & Huv).
  eexists. apply (OpenAppDB_regular E _ _ _ _ f);
    [unfold is_uint8; lia | exact Hopens | exact Hf | exact (Hread f Hf) | exact Huv].
Qed.

(** The round trip for "app", version 3, one table, with the sample
    engine. *)
Lemma InitAppDB_then_OpenAppDB_witness :
  exists db',
    result_of (Ref.handle_in Ref.sqlite) (OpenAppDB app_path "app" 3)
      (state_of (Ref.handle_in Ref.sqlite)
         (InitAppDB app_path "app" 3 ["CREATE TABLE t(x);"]) Ref.empty)
    = (Some db', None).
Proof.
  apply (InitAppDB_then_OpenAppDB Ref.sqlite Ref.empty app_path "app" 3
           ["CREATE TABLE t(x);"] 0%nat).
  - reflexivity.
  - exact sqlite_writes_register.
  - exact sqlite_keeps_foreign_keys.
  - constructor; [| constructor]. apply sqlite_keeps_register. reflexivity.
  - lia.
  - reflexivity.
  - vm_compute. reflexivity.
  - vm_compute. reflexivity.
  - intros f _. reflexivity.
Defined.

(** C7 as stated fails: the caller's schema holds a statement that sets
    [user_version] to 7.  No file exists at the path, [InitAppDB] returns a
    handle and no error, no statement fails, and the [OpenAppDB] that
    follows, same name and version, returns an [AppIdError]. *)
Lemma InitAppDB_round_trip_fails :
  Ref.files Ref.empty !! app_path = None /\
  result_of Ref.handle (InitAppDB app_path "app" 3 ["PRAGMA user_version = 7 ;"]) Ref.empty
    = (Some 0%nat, None) /\
  stmt_errors (trace_of Ref.handle
    (InitAppDB app_path "app" 3 ["PRAGMA user_version = 7 ;"]) Ref.empty) = [] /\
  result_of Ref.handle (OpenAppDB app_path "app" 3)
    (state_of Ref.handle (InitAppDB app_path "app" 3 ["PRAGMA user_version = 7 ;"]) Ref.empty)
    = (None, Some (AppIdError 7 (appId "app"))).
Proof. repeat apply conj; vm_compute; reflexivity. Qed.

(** Schema version 128 and the signed register.  The fingerprint of "app"
    and 128 is 2161013409, above 2 ^ 31 - 1; the statement that [initSchema]
    writes leaves 0 in the register of the sample engine, as in SQLite.
    With no statement from the caller, [InitAppDB] returns a handle and no
    error and no statement fails; the [OpenAppDB] that follows, same name
    and version, returns an [AppIdError] with the identifier 0. *)
Example InitAppDB_version_128 :
  getUserVersion "app" 128 = 2161013409 /\
  result_of Ref.handle (InitAppDB app_path "app" 128 []) Ref.empty = (Some 0%nat, None) /\
  stmt_errors (trace_of Ref.handle (InitAppDB app_path "app" 128 []) Ref.empty) = [] /\
  Ref.register (state_of Ref.handle (InitAppDB app_path "app" 128 []) Ref.empty) app_path
    = Some 0 /\
  result_of Ref.handle (OpenAppDB app_path "app" 128)
    (state_of Ref.handle (InitAppDB app_path "app" 128 []) Ref.empty)
    = (None, Some (AppIdError 0 13529761)).
Proof. repeat apply conj; vm_compute; reflexivity. Qed.

(** C1.  What the code does where the claim fails.  New file, schema
    [CREATE TABLE t(x); INVALID SQL;], reference environment: [initSchema],
    in the world in which [InitAppDB] calls it, returns a [SchemaError] for
    the second statement; [InitAppDB] ends in the state that [initSchema]
    leaves, its calls show the engine's error, and it returns the handle
    with no error.  In every environment, what [InitAppDB] returns is the
    same for every list of schema statements. *)
Theorem InitAppDB_drops_schema_error :
  let schema := ["CREATE TABLE t(x);"; "INVALID SQL;"] in
  let w0 := world_created app_path in
  result_of Ref.handle (initSchema 0%nat "app" 3 schema) w0
    = Some (SchemaError "INVALID SQL;" Ref.syntax_error) /\
  state_of Ref.handle (InitAppDB app_path "app" 3 schema) Ref.empty
    = state_of Ref.handle (initSchema 0%nat "app" 3 schema) w0 /\
  stmt_errors (trace_of Ref.handle (InitAppDB app_path "app" 3 schema) Ref.empty)
    = [Ref.syntax_error] /\
  result_of Ref.handle (InitAppDB app_path "app" 3 schema) Ref.empty = (Some 0%nat, None) /\
  (forall (S : Type) (h : handler S) (s : S) (dbPath appName : string)
          (schemaVersion : Z) (stmts stmts' : list string),
      result_of h (InitAppDB dbPath appName schemaVersion stmts) s
      = result_of h (InitAppDB dbPath appName schemaVersion stmts') s).
Proof.
  intros schema w0.
  split; [vm_compute; reflexivity |].
  split; [vm_compute; reflexivity |].
  split; [vm_compute; reflexivity |].
  split; [vm_compute; reflexivity |].
  intros S h s dbPath appName schemaVersion stmts stmts'.
  apply InitAppDB_result_any_schema.
Qed.

(** C6, as amended.  For every engine that takes the path as the name of the
    file, executes the statement [PRAGMA user_version = n ;] with n below
    2 ^ 31 by storing n in the register, and executes the statement that
    turns foreign keys on without touching the register.  For a schema
    version in 0..127: when [InitAppDB] has made
    the file, no statement of the schema initialization has failed and the
    execution of each of the caller's statements leaves the register as it
    is, the version register of the file is the fingerprint of the name and
    version given.  The first statement prepared in the run is
    [PRAGMA user_version = n ;] with the decimal digits of the fingerprint
    for n.  [OpenAppDB] and [validateDB] leave every register as it is, and
    [validateDB] calls nothing but the query and its [Scan].
    [ExecSqlStatement] and [ExecBulkSql], run on a connection to a file,
    leave the register of this file as it is for every statement whose
    execution leaves the register as it is: preparing and closing a
    statement write nothing. *)
Theorem register_is_fingerprint (E : Ref.engine) (w : Ref.world)
    (dbPath appName : string) (schemaVersion : Z) (schema : list string) (db : DB) :
  Ref.opens E dbPath = dbPath ->
  Ref.writes_register E ->
  Ref.keeps_register E "PRAGMA foreign_keys = ON;" ->
  Forall (Ref.keeps_register E) schema ->
  0 <= schemaVersion < 128 ->
  Ref.files w !! dbPath = None ->
  result_of (Ref.handle_in E) (InitAppDB dbPath appName schemaVersion schema) w
    = (Some db, None) ->
  stmt_errors (trace_of (Ref.handle_in E) (InitAppDB dbPath appName schemaVersion schema) w)
    = [] ->
  let uv := getUserVersion appName schemaVersion in
  let w' := state_of (Ref.handle_in E) (InitAppDB dbPath appName schemaVersion schema) w in
  Ref.register w' dbPath = Some uv /\
  hd_error (prepared_texts
    (trace_of (Ref.handle_in E) (InitAppDB dbPath appName schemaVersion schema) w))
    = Some ("PRAGMA user_version = " ++ fmt_d uv ++ " ;")%string /\
  (exists d, fmt_d uv = NilEmpty.string_of_uint d /\ Z.of_N (N.of_uint d) = uv) /\
  (forall (x : Ref.world) (path name : string) (version : Z) (p : string),
     Ref.register (state_of (Ref.handle_in E) (OpenAppDB path name version) x) p
       = Ref.register x p) /\
  (forall (x : Ref.world) (d : DB) (name : string) (version : Z) (p : string),
     Ref.register (state_of (Ref.handle_in E) (validateDB d name version) x) p
       = Ref.register x p /\
     exists r y, trace_of (Ref.handle_in E) (validateDB d name version) x
       = [Ev (DB_QueryRow d "PRAGMA user_version") r; Ev (Row_Scan r) y]) /\
  (forall (x : Ref.world) (d : DB) (q : string) (values : list string) (p : string),
     Ref.keeps_register E q ->
     Ref.connected x d p ->
     Ref.register (state_of (Ref.handle_in E) (ExecSqlStatement d q) x) p
       = Ref.register x p /\
     Ref.register (state_of (Ref.handle_in E) (ExecBulkSql d q values) x) p
       = Ref.register x p).
Proof.
  intros Hopens Hw Hfk Hqs Hsv Hnone Hres Herr uv w'.
  split.
  { apply (InitAppDB_register E w dbPath appName schemaVersion schema db); assumption. }
  split.
  { destruct (InitAppDB_created E w dbPath appName schemaVersion schema db Hopens Hnone Hres)
      as (w0 & t0 & Htrace & _ & _ & _ & Hprep).
    rewrite Htrace, prepared_texts_app, Hprep. cbn [app].
    apply schema_events_first with (db := db) (qs := foreign_keys_stmt :: schema)
      (r := result_of (Ref.handle_in E) (initSchema db appName schemaVersion schema) w0).
    apply initSchema_loop_events. }
  split.
  { apply fmt_d_decimal.
    pose proof (getUserVersion_below appName schemaVersion Hsv). subst uv. lia. }
  split; [intros; apply OpenAppDB_register |].
  split.
  { intros x d name version p. split; [apply validateDB_register |].
    unfold trace_of. rewrite validateDB_run. cbn [Ref.handle_in].
    destruct (Ref.query_row E x d "PRAGMA user_version") as [r x1].
    destruct (Ref.scan x1 r) as [y x2]. eauto. }
  intros x d q values p Hq _. split.
  - apply ExecSqlStatement_register. exact Hq.
  - apply ExecBulkSql_register. exact Hq.
Qed.

(** The register after "app" has made its database with version 3, with the
    sample engine. *)
Lemma register_is_fingerprint_witness :
  Ref.register
    (state_of (Ref.handle_in Ref.sqlite)
       (InitAppDB app_path "app" 3 ["CREATE TABLE t(x);"]) Ref.empty)
    app_path
  = Some (getUserVersion "app" 3).
Proof.
  refine (proj1 (register_is_fingerprint Ref.sqlite Ref.empty app_path "app" 3
                   ["CREATE TABLE t(x);"] 0%nat _ _ _ _ _ _ _ _)).
  - reflexivity.
  - exact sqlite_writes_register.
  - exact sqlite_keeps_foreign_keys.
  - constructor; [| constructor]. apply sqlite_keeps_register. reflexivity.
  - lia.
  - reflexivity.
  - vm_compute. reflexivity.
  - vm_compute. reflexivity.
Defined.

(** C6 as stated fails: after the creation the register holds the
    fingerprint; [ExecSqlStatement], given a statement that sets
    [user_version] to 7, returns no error and the register holds 7. *)
Lemma register_overwritten_by_helper :
  Ref.register world_app3 app_path = Some (getUserVersion "app" 3) /\
  result_of Ref.handle (ExecSqlStatement 0%nat "PRAGMA user_version = 7 ;") world_app3 = None /\
  Ref.register
    (state_of Ref.handle (ExecSqlStatement 0%nat "PRAGMA user_version = 7 ;") world_app3)
    app_path = Some 7 /\
  getUserVersion "app" 3 <> 7.
Proof. repeat apply conj; vm_compute; congruence. Qed.

(** ** Runs in the sample environments *)

(** The statements of "app", version 3, one table, in the world in which
    [InitAppDB] calls [initSchema]. *)
Lemma initSchema_in_order_witness :
  prepared_texts (trace_of Ref.handle (initSchema 0%nat "app" 3 ["CREATE TABLE t(x);"])
                    (world_created app_path))
  = ["PRAGMA user_version = 63861409 ;"; "PRAGMA foreign_keys = ON;"; "CREATE TABLE t(x);"].
Proof.
  destruct (initSchema_in_order Ref.handle 0%nat "app" 3 ["CREATE TABLE t(x);"]
              (world_created app_path)) as (_ & _ & Hall & _).
  rewrite Hall; vm_compute; reflexivity.
Defined.

(** What the sample engine has done with them: the register holds the
    fingerprint, and foreign keys are on for the connection. *)
Example initSchema_app_3 :
  let w := state_of Ref.handle (initSchema 0%nat "app" 3 ["CREATE TABLE t(x);"])
             (world_created app_path) in
  Ref.register w app_path = Some 63861409 /\
  Ref.conns w !! 0%nat = Some (Ref.Conn app_path true true).
Proof. apply conj; vm_compute; reflexivity. Qed.

(** Made with version 3, validated with version 4. *)
Lemma validateDB_mismatch_witness :
  result_of Ref.handle (validateDB 0%nat "app" 4) world_app3
  = Some (SchemaVersionError 3 4).
Proof.
  assert (H4 : is_uint8 4) by (unfold is_uint8; lia).
  assert (H3 : is_uint8 3) by (unfold is_uint8; lia).
  assert (Hv : is_uint32 63861409) by (unfold is_uint32; lia).
  assert (Hscan : scanned Ref.handle 0%nat world_app3 = Ok 63861409)
    by (vm_compute; reflexivity).
  assert (Hne : 63861409 <> getUserVersion "app" 4) by (vm_compute; congruence).
  destruct (validateDB_mismatch Ref.handle 0%nat "app" 4 world_app3 63861409
              H4 Hv Hscan Hne) as (_ & _ & Hstored).
  apply (Hstored 3 H3). vm_compute. reflexivity.
Defined.

(** Made with version 3, validated with version 3. *)
Lemma validateDB_ok_iff_equal_witness :
  result_of Ref.handle (validateDB 0%nat "app" 3) world_app3 = None.
Proof.
  assert (H3 : is_uint8 3) by (unfold is_uint8; lia).
  assert (Hv : is_uint32 63861409) by (unfold is_uint32; lia).
  assert (Hscan : scanned Ref.handle 0%nat world_app3 = Ok 63861409)
    by (vm_compute; reflexivity).
  destruct (validateDB_ok_iff_equal Ref.handle 0%nat "app" 3 world_app3 63861409
              H3 Hv Hscan) as ((_ & Hok) & _).
  apply Hok. vm_compute. reflexivity.
Defined.

(** Made with version 3, opened with version 4: handle 1 is opened,
    validated and closed. *)
Lemma OpenAppDB_closes_on_validation_error_witness :
  result_of Ref.handle (OpenAppDB app_path "app" 4) world_app3
  = (None, Some (SchemaVersionError 3 4)).
Proof.
  refine (proj1 (OpenAppDB_closes_on_validation_error Ref.handle app_path "app" 4
                   world_app3 1%nat (SchemaVersionError 3 4) _ _)).
  - vm_compute. reflexivity.
  - vm_compute. reflexivity.
Defined.

(** Opening a directory, and opening a path with nothing at it. *)
Lemma open_not_regular_file_witness :
  result_of Ref.handle (OpenAppDB "/data" "app" 3) world_dir = (None, Some ErrInvalid) /\
  result_of Ref.handle (OpenAppDB "/nowhere" "app" 3) world_dir
  = (None, Some (PathError "stat" "/nowhere" ErrNotExist)).
Proof.
  split.
  - destruct (open_not_regular_file Ref.handle "/data" "app" 3 world_dir) as (Hdir & _ & _).
    refine (proj1 (proj2 (proj2 (Hdir {| Mode := Z.lor ModeDir 493 |} _ _)))).
    + vm_compute. reflexivity.
    + vm_compute. reflexivity.
  - destruct (open_not_regular_file Ref.handle "/nowhere" "app" 3 world_dir) as (_ & Hmiss & _).
    refine (proj1 (proj2 (proj2 (Hmiss (PathError "stat" "/nowhere" ErrNotExist) _)))).
    vm_compute. reflexivity.
Defined.

(** The digest function agrees with the published test vectors, also where
    the padding takes a second block. *)
Example Sum256_abc :
  sha256.Sum256 (bytes_of_string "abc") =
  [0xba; 0x78; 0x16; 0xbf; 0x8f; 0x01; 0xcf; 0xea; 0x41; 0x41; 0x40; 0xde;
   0x5d; 0xae; 0x22; 0x23; 0xb0; 0x03; 0x61; 0xa3; 0x96; 0x17; 0x7a; 0x9c;
   0xb4; 0x10; 0xff; 0x61; 0xf2; 0x00; 0x15; 0xad].
Proof. vm_compute. reflexivity. Qed.

Example Sum256_empty :
  sha256.Sum256 [] =
  [0xe3; 0xb0; 0xc4; 0x42; 0x98; 0xfc; 0x1c; 0x14; 0x9a; 0xfb; 0xf4; 0xc8;
   0x99; 0x6f; 0xb9; 0x24; 0x27; 0xae; 0x41; 0xe4; 0x64; 0x9b; 0x93; 0x4c;
   0xa4; 0x95; 0x99; 0x1b; 0x78; 0x52; 0xb8; 0x55].
Proof. vm_compute. reflexivity. Qed.

Example Sum256_two_blocks :
  firstn 4 (sha256.Sum256 (repeat 0x61 56)) = [0xb3; 0x54; 0x39; 0xa4] /\
  firstn 4 (sha256.Sum256 (repeat 0x61 120)) = [0x2f; 0x3d; 0x33; 0x54].
Proof. apply conj; vm_compute; reflexivity. Qed.

Example getUserVersion_app_3 :
  getUserVersion "app" 3 = 63861409 /\
  user_version_stmt (getUserVersion "app" 3) = "PRAGMA user_version = 63861409 ;".
Proof. apply conj; vm_compute; reflexivity. Qed.

(** Another application on the same file: the identifiers differ, and the
    handle opened for the validation is closed again. *)
Example OpenAppDB_other_application :
  result_of Ref.handle (OpenAppDB app_path "beta" 3) world_app3
    = (None, Some (AppIdError (appId "app") (appId "beta"))) /\
  last (trace_of Ref.handle (OpenAppDB app_path "beta" 3) world_app3)
    = Some (Ev (DB_Close 1%nat) None).
Proof. apply conj; vm_compute; reflexivity. Qed.

(** Three values, the second [Exec] fails: two executions, then the
    statement is closed. *)
Example ExecBulkSql_stops :
  run (fails_at 1) (ExecBulkSql 0%nat "INSERT INTO t VALUES (?);" ["a"; "b"; "c"]) 0%nat
  = (Some (EngineError "constraint failed"), 2%nat,
     [Ev (DB_Prepare 0%nat "INSERT INTO t VALUES (?);") (Ok 0%nat);
      Ev (Stmt_Exec 0%nat ["a"]) None;
      Ev (Stmt_Exec 0%nat ["b"]) (Some (EngineError "constraint failed"));
      Ev (Stmt_Close 0%nat) None]).
Proof. reflexivity. Qed.

(** * Further properties *)

(** ** One statement *)

Section OneStatement.
Context {S : Type} (h : handler S).

(** X1.  [ExecSqlStatement] calls [Prepare] once with the statement text.
    When [Prepare] fails, its error is returned and nothing else is called.
    Otherwise the statement is executed once, with no argument, and then
    closed, whether [Exec] failed or not; the value returned is the answer
    of [Exec], and the answer of [Close] is never returned. *)
Theorem ExecSqlStatement_calls (db : DB) (sql : string) (s : S) :
  let r := result_of h (ExecSqlStatement db sql) s in
  let t := trace_of h (ExecSqlStatement db sql) s in
  (forall err, (h (DB_Prepare db sql) s).1 = Err err ->
     r = Some err /\ t = [Ev (DB_Prepare db sql) (Err err)] /\
     state_of h (ExecSqlStatement db sql) s = (h (DB_Prepare db sql) s).2) /\
  (forall stmt, (h (DB_Prepare db sql) s).1 = Ok stmt ->
     let s1 := (h (DB_Prepare db sql) s).2 in
     let x := (h (Stmt_Exec stmt []) s1).1 in
     let s2 := (h (Stmt_Exec stmt []) s1).2 in
     r = x /\
     t = [Ev (DB_Prepare db sql) (Ok stmt); Ev (Stmt_Exec stmt []) x;
          Ev (Stmt_Close stmt) (h (Stmt_Close stmt) s2).1] /\
     state_of h (ExecSqlStatement db sql) s = (h (Stmt_Close stmt) s2).2) /\
  prepared_texts t = [sql] /\
  (exec_count t <= 1)%nat /\
  closed_handles t = [].
Proof.
  intros r t. subst r t. unfold result_of, trace_of, state_of.
  rewrite ExecSqlStatement_run.
  destruct (h (DB_Prepare db sql) s) as [[stmt | err] s1]; cbn [fst snd].
  - destruct (h (Stmt_Exec stmt []) s1) as [x s2] eqn:E1; cbn [fst snd].
    destruct (h (Stmt_Close stmt) s2) as [y s3] eqn:E2; cbn [fst snd].
    repeat apply conj.
    + intros err Herr. discriminate.
    + intros stmt' Hst. inversion Hst; subst stmt'. cbv zeta.
      rewrite E1. cbn [fst snd]. rewrite E2. auto.
    + reflexivity.
    + unfold exec_count. cbn. lia.
    + reflexivity.
  - repeat apply conj.
    + intros err' Herr. inversion Herr; subst err'. auto.
    + intros stmt Hst. discriminate.
    + reflexivity.
    + unfold exec_count. cbn. lia.
    + reflexivity.
Qed.

End OneStatement.

(** ** Opening and creating *)

Section Lifecycle.
Context {S : Type} (h : handler S).

Lemma validateDB_trace (db : DB) (appName : string) (schemaVersion : Z) (s : S) :
  let q := DB_QueryRow db "PRAGMA user_version" in
  trace_of h (validateDB db appName schemaVersion) s
    = [Ev q (h q s).1; Ev (Row_Scan (h q s).1) (h (Row_Scan (h q s).1) (h q s).2).1] /\
  state_of h (validateDB db appName schemaVersion) s
    = (h (Row_Scan (h q s).1) (h q s).2).2.
Proof.
  unfold trace_of, state_of. rewrite validateDB_run. cbv zeta.
  destruct (h (DB_QueryRow db "PRAGMA user_version") s) as [r s1]. cbn [fst snd].
  destruct (h (Row_Scan r) s1) as [x s2]. auto.
Qed.

(** X2.  [validateDB] makes two calls whatever they answer: the query
    [PRAGMA user_version] on the handle, then [Scan] on the row it got; it
    prepares and executes nothing and closes nothing.  When [Scan] fails,
    the error of [Scan] is returned as it is. *)
Theorem validateDB_calls (db : DB) (appName : string) (schemaVersion : Z) (s : S) :
  let t := trace_of h (validateDB db appName schemaVersion) s in
  (exists (r : Row) (x : result Z),
      t = [Ev (DB_QueryRow db "PRAGMA user_version") r; Ev (Row_Scan r) x] /\
      scanned h db s = x) /\
  forallb (fun c => negb (mutating c)) (calls_of t) = true /\
  closed_handles t = [] /\
  (forall err, scanned h db s = Err err ->
     result_of h (validateDB db appName schemaVersion) s = Some err).
Proof.
  intros t. subst t.
  destruct (validateDB_trace db appName schemaVersion s) as [Ht _].
  cbv zeta in Ht. rewrite Ht.
  repeat apply conj; try reflexivity.
  - eexists _, _. split; [reflexivity |]. unfold scanned.
    destruct (h (DB_QueryRow db "PRAGMA user_version") s) as [r s1]. reflexivity.
  - intros err Hscan. rewrite validateDB_result, Hscan. reflexivity.
Qed.

Lemma openAppDBNoValidate_calls (dbPath : string) (s : S) :
  forallb (fun c => negb (mutating c))
    (calls_of (trace_of h (openAppDBNoValidate dbPath) s)) = true /\
  closed_handles (trace_of h (openAppDBNoValidate dbPath) s) = [].
Proof.
  unfold trace_of. rewrite openAppDBNoValidate_run.
  destruct (h (os_Stat dbPath) s) as [[filestat | err] s1]; [| auto].
  destruct (IsRegular (Mode filestat)); [| auto].
  destruct (h (sql_Open "sqlite3" dbPath) s1) as [[db | err] s2]; auto.
Qed.

Lemma calls_of_app (t1 t2 : list event) : calls_of (t1 ++ t2) = calls_of t1 ++ calls_of t2.
Proof. unfold calls_of. apply List.map_app. Qed.

Lemma closed_handles_app (t1 t2 : list event) :
  closed_handles (t1 ++ t2) = closed_handles t1 ++ closed_handles t2.
Proof. unfold closed_handles. apply flat_map_app. Qed.

Lemma OpenAppDB_shape (dbPath appName : string) (schemaVersion : Z) (s : S) :
  (exists db, result_of h (OpenAppDB dbPath appName schemaVersion) s = (Some db, None)) \/
  (exists err, result_of h (OpenAppDB dbPath appName schemaVersion) s = (None, Some err)).
Proof.
  unfold result_of. rewrite OpenAppDB_run.
  destruct (openAppDBNoValidate_shape h dbPath s) as [[db Hr] | [err Hr]];
    unfold result_of in Hr;
    destruct (run h (openAppDBNoValidate dbPath) s) as [[r s1] t1];
    cbn [fst snd] in Hr; subst r; [| right; eauto].
  destruct (run h (validateDB db appName schemaVersion) s1) as [[[err |] s2] t2].
  - destruct (h (DB_Close db) s2) as [x s3]. right. eauto.
  - left. eauto.
Qed.

Lemma OpenAppDB_no_mutating (dbPath appName : string) (schemaVersion : Z) (s : S) :
  forallb (fun c => negb (mutating c))
    (calls_of (trace_of h (OpenAppDB dbPath appName schemaVersion) s)) = true.
Proof.
  unfold trace_of. rewrite OpenAppDB_run.
  destruct (openAppDBNoValidate_calls dbPath s) as [Ho _]. unfold trace_of in Ho.
  destruct (run h (openAppDBNoValidate dbPath) s) as [[[[db |] [err |]] s1] t1];
    cbn [fst snd] in *; try exact Ho.
  destruct (validateDB_trace db appName schemaVersion s1) as [Hv _].
  unfold trace_of in Hv. cbv zeta in Hv.
  destruct (run h (validateDB db appName schemaVersion) s1) as [[[err |] s2] t2];
    cbn [fst snd] in *; subst t2.
  - destruct (h (DB_Close db) s2) as [x s3]. cbn [fst snd].
    rewrite !calls_of_app, !forallb_app, Ho. reflexivity.
  - rewrite calls_of_app, forallb_app, Ho. reflexivity.
Qed.

(** X3.  [OpenAppDB] and [InitAppDB] return either a handle and no error, or
    no handle and an error; never both and never neither. *)
Theorem handle_or_error (dbPath appName : string) (schemaVersion : Z)
    (schema : list string) (s : S) :
  ((exists db, result_of h (OpenAppDB dbPath appName schemaVersion) s = (Some db, None)) \/
   (exists err, result_of h (OpenAppDB dbPath appName schemaVersion) s = (None, Some err))) /\
  ((exists db,
      result_of h (InitAppDB dbPath appName schemaVersion schema) s = (Some db, None)) \/
   (exists err,
      result_of h (InitAppDB dbPath appName schemaVersion schema) s = (None, Some err))).
Proof.
  split; [apply OpenAppDB_shape |].
  unfold result_of. rewrite InitAppDB_run.
  destruct (h (os_Stat dbPath) s) as [r s1].
  destruct (os_IsNotExist (error_of r)).
  - destruct (h (filepath_Dir dbPath) s1) as [dir s2].
    destruct (h (os_MkdirAll dir (Z.lor ModeDir 448)) s2) as [[err |] s3];
      [right; eauto |].
    destruct (h (os_Create dbPath) s3) as [[fh | err] s4]; [| right; eauto].
    destruct (h (File_Close fh) s4) as [x s5].
    destruct (openAppDBNoValidate_shape h dbPath s5) as [[db Hr] | [err Hr]];
      unfold result_of in Hr;
      destruct (run h (openAppDBNoValidate dbPath) s5) as [[ro s6] t6];
      cbn [fst snd] in Hr; subst ro; [| right; eauto].
    destruct (run h (initSchema db appName schemaVersion schema) s6) as [[ri s7] t7].
    left. eauto.
  - destruct (OpenAppDB_shape dbPath appName schemaVersion s1) as [[db Hr] | [err Hr]];
      unfold result_of in Hr;
      destruct (run h (OpenAppDB dbPath appName schemaVersion) s1) as [[ro s2] t2];
      cbn [fst snd] in Hr; subst ro; [left | right]; eauto.
Qed.

Lemma InitAppDB_not_created (dbPath appName : string) (schemaVersion : Z)
    (schema : list string) (s : S) :
  os_IsNotExist (error_of (h (os_Stat dbPath) s).1) = false ->
  result_of h (InitAppDB dbPath appName schemaVersion schema) s
    = result_of h (OpenAppDB dbPath appName schemaVersion) (h (os_Stat dbPath) s).2 /\
  state_of h (InitAppDB dbPath appName schemaVersion schema) s
    = state_of h (OpenAppDB dbPath appName schemaVersion) (h (os_Stat dbPath) s).2 /\
  trace_of h (InitAppDB dbPath appName schemaVersion schema) s
    = Ev (os_Stat dbPath) (h (os_Stat dbPath) s).1
        :: trace_of h (OpenAppDB dbPath appName schemaVersion) (h (os_Stat dbPath) s).2.
Proof.
  intros Hstat. unfold result_of, state_of, trace_of. rewrite InitAppDB_run.
  destruct (h (os_Stat dbPath) s) as [r s1]. cbn [fst snd] in *. rewrite Hstat.
  destruct (OpenAppDB_shape dbPath appName schemaVersion s1) as [[db Hr] | [err Hr]];
    unfold result_of in Hr;
    destruct (run h (OpenAppDB dbPath appName schemaVersion) s1) as [[ro s2] t2];
    cbn [fst snd] in *; subst ro; auto.
Qed.

Lemma no_mutating_no_prepare (t : list event) :
  forallb (fun c => negb (mutating c)) (calls_of t) = true -> prepared_texts t = [].
Proof.
  induction t as [| [c x] l IH]; [reflexivity |].
  cbn [calls_of List.map forallb]. intros Hl.
  apply andb_true_iff in Hl as [Hc Hl].
  destruct c; try discriminate; cbn [prepared_texts flat_map app]; apply IH; exact Hl.
Qed.

(** X4.  When [os.Stat] on the path does not answer with a not-exist error
    (the path exists, or [os.Stat] fails otherwise), [InitAppDB] does what
    [OpenAppDB] does, after that one call of [os.Stat]: same result, same
    final state, same calls.  It makes no directory and no file, and it
    prepares and executes no statement: the schema is not applied. *)
Theorem InitAppDB_existing_path (dbPath appName : string) (schemaVersion : Z)
    (schema : list string) (s : S) :
  os_IsNotExist (error_of (h (os_Stat dbPath) s).1) = false ->
  let s1 := (h (os_Stat dbPath) s).2 in
  let t := trace_of h (InitAppDB dbPath appName schemaVersion schema) s in
  result_of h (InitAppDB dbPath appName schemaVersion schema) s
    = result_of h (OpenAppDB dbPath appName schemaVersion) s1 /\
  state_of h (InitAppDB dbPath appName schemaVersion schema) s
    = state_of h (OpenAppDB dbPath appName schemaVersion) s1 /\
  t = Ev (os_Stat dbPath) (h (os_Stat dbPath) s).1
        :: trace_of h (OpenAppDB dbPath appName schemaVersion) s1 /\
  forallb (fun c => negb (mutating c)) (calls_of t) = true /\
  prepared_texts t = [].
Proof.
  intros Hstat s1 t. subst s1 t.
  destruct (InitAppDB_not_created dbPath appName schemaVersion schema s Hstat)
    as (Hres & Hstate & Htrace).
  assert (Hmut : forallb (fun c => negb (mutating c))
    (calls_of (trace_of h (InitAppDB dbPath appName schemaVersion schema) s)) = true).
  { rewrite Htrace. cbn [calls_of List.map forallb mutating negb andb].
    apply OpenAppDB_no_mutating. }
  repeat apply conj; try assumption.
  apply no_mutating_no_prepare. exact Hmut.
Qed.

End Lifecycle.

Section Lifecycle2.
Context {S : Type} (h : handler S).

(** X5.  When [OpenAppDB] returns a handle, it made four calls: [os.Stat]
    answered with a regular file, [sql.Open] with driver sqlite3 and the
    path answered with the handle returned, and the query and its [Scan]
    answered with a value that agrees with the fingerprint in the low 24
    bits and in the high byte; a 32-bit value then is the fingerprint.  The
    handle is not closed. *)
Theorem OpenAppDB_success (dbPath appName : string) (schemaVersion : Z)
    (s : S) (db : DB) :
  result_of h (OpenAppDB dbPath appName schemaVersion) s = (Some db, None) ->
  let uv := getUserVersion appName schemaVersion in
  exists (filestat : FileInfo) (r : Row) (user_version : Z),
    IsRegular (Mode filestat) = true /\
    trace_of h (OpenAppDB dbPath appName schemaVersion) s
      = [Ev (os_Stat dbPath) (Ok filestat);
         Ev (sql_Open "sqlite3" dbPath) (Ok db);
         Ev (DB_QueryRow db "PRAGMA user_version") r;
         Ev (Row_Scan r) (Ok user_version)] /\
    Z.land user_version 0x00ffffff = Z.land uv 0x00ffffff /\
    uint8 (Z.shiftr user_version 24) = uint8 (Z.shiftr uv 24) /\
    (is_uint8 schemaVersion -> is_uint32 user_version -> user_version = uv) /\
    closed_handles (trace_of h (OpenAppDB dbPath appName schemaVersion) s) = [].
Proof.
  intros Hres uv. revert Hres.
  unfold result_of, trace_of. rewrite OpenAppDB_run.
  destruct (run h (openAppDBNoValidate dbPath) s) as [[[[db' |] [e |]] s2] t1] eqn:Eo;
    cbn [fst snd]; try discriminate.
  destruct (run h (validateDB db' appName schemaVersion) s2) as [[[e |] s4] t2] eqn:Ev;
    cbn [fst snd].
  { destruct (h (DB_Close db') s4) as [x s5]. cbn [fst snd]. discriminate. }
  intros Hres. inversion Hres; subst db'. clear Hres.
  rewrite openAppDBNoValidate_run in Eo.
  destruct (h (os_Stat dbPath) s) as [[filestat | err] s1]; [| discriminate].
  destruct (IsRegular (Mode filestat)) eqn:Hreg; [| discriminate].
  destruct (h (sql_Open "sqlite3" dbPath) s1) as [[db' | err] s2']; [| discriminate].
  inversion Eo; subst db' s2' t1. clear Eo.
  rewrite validateDB_run in Ev.
  destruct (h (DB_QueryRow db "PRAGMA user_version") s2) as [r s3].
  destruct (h (Row_Scan r) s3) as [[v | err] s4']; [| discriminate].
  cbv zeta in Ev. fold uv in Ev.
  exists filestat, r, v.
  destruct (uv =? v) eqn:E0; cbn [negb] in Ev.
  - apply Z.eqb_eq in E0. subst v.
    inversion Ev; subst. repeat apply conj; auto.
  - destruct (Z.land v 0x00ffffff =? Z.land uv 0x00ffffff) eqn:E1; cbn [negb] in Ev;
      [| discriminate].
    destruct (uint8 (Z.shiftr v 24) =? uint8 (Z.shiftr uv 24)) eqn:E2; cbn [negb] in Ev;
      [| discriminate].
    apply Z.eqb_eq in E1, E2.
    inversion Ev; subst. repeat apply conj; auto.
    intros Hsv Hv. apply uint32_fields_inj; auto.
    apply getUserVersion_range. exact Hsv.
Qed.

(** X6.  The ways [InitAppDB] fails while it creates: when [os.MkdirAll]
    fails, its error is returned after three calls and no file is made; when
    [os.Create] fails, its error is returned after four calls; in both cases
    the engine is not called.  When the file is made but cannot be opened,
    the error of the opening is returned, nothing is prepared or executed,
    and no call follows the opening: the file made is left where it is. *)
Theorem InitAppDB_creation_fails (dbPath appName : string) (schemaVersion : Z)
    (schema : list string) (s : S) :
  os_IsNotExist (error_of (h (os_Stat dbPath) s).1) = true ->
  let r0 := (h (os_Stat dbPath) s).1 in
  let s1 := (h (os_Stat dbPath) s).2 in
  let dir := (h (filepath_Dir dbPath) s1).1 in
  let s2 := (h (filepath_Dir dbPath) s1).2 in
  let mkdir := os_MkdirAll dir (Z.lor ModeDir 448) in
  let s3 := (h mkdir s2).2 in
  let t3 := [Ev (os_Stat dbPath) r0; Ev (filepath_Dir dbPath) dir; Ev mkdir (h mkdir s2).1] in
  let res := result_of h (InitAppDB dbPath appName schemaVersion schema) s in
  let t := trace_of h (InitAppDB dbPath appName schemaVersion schema) s in
  (forall err, (h mkdir s2).1 = Some err -> res = (None, Some err) /\ t = t3) /\
  (forall err, (h mkdir s2).1 = None -> (h (os_Create dbPath) s3).1 = Err err ->
     res = (None, Some err) /\ t = t3 ++ [Ev (os_Create dbPath) (Err err)]) /\
  (forall fh err, (h mkdir s2).1 = None -> (h (os_Create dbPath) s3).1 = Ok fh ->
     let s4 := (h (os_Create dbPath) s3).2 in
     let s5 := (h (File_Close fh) s4).2 in
     result_of h (openAppDBNoValidate dbPath) s5 = (None, Some err) ->
     res = (None, Some err) /\
     t = t3 ++ [Ev (os_Create dbPath) (Ok fh); Ev (File_Close fh) (h (File_Close fh) s4).1]
            ++ trace_of h (openAppDBNoValidate dbPath) s5 /\
     prepared_texts t = []).
Proof.
  intros Hstat. cbv zeta. unfold result_of, trace_of.
  rewrite InitAppDB_run.
  destruct (h (os_Stat dbPath) s) as [r0 s1]. cbn [fst snd] in *. rewrite Hstat.
  destruct (h (filepath_Dir dbPath) s1) as [dir s2]. cbn [fst snd].
  destruct (h (os_MkdirAll dir (Z.lor ModeDir 448)) s2) as [m s3]. cbn [fst snd].
  repeat apply conj.
  - intros err ->. auto.
  - intros err -> Hc.
    destruct (h (os_Create dbPath) s3) as [rc s4]. cbn [fst snd] in *. subst rc. auto.
  - intros fh err -> Hc.
    destruct (h (os_Create dbPath) s3) as [rc s4]. cbn [fst snd] in *. subst rc.
    destruct (h (File_Close fh) s4) as [x s5]. cbn [fst snd].
    pose proof (openAppDBNoValidate_calls h dbPath s5) as [Hmut _].
    unfold trace_of in Hmut.
    destruct (run h (openAppDBNoValidate dbPath) s5) as [[ro s6] t6].
    cbn [fst snd] in *. intros ->.
    repeat apply conj; [reflexivity | rewrite <- app_assoc; reflexivity |].
    cbn [fst snd]. rewrite !prepared_texts_app.
    rewrite (no_mutating_no_prepare t6 Hmut). reflexivity.
Qed.

(** X7.  The order of the calls when [InitAppDB] creates: [os.Stat] on the
    path, [filepath.Dir], [os.MkdirAll] on that directory with mode
    directory and 0700, [os.Create] on the path, [Close] on the file made,
    then the calls of [openAppDBNoValidate] and, on its handle, those of
    [initSchema]; the handle is returned with no error and is not closed. *)
Theorem InitAppDB_creation_order (dbPath appName : string) (schemaVersion : Z)
    (schema : list string) (s : S) (fh : File) (db : DB) :
  os_IsNotExist (error_of (h (os_Stat dbPath) s).1) = true ->
  let s1 := (h (os_Stat dbPath) s).2 in
  let dir := (h (filepath_Dir dbPath) s1).1 in
  let s2 := (h (filepath_Dir dbPath) s1).2 in
  let mkdir := os_MkdirAll dir (Z.lor ModeDir 448) in
  let s3 := (h mkdir s2).2 in
  let s4 := (h (os_Create dbPath) s3).2 in
  let s5 := (h (File_Close fh) s4).2 in
  let s6 := state_of h (openAppDBNoValidate dbPath) s5 in
  (h mkdir s2).1 = None ->
  (h (os_Create dbPath) s3).1 = Ok fh ->
  result_of h (openAppDBNoValidate dbPath) s5 = (Some db, None) ->
  result_of h (InitAppDB dbPath appName schemaVersion schema) s = (Some db, None) /\
  state_of h (InitAppDB dbPath appName schemaVersion schema) s
    = state_of h (initSchema db appName schemaVersion schema) s6 /\
  trace_of h (InitAppDB dbPath appName schemaVersion schema) s
    = [Ev (os_Stat dbPath) (h (os_Stat dbPath) s).1;
       Ev (filepath_Dir dbPath) dir;
       Ev mkdir None;
       Ev (os_Create dbPath) (Ok fh);
       Ev (File_Close fh) (h (File_Close fh) s4).1]
      ++ trace_of h (openAppDBNoValidate dbPath) s5
      ++ trace_of h (initSchema db appName schemaVersion schema) s6 /\
  closed_handles (trace_of h (InitAppDB dbPath appName schemaVersion schema) s) = [].
Proof.
  intros Hstat. cbv zeta. unfold result_of, trace_of, state_of.
  rewrite InitAppDB_run.
  destruct (h (os_Stat dbPath) s) as [r0 s1]. cbn [fst snd] in *. rewrite Hstat.
  destruct (h (filepath_Dir dbPath) s1) as [dir s2]. cbn [fst snd].
  destruct (h (os_MkdirAll dir (Z.lor ModeDir 448)) s2) as [m s3]. cbn [fst snd].
  intros ->.
  destruct (h (os_Create dbPath) s3) as [rc s4]. cbn [fst snd]. intros ->.
  destruct (h (File_Close fh) s4) as [x s5]. cbn [fst snd].
  pose proof (openAppDBNoValidate_calls h dbPath s5) as [_ Hcl].
  unfold trace_of in Hcl.
  destruct (run h (openAppDBNoValidate dbPath) s5) as [[ro s6] t6].
  cbn [fst snd] in *. intros ->.
  pose proof (initSchema_loop_events h db
    (user_version_stmt (getUserVersion appName schemaVersion) :: foreign_keys_stmt :: schema)
    s6) as Hev.
  change (initSchema_loop db _) with (initSchema db appName schemaVersion schema) in Hev.
  unfold result_of, trace_of in Hev.
  destruct (run h (initSchema db appName schemaVersion schema) s6) as [[ri s7] t7].
  cbn [fst snd] in *.
  repeat apply conj; try reflexivity.
  rewrite !closed_handles_app, Hcl. cbn [closed_handles flat_map app].
  clear -Hev. induction Hev as [| q qs r t1 t2 Hq _ IH | q qs err t Hq].
  - reflexivity.
  - rewrite closed_handles_app, IH. destruct Hq; reflexivity.
  - destruct Hq; reflexivity.
Qed.

End Lifecycle2.

(** ** Fingerprints of different applications and versions *)

(** X8.  Two fingerprints, for schema versions in 0..255, are equal exactly
    when the 24-bit identifiers of the two names are equal and the versions
    are equal: the same name with two versions never gives one fingerprint,
    and two names give one fingerprint only through equal identifiers. *)
Theorem getUserVersion_inj (appName appName' : string) (schemaVersion schemaVersion' : Z) :
  is_uint8 schemaVersion -> is_uint8 schemaVersion' ->
  (getUserVersion appName schemaVersion = getUserVersion appName' schemaVersion'
   <-> appId appName = appId appName' /\ schemaVersion = schemaVersion') /\
  (schemaVersion <> schemaVersion' ->
   getUserVersion appName schemaVersion <> getUserVersion appName schemaVersion').
Proof.
  intros Hv Hv'. rewrite !getUserVersion_eq.
  pose proof (appId_range appName) as Ha.
  pose proof (appId_range appName') as Ha'.
  unfold is_uint8 in *.
  split; [split |].
  - intros Heq. lia.
  - intros [-> ->]. reflexivity.
  - intros Hne. lia.
Qed.

Lemma getUserVersion_inj_witness :
  getUserVersion "app" 3 <> getUserVersion "app" 4.
Proof.
  apply (getUserVersion_inj "app" "app" 3 4); unfold is_uint8; lia.
Defined.

Section Collision.
Context {S : Type} (h : handler S).

(** X9.  The name enters the validation only through its 24-bit identifier:
    for two names with equal identifiers, [validateDB] and [OpenAppDB] make
    the same calls and return the same, in every environment.  A database
    made by one of them is accepted for the other. *)
Theorem validateDB_same_identifier (dbPath appName appName' : string)
    (schemaVersion : Z) (db : DB) (s : S) :
  appId appName = appId appName' ->
  run h (validateDB db appName schemaVersion) s
    = run h (validateDB db appName' schemaVersion) s /\
  run h (OpenAppDB dbPath appName schemaVersion) s
    = run h (OpenAppDB dbPath appName' schemaVersion) s /\
  (scanned h db s = Ok (getUserVersion appName' schemaVersion) ->
   result_of h (validateDB db appName schemaVersion) s = None).
Proof.
  intros Hid.
  assert (Huv : getUserVersion appName schemaVersion = getUserVersion appName' schemaVersion).
  { rewrite !getUserVersion_eq, Hid. reflexivity. }
  assert (Hval : forall d x,
    run h (validateDB d appName schemaVersion) x
    = run h (validateDB d appName' schemaVersion) x).
  { intros d x. rewrite !validateDB_run, Huv. reflexivity. }
  split; [apply Hval |]. split.
  - rewrite !OpenAppDB_run.
    destruct (run h (openAppDBNoValidate dbPath) s) as [[[[d |] [e |]] s1] t1];
      try reflexivity.
    rewrite Hval. reflexivity.
  - intros Hscan. rewrite validateDB_result, Hscan, Huv. cbv zeta.
    rewrite Z.eqb_refl. reflexivity.
Qed.

End Collision.

(** ** Making and opening, in the reference environment *)

Lemma OpenAppDB_files (E : Ref.engine) (w : Ref.world) (dbPath appName : string)
    (schemaVersion : Z) :
  Ref.files (state_of (Ref.handle_in E) (OpenAppDB dbPath appName schemaVersion) w)
    = Ref.files w.
Proof.
  unfold state_of. rewrite OpenAppDB_run, openAppDBNoValidate_run. cbn [Ref.handle_in].
  destruct (Ref.stat w dbPath) as [fi | e]; [| reflexivity].
  destruct (IsRegular (Mode fi)); [| reflexivity].
  unfold Ref.open_db. cbn [String.eqb Ascii.eqb Bool.eqb].
  rewrite validateDB_run. cbn [Ref.handle_in Ref.query_row Ref.scan].
  match goal with
  | |- context [match ?x with Some y => y | None => _ end] => destruct x as [[v | e] |]
  end; cbv zeta; cbn [fst snd];
    repeat match goal with
      | |- context [if ?b then _ else _] => destruct b
      end;
    try reflexivity;
    unfold Ref.close_db; cbn [Ref.conns Ref.set_rows Ref.set_conns];
    match goal with
    | |- context [match ?x with Some _ => _ | None => _ end] => destruct x
    end; reflexivity.
Qed.

Lemma OpenAppDB_regular_result (E : Ref.engine) (w : Ref.world) (p appName : string)
    (schemaVersion : Z) (f : Ref.dbfile) :
  Ref.opens E p = p ->
  Ref.files w !! p = Some (Ref.Regular f) ->
  Ref.blocked E f = None ->
  is_uint32 (Ref.user_version f) ->
  result_of (Ref.handle_in E) (OpenAppDB p appName schemaVersion) w =
  match result_of (Ref.handle_in E) (validateDB (length (Ref.conns w)) appName schemaVersion)
          (Ref.set_conns w (Ref.conns w ++ [Ref.Conn p true false])) with
  | Some err => (None, Some err)
  | None => (Some (length (Ref.conns w)), None)
  end /\
  scanned (Ref.handle_in E) (length (Ref.conns w))
    (Ref.set_conns w (Ref.conns w ++ [Ref.Conn p true false])) = Ok (Ref.user_version f).
Proof.
  intros Hopens Hf Hb Hr. split; [| apply scanned_new_conn; assumption].
  unfold result_of. rewrite OpenAppDB_run.
  rewrite (openAppDBNoValidate_regular E w p f Hf), Hopens.
  destruct (run (Ref.handle_in E) (validateDB _ _ _) _) as [[[e |] w2] t2]; cbn [fst snd];
    [| reflexivity].
  cbn [Ref.handle_in]. destruct (Ref.close_db w2 _) as [x w3]. reflexivity.
Qed.

(** X10.  For every engine that takes the path as the name of the file,
    executes the statement [PRAGMA user_version = n ;] with n below 2 ^ 31
    by storing n in the register, and executes the statement that turns
    foreign keys on without touching the register.  After [InitAppDB] has
    made the file for a name and a version in 0..127, with no statement of
    the schema initialization failing, every statement of the caller leaving
    the register as it is, and the database left so that a query can read
    it, [OpenAppDB] on that path with any name and version returns: an
    [AppIdError] with the two identifiers when the identifiers differ;
    otherwise a [SchemaVersionError] with the version of the creation and
    the version asked for when these differ; otherwise a handle.  The
    register is as it was. *)
Theorem OpenAppDB_after_InitAppDB (E : Ref.engine) (w : Ref.world)
    (dbPath appName appName' : string) (schemaVersion schemaVersion' : Z)
    (schema : list string) (db : DB) :
  Ref.opens E dbPath = dbPath ->
  Ref.writes_register E ->
  Ref.keeps_register E "PRAGMA foreign_keys = ON;" ->
  Forall (Ref.keeps_register E) schema ->
  0 <= schemaVersion < 128 -> is_uint8 schemaVersion' ->
  Ref.files w !! dbPath = None ->
  result_of (Ref.handle_in E) (InitAppDB dbPath appName schemaVersion schema) w
    = (Some db, None) ->
  stmt_errors (trace_of (Ref.handle_in E) (InitAppDB dbPath appName schemaVersion schema) w)
    = [] ->
  Ref.readable E
    (state_of (Ref.handle_in E) (InitAppDB dbPath appName schemaVersion schema) w) dbPath ->
  let w' := state_of (Ref.handle_in E) (InitAppDB dbPath appName schemaVersion schema) w in
  let r := result_of (Ref.handle_in E) (OpenAppDB dbPath appName' schemaVersion') w' in
  (appId appName <> appId appName' ->
     r = (None, Some (AppIdError (appId appName) (appId appName')))) /\
  (appId appName = appId appName' -> schemaVersion <> schemaVersion' ->
     r = (None, Some (SchemaVersionError schemaVersion schemaVersion'))) /\
  (appId appName = appId appName' -> schemaVersion = schemaVersion' ->
     exists db', r = (Some db', None)) /\
  Ref.register (state_of (Ref.handle_in E) (OpenAppDB dbPath appName' schemaVersion') w')
    dbPath
    = Some (getUserVersion appName schemaVersion).
Proof.
  intros Hopens Hw Hfk Hqs Hsv Hv' Hnone Hres Herr Hread w' r.
  assert (Hv : is_uint8 schemaVersion) by (unfold is_uint8; lia).
  destruct (InitAppDB_register E w dbPath appName schemaVersion schema db
              Hw Hfk Hqs Hopens Hsv Hnone Hres Herr) as [Hcon Hreg].
  fold w' in Hcon, Hreg.
  destruct (connected_register _ _ _ _ Hcon Hreg) as (f & Hf & Huv).
  assert (Hrange : is_uint32 (Ref.user_version f)).
  { rewrite Huv. apply getUserVersion_range. exact Hv. }
  destruct (OpenAppDB_regular_result E w' dbPath appName' schemaVersion' f
              Hopens Hf (Hread f Hf) Hrange) as [Hr Hscan].
  fold r in Hr. rewrite validateDB_result, Hscan, Huv in Hr. cbv zeta in Hr.
  rewrite !getUserVersion_low, !getUserVersion_high in Hr.
  rewrite !uint8_small in Hr by assumption.
  repeat apply conj.
  - intros Hid. rewrite Hr.
    assert (Eq : (getUserVersion appName' schemaVersion' =? getUserVersion appName schemaVersion)
                = false).
    { apply Z.eqb_neq. rewrite !getUserVersion_eq.
      pose proof (appId_range appName). pose proof (appId_range appName').
      unfold is_uint8 in *. lia. }
    rewrite Eq. cbn [negb]. apply Z.eqb_neq in Hid. rewrite Hid. reflexivity.
  - intros Hid Hne. rewrite Hr.
    assert (Eq : (getUserVersion appName' schemaVersion' =? getUserVersion appName schemaVersion)
                = false).
    { apply Z.eqb_neq. rewrite !getUserVersion_eq.
      pose proof (appId_range appName). pose proof (appId_range appName').
      unfold is_uint8 in *. lia. }
    rewrite Eq. cbn [negb]. apply Z.eqb_eq in Hid. rewrite Hid. cbn [negb].
    apply Z.eqb_neq in Hne. rewrite Hne. reflexivity.
  - intros Hid ->. rewrite Hr.
    assert (Eq : (getUserVersion appName' schemaVersion' =? getUserVersion appName schemaVersion')
                = true).
    { apply Z.eqb_eq. rewrite !getUserVersion_eq, Hid. reflexivity. }
    rewrite Eq. cbn [negb]. eauto.
  - rewrite OpenAppDB_register. exact Hreg.
Qed.

Lemma OpenAppDB_after_InitAppDB_witness :
  result_of (Ref.handle_in Ref.sqlite) (OpenAppDB app_path "beta" 3)
    (state_of (Ref.handle_in Ref.sqlite)
       (InitAppDB app_path "app" 3 ["CREATE TABLE t(x);"]) Ref.empty)
  = (None, Some (AppIdError (appId "app") (appId "beta"))).
Proof.
  refine (proj1 (OpenAppDB_after_InitAppDB Ref.sqlite Ref.empty app_path "app" "beta" 3 3
                   ["CREATE TABLE t(x);"] 0%nat _ _ _ _ _ _ _ _ _ _) _).
  - reflexivity.
  - exact sqlite_writes_register.
  - exact sqlite_keeps_foreign_keys.
  - constructor; [| constructor]. apply sqlite_keeps_register. reflexivity.
  - lia.
  - unfold is_uint8. lia.
  - reflexivity.
  - vm_compute. reflexivity.
  - vm_compute. reflexivity.
  - intros f _. reflexivity.
  - vm_compute. congruence.
Defined.

(** X11.  For the same engines: [InitAppDB] on a path where it has made the
    file before (version in 0..127, no statement of the schema
    initialization failing, every statement of the caller leaving the
    register as it is, the database left so that a query can read it), with
    the same name and version and any list of
    statements, returns a handle and no error and leaves every file as it
    is: nothing of the second list is prepared. *)
Theorem InitAppDB_again (E : Ref.engine) (w : Ref.world) (dbPath appName : string)
    (schemaVersion : Z) (schema schema' : list string) (db : DB) :
  Ref.opens E dbPath = dbPath ->
  Ref.writes_register E ->
  Ref.keeps_register E "PRAGMA foreign_keys = ON;" ->
  Forall (Ref.keeps_register E) schema ->
  0 <= schemaVersion < 128 ->
  Ref.files w !! dbPath = None ->
  result_of (Ref.handle_in E) (InitAppDB dbPath appName schemaVersion schema) w
    = (Some db, None) ->
  stmt_errors (trace_of (Ref.handle_in E) (InitAppDB dbPath appName schemaVersion schema) w)
    = [] ->
  Ref.readable E
    (state_of (Ref.handle_in E) (InitAppDB dbPath appName schemaVersion schema) w) dbPath ->
  let w' := state_of (Ref.handle_in E) (InitAppDB dbPath appName schemaVersion schema) w in
  (exists db',
     result_of (Ref.handle_in E) (InitAppDB dbPath appName schemaVersion schema') w'
     = (Some db', None)) /\
  Ref.files (state_of (Ref.handle_in E) (InitAppDB dbPath appName schemaVersion schema') w')
    = Ref.files w' /\
  prepared_texts
    (trace_of (Ref.handle_in E) (InitAppDB dbPath appName schemaVersion schema') w')
    = [].
Proof.
  intros Hopens Hw Hfk Hqs Hsv Hnone Hres Herr Hread w'.
  assert (Hv : is_uint8 schemaVersion) by (unfold is_uint8; lia).
  destruct (InitAppDB_register E w dbPath appName schemaVersion schema db
              Hw Hfk Hqs Hopens Hsv Hnone Hres Herr) as [Hcon Hreg].
  fold w' in Hcon, Hreg.
  destruct (connected_register _ _ _ _ Hcon Hreg) as (f & Hf & Huv).
  assert (Hstat : os_IsNotExist
                    (error_of ((Ref.handle_in E) (os_Stat dbPath) w').1) = false).
  { cbn [Ref.handle_in fst]. rewrite (stat_regular w' dbPath f Hf). reflexivity. }
  destruct (InitAppDB_not_created (Ref.handle_in E) dbPath appName schemaVersion schema'
              w' Hstat) as (Hr & Hs & Ht).
  cbn [Ref.handle_in fst snd] in Hr, Hs, Ht.
  repeat apply conj.
  - rewrite Hr. eexists.
    apply (OpenAppDB_regular E _ _ _ _ f Hv Hopens Hf (Hread f Hf) Huv).
  - rewrite Hs. apply OpenAppDB_files.
  - apply no_mutating_no_prepare. rewrite Ht.
    cbn [calls_of List.map forallb mutating negb andb].
    apply OpenAppDB_no_mutating.
Qed.

Lemma InitAppDB_again_witness :
  exists db',
    result_of (Ref.handle_in Ref.sqlite) (InitAppDB app_path "app" 3 ["DROP TABLE t;"])
      (state_of (Ref.handle_in Ref.sqlite)
         (InitAppDB app_path "app" 3 ["CREATE TABLE t(x);"]) Ref.empty)
    = (Some db', None).
Proof.
  refine (proj1 (InitAppDB_again Ref.sqlite Ref.empty app_path "app" 3
                   ["CREATE TABLE t(x);"] ["DROP TABLE t;"] 0%nat _ _ _ _ _ _ _ _ _)).
  - reflexivity.
  - exact sqlite_writes_register.
  - exact sqlite_keeps_foreign_keys.
  - constructor; [| constructor]. apply sqlite_keeps_register. reflexivity.
  - lia.
  - reflexivity.
  - vm_compute. reflexivity.
  - vm_compute. reflexivity.
  - intros f _. reflexivity.
Defined.

(** ** Error texts *)

Lemma string_of_uint_app_inj (d d' : Decimal.uint) (s s' : string) :
  no_digit_ahead s -> no_digit_ahead s' ->
  (NilEmpty.string_of_uint d ++ s)%string = (NilEmpty.string_of_uint d' ++ s')%string ->
  d = d' /\ s = s'.
Proof.
  intros Hs Hs'. revert d'.
  induction d as [| d IH | d IH | d IH | d IH | d IH | d IH | d IH | d IH | d IH | d IH];
    intros [| d' | d' | d' | d' | d' | d' | d' | d' | d' | d'];
    cbn [NilEmpty.string_of_uint];
    repeat match goal with
      | |- context [(String ?a ?x ++ ?y)%string] =>
          change (String a x ++ y)%string with (String a (x ++ y)%string)
      end;
    change (EmptyString ++ ?y)%string with y;
    intros H;
    try (injection H as H; destruct (IH d' H) as [-> ->]; split; reflexivity);
    try (split; [reflexivity | exact H]);
    try discriminate H;
    try (rewrite H in Hs; cbn in Hs; discriminate Hs);
    try (rewrite <- H in Hs'; cbn in Hs'; discriminate Hs').
Qed.

Lemma fmt_d_app_inj (a b : Z) (s s' : string) :
  0 <= a -> 0 <= b -> no_digit_ahead s -> no_digit_ahead s' ->
  (fmt_d a ++ s)%string = (fmt_d b ++ s')%string -> a = b /\ s = s'.
Proof.
  intros Ha Hb Hs Hs' H. unfold fmt_d in H.
  destruct (string_of_uint_app_inj _ _ _ _ Hs Hs' H) as [Hd Hss].
  split; [| exact Hss].
  apply DecimalN.Unsigned.to_uint_inj in Hd. apply Z2N.inj; assumption.
Qed.

Lemma string_app_nil_r (s : string) : (s ++ "")%string = s.
Proof.
  induction s as [| c s IH]; [reflexivity |].
  change (String c s ++ "")%string with (String c (s ++ "")%string).
  rewrite IH. reflexivity.
Qed.

Lemma got_expected_inj (a b c d : Z) :
  0 <= a -> 0 <= b -> 0 <= c -> 0 <= d ->
  (fmt_d a ++ " - Expected " ++ fmt_d b)%string
  = (fmt_d c ++ " - Expected " ++ fmt_d d)%string ->
  a = c /\ b = d.
Proof.
  intros Ha Hb Hc Hd H.
  apply fmt_d_app_inj in H as [-> H]; try assumption; try reflexivity.
  split; [reflexivity |].
  apply (String.app_inj " - Expected ") in H.
  rewrite <- (string_app_nil_r (fmt_d b)), <- (string_app_nil_r (fmt_d d)) in H.
  apply fmt_d_app_inj in H as [-> _]; try assumption; reflexivity.
Qed.

(** X12.  The text of a [SchemaVersionError] shows both versions, and the
    text of an [AppIdError] both identifiers: two such errors with the same
    text have the same fields.  The texts of the two kinds are never the
    same. *)
Theorem Error_text_fields (a b c d : Z) :
  0 <= a -> 0 <= b -> 0 <= c -> 0 <= d ->
  (Error (SchemaVersionError a b) = Error (SchemaVersionError c d) -> a = c /\ b = d) /\
  (Error (AppIdError a b) = Error (AppIdError c d) -> a = c /\ b = d) /\
  Error (SchemaVersionError a b) <> Error (AppIdError c d).
Proof.
  intros Ha Hb Hc Hd. cbn [Error]. repeat apply conj.
  - intros H. apply (String.app_inj "Incorrect Schema Version: Got ") in H.
    apply got_expected_inj; assumption.
  - intros H. apply (String.app_inj "Incorrect Database App Id: Got ") in H.
    apply got_expected_inj; assumption.
  - intros H. apply (f_equal (String.get 10)) in H. lazy in H. discriminate H.
Qed.

Lemma Error_text_fields_witness :
  Error (SchemaVersionError 3 4) = "Incorrect Schema Version: Got 3 - Expected 4" /\
  Error (SchemaVersionError 3 4) <> Error (AppIdError 3 4).
Proof.
  split; [vm_compute; reflexivity |].
  apply (Error_text_fields 3 4 3 4); lia.
Defined.

(** ** The variant with logging *)

Lemma run_lbind {S A B} (h : handler S) (p : lgo A) (f : A -> lgo B) (s : S) :
  run h (lbind p f) s =
  let '(x, s1, t1) := run h p s in
  let '(y, s2, t2) := run h (f x.1) s1 in
  ((y.1, x.2 ++ y.2), s2, t1 ++ t2).
Proof.
  unfold lbind. rewrite run_bind.
  destruct (run h p s) as [[x s1] t1]. rewrite run_bind.
  destruct (run h (f x.1) s1) as [[y s2] t2]. cbn. rewrite app_nil_r. reflexivity.
Qed.

Lemma run_erase {S A} (h : handler S) (p : lgo A) (s : S) :
  run h (erase p) s = let '(x, s1, t1) := run h p s in (x.1, s1, t1).
Proof.
  unfold erase. rewrite run_bind.
  destruct (run h p s) as [[x s1] t1]. cbn. rewrite app_nil_r. reflexivity.
Qed.

Lemma erases_ret {A} (a : A) : erases (lret a) (mret a).
Proof. intros S h s. reflexivity. Qed.

Lemma erases_lift {A} (p : go A) : erases (lift p) p.
Proof.
  intros S h s. rewrite run_erase. unfold lift. rewrite run_bind.
  destruct (run h p s) as [[a s1] t1]. cbn. rewrite app_nil_r. reflexivity.
Qed.

Lemma erases_bind {A B} (p' : lgo A) (p : go A) (f' : A -> lgo B) (f : A -> go B) :
  erases p' p -> (forall a, erases (f' a) (f a)) -> erases (lbind p' f') (p ≫= f).
Proof.
  intros Hp Hf S h s. rewrite run_erase, run_lbind, run_bind.
  specialize (Hp S h s). rewrite run_erase in Hp.
  destruct (run h p' s) as [[x s1] t1]. rewrite <- Hp.
  specialize (Hf x.1 S h s1). rewrite run_erase in Hf.
  destruct (run h (f' x.1) s1) as [[y s2] t2]. rewrite <- Hf. reflexivity.
Qed.

Lemma erases_log {A} (args : list string) (p' : lgo A) (p : go A) :
  erases p' p -> erases (log_Println args p') p.
Proof.
  intros Hp S h s. rewrite run_erase. unfold log_Println. rewrite run_lbind.
  specialize (Hp S h s). rewrite run_erase in Hp. cbn [run fst snd].
  destruct (run h p' s) as [[x s1] t1]. exact Hp.
Qed.

Lemma erases_defer {A B} (c' : lgo B) (c : go B) (b' : lgo A) (b : go A) :
  erases c' c -> erases b' b -> erases (ldefer c' b') (defer c b).
Proof.
  intros Hc Hb. unfold ldefer, defer.
  apply erases_bind; [exact Hb |]. intros a.
  apply erases_bind; [exact Hc |]. intros _. apply erases_ret.
Qed.

Lemma Logged_getUserVersion_run {S} (h : handler S) (appName : string)
    (schemaVersion : Z) (s : S) :
  run h (Logged.getUserVersion appName schemaVersion) s
  = ((getUserVersion appName schemaVersion,
      [Sprintln ["getUserVersion("; appName; fmt_d schemaVersion; ")"]]), s, []).
Proof. reflexivity. Qed.

Lemma erases_getUserVersion (appName : string) (schemaVersion : Z) :
  erases (Logged.getUserVersion appName schemaVersion)
         (mret (getUserVersion appName schemaVersion)).
Proof. intros S h s. reflexivity. Qed.

Lemma erases_openAppDBNoValidate (dbPath appName : string) (schemaVersion : Z) :
  erases (Logged.openAppDBNoValidate dbPath appName schemaVersion)
         (openAppDBNoValidate dbPath).
Proof.
  unfold Logged.openAppDBNoValidate, openAppDBNoValidate.
  apply erases_log, erases_bind; [apply erases_lift |].
  intros [filestat | err]; [| apply erases_ret].
  destruct (IsRegular (Mode filestat)); [| apply erases_ret].
  apply erases_bind; [apply erases_lift |].
  intros [db | err]; apply erases_ret.
Qed.

Lemma erases_ExecSqlStatement (db : DB) (sql : string) :
  erases (Logged.ExecSqlStatement db sql) (ExecSqlStatement db sql).
Proof.
  unfold Logged.ExecSqlStatement, ExecSqlStatement.
  apply erases_log, erases_bind; [apply erases_lift |].
  intros [stmt | err]; [| apply erases_ret].
  apply erases_defer; [apply erases_lift |].
  apply erases_bind; [apply erases_lift |].
  intros [err |]; apply erases_ret.
Qed.

Lemma erases_ExecBulkSql_loop (stmt : Stmt) (values : list string) :
  erases (Logged.ExecBulkSql_loop stmt values) (ExecBulkSql_loop stmt values).
Proof.
  induction values as [| v vs IH]; [apply erases_ret |].
  cbn [Logged.ExecBulkSql_loop ExecBulkSql_loop].
  apply erases_bind; [apply erases_lift |].
  intros [err |]; [apply erases_ret | exact IH].
Qed.

Lemma erases_ExecBulkSql (db : DB) (sql : string) (values : list string) :
  erases (Logged.ExecBulkSql db sql values) (ExecBulkSql db sql values).
Proof.
  unfold Logged.ExecBulkSql, ExecBulkSql.
  apply erases_bind; [apply erases_lift |].
  intros [stmt | err]; [| apply erases_ret].
  apply erases_defer; [apply erases_lift | apply erases_ExecBulkSql_loop].
Qed.

Lemma erases_initSchema_loop (db : DB) (qs : list string) :
  erases (Logged.initSchema_loop db qs) (initSchema_loop db qs).
Proof.
  induction qs as [| q qs IH]; [apply erases_ret |].
  cbn [Logged.initSchema_loop initSchema_loop].
  apply erases_bind; [apply erases_ExecSqlStatement |].
  intros [err |]; [apply erases_ret | exact IH].
Qed.

Lemma erases_bind_pure {A B} (p' : lgo A) (a : A) (f' : A -> lgo B) (q : go B) :
  erases p' (mret a) -> erases (f' a) q -> erases (lbind p' f') q.
Proof.
  intros Hp Hq S h s. rewrite run_erase, run_lbind.
  specialize (Hp S h s). rewrite run_erase in Hp.
  destruct (run h p' s) as [[x s1] t1]. cbn in Hp. inversion Hp; subst.
  specialize (Hq S h s). rewrite run_erase in Hq.
  destruct (run h (f' x.1) s) as [[y s2] t2]. exact Hq.
Qed.

Lemma erases_initSchema (db : DB) (appName : string) (schemaVersion : Z)
    (schema : list string) :
  erases (Logged.initSchema db appName schemaVersion schema)
         (initSchema db appName schemaVersion schema).
Proof.
  unfold Logged.initSchema, initSchema.
  apply erases_log.
  apply erases_bind_pure with (a := getUserVersion appName schemaVersion);
    [apply erases_getUserVersion |].
  apply erases_initSchema_loop.
Qed.

Lemma erases_validateDb (db : DB) (appName : string) (schemaVersion : Z) :
  erases (Logged.validateDb db appName schemaVersion)
         (validateDB db appName schemaVersion).
Proof.
  unfold Logged.validateDb, validateDB.
  apply erases_log, erases_bind; [apply erases_lift |]. intros r.
  apply erases_bind_pure with (a := getUserVersion appName schemaVersion);
    [apply erases_getUserVersion |].
  apply erases_bind; [apply erases_lift |].
  intros [user_version | err]; [| apply erases_ret]. cbv zeta.
  repeat match goal with |- context [if ?b then _ else _] => destruct b end;
    apply erases_ret.
Qed.

Lemma erases_OpenAppDB (dbPath appName : string) (schemaVersion : Z) :
  erases (Logged.OpenAppDB dbPath appName schemaVersion)
         (OpenAppDB dbPath appName schemaVersion).
Proof.
  unfold Logged.OpenAppDB, OpenAppDB.
  apply erases_log, erases_bind; [apply erases_openAppDBNoValidate |].
  intros [[db |] [err |]]; try apply erases_ret.
  apply erases_bind; [apply erases_validateDb |].
  intros [err |]; [| apply erases_ret].
  apply erases_bind; [apply erases_lift |]. intros _. apply erases_ret.
Qed.

Lemma erases_InitAppDB (dbPath appName : string) (schemaVersion : Z)
    (schema : list string) :
  erases (Logged.InitAppDB dbPath appName schemaVersion schema)
         (InitAppDB dbPath appName schemaVersion schema).
Proof.
  unfold Logged.InitAppDB, InitAppDB.
  apply erases_log, erases_bind; [apply erases_lift |]. intros r. cbv zeta.
  destruct (os_IsNotExist (error_of r)).
  - apply erases_bind; [apply erases_lift |]. intros dir.
    apply erases_bind; [apply erases_lift |].
    intros [err |]; [apply erases_ret |].
    apply erases_bind; [apply erases_lift |].
    intros [fh | err]; [| apply erases_ret].
    apply erases_bind; [apply erases_lift |]. intros _.
    apply erases_bind; [apply erases_openAppDBNoValidate |].
    intros [[db |] [err |]]; try apply erases_ret.
    apply erases_bind; [apply erases_initSchema |]. intros _. apply erases_ret.
  - apply erases_bind; [apply erases_OpenAppDB |].
    intros [[db |] [err |]]; apply erases_ret.
Qed.

(** X13.  The variant with logging does what the package does: each of its
    functions, with the lines dropped, makes the same calls with the same
    answers and ends in the same state with the same result as the function
    of [appdb.go], in every environment. *)
Theorem logging_changes_nothing :
  (forall dbPath appName schemaVersion schema,
      erases (Logged.InitAppDB dbPath appName schemaVersion schema)
             (InitAppDB dbPath appName schemaVersion schema)) /\
  (forall dbPath appName schemaVersion,
      erases (Logged.OpenAppDB dbPath appName schemaVersion)
             (OpenAppDB dbPath appName schemaVersion)) /\
  (forall dbPath appName schemaVersion,
      erases (Logged.openAppDBNoValidate dbPath appName schemaVersion)
             (openAppDBNoValidate dbPath)) /\
  (forall db appName schemaVersion,
      erases (Logged.validateDb db appName schemaVersion)
             (validateDB db appName schemaVersion)) /\
  (forall db appName schemaVersion schema,
      erases (Logged.initSchema db appName schemaVersion schema)
             (initSchema db appName schemaVersion schema)) /\
  (forall db sql, erases (Logged.ExecSqlStatement db sql) (ExecSqlStatement db sql)) /\
  (forall db sql values,
      erases (Logged.ExecBulkSql db sql values) (ExecBulkSql db sql values)) /\
  (forall appName schemaVersion,
      erases (Logged.getUserVersion appName schemaVersion)
             (mret (getUserVersion appName schemaVersion))).
Proof.
  repeat apply conj; intros.
  - apply erases_InitAppDB.
  - apply erases_OpenAppDB.
  - apply erases_openAppDBNoValidate.
  - apply erases_validateDb.
  - apply erases_initSchema.
  - apply erases_ExecSqlStatement.
  - apply erases_ExecBulkSql.
  - apply erases_getUserVersion.
Qed.

Section Lines.
Context {S : Type} (h : handler S).

Lemma log_of_lbind {A B} (p : lgo A) (f : A -> lgo B) (s : S) :
  log_of h (lbind p f) s
  = log_of h p s ++ log_of h (f (result_of h p s).1) (state_of h p s) /\
  trace_of h (lbind p f) s
  = trace_of h p s ++ trace_of h (f (result_of h p s).1) (state_of h p s).
Proof.
  unfold log_of, result_of, state_of, trace_of. rewrite run_lbind.
  destruct (run h p s) as [[x s1] t1]. cbn [fst snd].
  destruct (run h (f x.1) s1) as [[y s2] t2]. auto.
Qed.

Lemma Logged_ExecSqlStatement_line (db : DB) (sql : string) (s : S) :
  log_of h (Logged.ExecSqlStatement db sql) s = [statement_line sql] /\
  prepared_texts (trace_of h (Logged.ExecSqlStatement db sql) s) = [sql].
Proof.
  pose proof (erases_ExecSqlStatement db sql S h s) as He. rewrite run_erase in He.
  pose proof (ExecSqlStatement_events h db sql s) as Hev.
  unfold result_of, trace_of in Hev. rewrite <- He in Hev.
  split.
  - unfold log_of, result_of, Logged.ExecSqlStatement, log_Println.
    rewrite run_lbind. cbn [run fst snd app].
    destruct (run h _ s) as [[y s2] t2] eqn:E. cbn [fst snd].
    revert E. rewrite run_lbind.
    destruct (run h (lift (do (DB_Prepare db sql))) s) as [[x s1] t1] eqn:E1.
    unfold lift in E1. cbn in E1. destruct (h (DB_Prepare db sql) s) as [r0 s0].
    inversion E1; subst. cbn [fst snd app].
    destruct r0 as [stmt | err].
    + unfold ldefer. rewrite !run_lbind.
      cbn. destruct (h (Stmt_Exec stmt []) s1) as [[e |] s3]; cbn;
        destruct (h (Stmt_Close stmt) s3) as [c s4]; cbn;
        intros E; inversion E; reflexivity.
    + cbn. intros E; inversion E; reflexivity.
  - unfold trace_of.
    destruct (run h (Logged.ExecSqlStatement db sql) s) as [[x s1] t1].
    cbn [fst snd] in *. eapply stmt_events_prepared. exact Hev.
Qed.

Lemma Logged_initSchema_loop_lines (db : DB) (qs : list string) (s : S) :
  log_of h (Logged.initSchema_loop db qs) s
  = List.map statement_line
      (prepared_texts (trace_of h (Logged.initSchema_loop db qs) s)).
Proof.
  revert s. induction qs as [| q qs IH]; intros s; [reflexivity |].
  cbn [Logged.initSchema_loop].
  destruct (log_of_lbind (Logged.ExecSqlStatement db q)
              (fun err => match err with
                          | Some err => lret (Some (SchemaError q err))
                          | None => Logged.initSchema_loop db qs
                          end) s) as [Hl Ht].
  rewrite Hl, Ht, prepared_texts_app, List.map_app.
  destruct (Logged_ExecSqlStatement_line db q s) as [-> ->].
  f_equal.
  destruct (result_of h (Logged.ExecSqlStatement db q) s).1 as [err |];
    [reflexivity | apply IH].
Qed.

(** X14.  What the variant of [initSchema] logs: its own line, the line of
    [getUserVersion], then one line of [ExecSqlStatement] for each statement
    handed to [Prepare], in the same order; a statement after the first
    failing one is neither prepared nor logged. *)
Theorem Logged_initSchema_lines (db : DB) (appName : string) (schemaVersion : Z)
    (schema : list string) (s : S) :
  log_of h (Logged.initSchema db appName schemaVersion schema) s
  = Sprintln ["initSchema(db,"; appName; fmt_d schemaVersion; ")"]
    :: Sprintln ["getUserVersion("; appName; fmt_d schemaVersion; ")"]
    :: List.map statement_line
         (prepared_texts
            (trace_of h (Logged.initSchema db appName schemaVersion schema) s)) /\
  prepared_texts (trace_of h (Logged.initSchema db appName schemaVersion schema) s)
    `prefix_of` user_version_stmt (getUserVersion appName schemaVersion)
                  :: foreign_keys_stmt :: schema.
Proof.
  assert (Hrun : run h (Logged.initSchema db appName schemaVersion schema) s
    = let '(x, s1, t1) := run h (Logged.initSchema_loop db
          (user_version_stmt (getUserVersion appName schemaVersion)
             :: foreign_keys_stmt :: schema)) s in
      ((x.1, Sprintln ["initSchema(db,"; appName; fmt_d schemaVersion; ")"]
             :: Sprintln ["getUserVersion("; appName; fmt_d schemaVersion; ")"]
             :: x.2), s1, t1)).
  { unfold Logged.initSchema, log_Println. rewrite run_lbind.
    cbn [run fst snd app]. rewrite run_lbind, Logged_getUserVersion_run.
    cbn [fst snd app].
    destruct (run h _ s) as [[x s1] t1]. reflexivity. }
  pose proof (Logged_initSchema_loop_lines db
    (user_version_stmt (getUserVersion appName schemaVersion)
       :: foreign_keys_stmt :: schema) s) as Hl.
  pose proof (erases_initSchema_loop db
    (user_version_stmt (getUserVersion appName schemaVersion)
       :: foreign_keys_stmt :: schema) S h s) as He.
  rewrite run_erase in He.
  pose proof (initSchema_loop_events h db
    (user_version_stmt (getUserVersion appName schemaVersion)
       :: foreign_keys_stmt :: schema) s) as Hev.
  unfold result_of, trace_of in Hev. rewrite <- He in Hev.
  unfold log_of, result_of, trace_of in *. rewrite Hrun.
  destruct (run h (Logged.initSchema_loop db _) s) as [[x s1] t1].
  cbn [fst snd] in *. split; [rewrite Hl; reflexivity |].
  apply (schema_events_prepared _ _ _ _ Hev).
Qed.

End Lines.

Section OpenFails.
Context {S : Type} (h : handler S).

(** X15.  When [openAppDBNoValidate] returns an error ([os.Stat] failed, the
    path is not a regular file, or [sql.Open] failed), [OpenAppDB] returns
    that error and no handle and calls nothing more: no query, and no
    [Close], there being no handle. *)
Theorem OpenAppDB_open_fails (dbPath appName : string) (schemaVersion : Z)
    (s : S) (err : error) :
  result_of h (openAppDBNoValidate dbPath) s = (None, Some err) ->
  run h (OpenAppDB dbPath appName schemaVersion) s
    = (None, Some err, state_of h (openAppDBNoValidate dbPath) s,
       trace_of h (openAppDBNoValidate dbPath) s) /\
  closed_handles (trace_of h (OpenAppDB dbPath appName schemaVersion) s) = [] /\
  (forall filestat e,
      (h (os_Stat dbPath) s).1 = Ok filestat -> IsRegular (Mode filestat) = true ->
      (h (sql_Open "sqlite3" dbPath) (h (os_Stat dbPath) s).2).1 = Err e ->
      err = e).
Proof.
  intros Hres.
  assert (Hrun : run h (OpenAppDB dbPath appName schemaVersion) s
    = (None, Some err, state_of h (openAppDBNoValidate dbPath) s,
       trace_of h (openAppDBNoValidate dbPath) s)).
  { rewrite OpenAppDB_run. unfold result_of, state_of, trace_of in *.
    destruct (run h (openAppDBNoValidate dbPath) s) as [[r s1] t1].
    cbn [fst snd] in *. subst r. reflexivity. }
  repeat apply conj.
  - exact Hrun.
  - unfold trace_of at 1. rewrite Hrun. cbn [snd].
    apply openAppDBNoValidate_calls.
  - intros filestat e Hstat Hreg Hopen. revert Hres.
    unfold result_of. rewrite openAppDBNoValidate_run.
    destruct (h (os_Stat dbPath) s) as [r0 s1]. cbn [fst snd] in *. subst r0.
    rewrite Hreg.
    destruct (h (sql_Open "sqlite3" dbPath) s1) as [r1 s2]. cbn [fst snd] in *. subst r1.
    cbn [fst snd]. congruence.
Qed.

End OpenFails.

(** ** Runs of the further properties in the sample environments *)

Lemma ExecSqlStatement_calls_witness :
  result_of Ref.handle (ExecSqlStatement 0%nat "INVALID SQL;") world_app3
    = Some Ref.syntax_error /\
  result_of Ref.handle (ExecSqlStatement 0%nat "CREATE TABLE u(y);") world_app3 = None.
Proof.
  split.
  - destruct (ExecSqlStatement_calls Ref.handle 0%nat "INVALID SQL;" world_app3)
      as (Hfail & _).
    refine (proj1 (Hfail Ref.syntax_error _)). vm_compute. reflexivity.
  - destruct (ExecSqlStatement_calls Ref.handle 0%nat "CREATE TABLE u(y);" world_app3)
      as (_ & Hok & _).
    destruct (Hok 3%nat) as (Hr & _); [vm_compute; reflexivity |].
    rewrite Hr. vm_compute. reflexivity.
Defined.

Lemma validateDB_calls_witness :
  result_of Ref.handle (validateDB 1%nat "app" 3) world_closed = Some Ref.closed_db.
Proof.
  destruct (validateDB_calls Ref.handle 1%nat "app" 3 world_closed) as (_ & _ & _ & Herr).
  apply Herr. vm_compute. reflexivity.
Defined.

Lemma InitAppDB_existing_path_witness :
  prepared_texts (trace_of Ref.handle (InitAppDB app_path "app" 3 ["DROP TABLE t;"])
                    world_app3) = [].
Proof.
  refine (proj2 (proj2 (proj2 (proj2
    (InitAppDB_existing_path Ref.handle app_path "app" 3 ["DROP TABLE t;"] world_app3 _))))).
  vm_compute. reflexivity.
Defined.

Lemma OpenAppDB_success_witness :
  exists (filestat : FileInfo) (r : Row) (user_version : Z),
    IsRegular (Mode filestat) = true /\
    trace_of Ref.handle (OpenAppDB app_path "app" 3) world_app3
      = [Ev (os_Stat app_path) (Ok filestat);
         Ev (sql_Open "sqlite3" app_path) (Ok 1%nat);
         Ev (DB_QueryRow 1%nat "PRAGMA user_version") r;
         Ev (Row_Scan r) (Ok user_version)] /\
    Z.land user_version 0x00ffffff = Z.land (getUserVersion "app" 3) 0x00ffffff /\
    uint8 (Z.shiftr user_version 24) = uint8 (Z.shiftr (getUserVersion "app" 3) 24) /\
    (is_uint8 3 -> is_uint32 user_version -> user_version = getUserVersion "app" 3) /\
    closed_handles (trace_of Ref.handle (OpenAppDB app_path "app" 3) world_app3) = [].
Proof.
  apply (OpenAppDB_success Ref.handle app_path "app" 3 world_app3 1%nat).
  vm_compute. reflexivity.
Defined.

Lemma InitAppDB_creation_fails_witness :
  result_of Ref.handle (InitAppDB app_path "app" 3 []) world_blocked
  = (None, Some (PathError "mkdir" "/data" (OtherError "not a directory"))).
Proof.
  destruct (InitAppDB_creation_fails Ref.handle app_path "app" 3 [] world_blocked)
    as (Hmkdir & _); [vm_compute; reflexivity |].
  refine (proj1 (Hmkdir _ _)). vm_compute. reflexivity.
Defined.

Lemma InitAppDB_creation_order_witness :
  result_of Ref.handle (InitAppDB app_path "app" 3 ["CREATE TABLE t(x);"]) Ref.empty
  = (Some 0%nat, None).
Proof.
  refine (proj1 (InitAppDB_creation_order Ref.handle app_path "app" 3
                   ["CREATE TABLE t(x);"] Ref.empty 0%nat 0%nat _ _ _ _)).
  - vm_compute. reflexivity.
  - vm_compute. reflexivity.
  - vm_compute. reflexivity.
  - vm_compute. reflexivity.
Defined.

(** Two names with one identifier: the database of the first is accepted for
    the second. *)
Lemma validateDB_same_identifier_witness :
  appId "app2111" = appId "app3586" /\
  run Ref.handle (OpenAppDB app_path "app2111" 3)
    (state_of Ref.handle (InitAppDB app_path "app2111" 3 []) Ref.empty)
  = run Ref.handle (OpenAppDB app_path "app3586" 3)
      (state_of Ref.handle (InitAppDB app_path "app2111" 3 []) Ref.empty).
Proof.
  assert (Hid : appId "app2111" = appId "app3586") by (vm_compute; reflexivity).
  split; [exact Hid |].
  refine (proj1 (proj2 (validateDB_same_identifier Ref.handle app_path
                          "app2111" "app3586" 3 0%nat _ Hid))).
Defined.

Example OpenAppDB_colliding_name :
  result_of Ref.handle (OpenAppDB app_path "app3586" 3)
    (state_of Ref.handle (InitAppDB app_path "app2111" 3 []) Ref.empty)
  = (Some 1%nat, None).
Proof. vm_compute. reflexivity. Qed.

Lemma OpenAppDB_open_fails_witness :
  run Ref.handle (OpenAppDB "/data" "app" 3) world_dir
  = (None, Some ErrInvalid, state_of Ref.handle (openAppDBNoValidate "/data") world_dir,
     trace_of Ref.handle (openAppDBNoValidate "/data") world_dir).
Proof.
  refine (proj1 (OpenAppDB_open_fails Ref.handle "/data" "app" 3 world_dir ErrInvalid _)).
  vm_compute. reflexivity.
Defined.

(** The lines of the variant when "app" makes its database. *)
Example Logged_InitAppDB_lines :
  log_of Ref.handle (Logged.InitAppDB app_path "app" 3 []) Ref.empty
  = [Sprintln ["InitAppDb("; app_path; "app"; "3"; ")"];
     Sprintln ["openAppDBNoValidate("; app_path; "app"; "3"; ")"];
     Sprintln ["initSchema(db,"; "app"; "3"; ")"];
     Sprintln ["getUserVersion("; "app"; "3"; ")"];
     statement_line "PRAGMA user_version = 63861409 ;";
     statement_line "PRAGMA foreign_keys = ON;"].
Proof. vm_compute. reflexivity. Qed.
